(** * Coursera MCP server: a shallow embedding and its verified properties

    The development follows the layout of the repository:
    - [JS]        the JavaScript string and truthiness primitives the code uses;
    - [Env]       [src/env.js] (the environment-file loader);
    - [Coursera]  [src/coursera-server.js] (configuration, tool table, handlers);
    - [Http]      the HTTP binding (session table, middleware, routes, SIGINT);
    - [Stdio]     the standard-input/output binding;
    - [Samples], [Notions], [Scenarios]  sample inputs and the vocabulary of
      the properties.

    The upstream API, the headless browser and the protocol SDK are external:
    the code's calls to them are logged as events and answered by an oracle,
    and every property is proved for all oracles.

    JavaScript strings are modelled by [string]; every character stands for one
    UTF-16 code unit in the Latin-1 range, so [String.length] is [.length];
    strings with code units from U+0100 on (surrogates among them) are
    outside the development. Numbers are the integers a JavaScript number
    holds exactly. *)

From Stdlib Require Import Ascii String NArith ZArith Lia List Bool DecimalString.
From stdpp Require Import base option strings gmap list.

Local Open Scope string_scope.
Local Set Warnings "-register-all".

(** ** JavaScript primitives *)

Module JS.

(** [WhiteSpace] and [LineTerminator] code units below U+0100: what
    [String.prototype.trim] removes and what the regular expression class
    [\s] matches. *)
Definition is_ws (c : ascii) : bool :=
  let n := N_of_ascii c in
  ((9 <=? n) && (n <=? 13) || (n =? 32) || (n =? 160))%N.

(** [LineTerminator]: what the regular expression [.] does not match. *)
Definition is_line_terminator (c : ascii) : bool :=
  let n := N_of_ascii c in ((n =? 10) || (n =? 13))%N.

Fixpoint trimStart (s : string) : string :=
  match s with
  | String c s' => if is_ws c then trimStart s' else s
  | EmptyString => EmptyString
  end.

Definition trimEnd (s : string) : string :=
  String.rev (trimStart (String.rev s)).

Definition trim (s : string) : string := trimEnd (trimStart s).

Definition startsWith (s p : string) : bool := String.prefix p s.

(** [s.endsWith(p)]: [p] is [s] or a suffix of its tail. *)
Fixpoint endsWith (s p : string) : bool :=
  String.eqb s p
  || match s with
     | String _ s' => endsWith s' p
     | EmptyString => false
     end.

(** [s.indexOf(sub)], with [None] for [-1]. *)
Fixpoint indexOf (s sub : string) : option nat :=
  if String.prefix sub s then Some 0
  else match s with
       | EmptyString => None
       | String _ s' => option_map S (indexOf s' sub)
       end.

Definition includes (s sub : string) : bool :=
  match indexOf s sub with Some _ => true | None => false end.

Fixpoint take (n : nat) (s : string) : string :=
  match n, s with
  | S n', String c s' => String c (take n' s')
  | _, _ => EmptyString
  end.

Fixpoint drop (n : nat) (s : string) : string :=
  match n, s with
  | S n', String _ s' => drop n' s'
  | _, _ => s
  end.

(** [s.slice(a)] and [s.slice(a, b)] for non-negative [a], [b]. *)
Definition slice_from (a : nat) (s : string) : string := drop a s.
Definition slice (a b : nat) (s : string) : string := take (b - a) (drop a s).

(** [s.slice(1, -1)]: the end index counts from the end of the string. *)
Definition slice_1_m1 (s : string) : string :=
  slice 1 (String.length s - 1) s.

(** [s.split(sep)] for a one-character separator. [cur] accumulates the
    current piece in reverse. *)
Fixpoint split_go (sep : ascii) (cur : string) (s : string) : list string :=
  match s with
  | EmptyString => [String.rev cur]
  | String c s' =>
      if Ascii.eqb c sep then String.rev cur :: split_go sep EmptyString s'
      else split_go sep (String c cur) s'
  end.

Definition split (sep : ascii) (s : string) : list string :=
  split_go sep EmptyString s.

(** [arr.join(sep)] on an array of strings. *)
Fixpoint join (sep : string) (l : list string) : string :=
  match l with
  | [] => EmptyString
  | [x] => x
  | x :: l' => x ++ sep ++ join sep l'
  end.

(** The one-character strings holding a double and a single quote. *)
Definition dquote : string := String (ascii_of_nat 34) EmptyString.
Definition squote : string := String (ascii_of_nat 39) EmptyString.

(** Truthiness of a value that is a string or [undefined]. *)
Definition truthy (v : option string) : bool :=
  match v with
  | Some s => negb (String.eqb s EmptyString)
  | None => false
  end.

(** [String(v)] for a value that is a string or [undefined]. *)
Definition text (v : option string) : string :=
  match v with Some s => s | None => "undefined" end.

(** [o[k]] on an object given by its own string-keyed properties, in
    order; [None] when there is no such property. *)
Fixpoint assoc {A} (k : string) (l : list (string * A)) : option A :=
  match l with
  | [] => None
  | (k', v) :: l' => if String.eqb k k' then Some v else assoc k l'
  end.

Definition asciiLower (c : ascii) : ascii :=
  let n := N_of_ascii c in
  if ((65 <=? n) && (n <=? 90))%N then ascii_of_N (n + 32) else c.

Fixpoint toLowerAscii (s : string) : string :=
  match s with
  | EmptyString => EmptyString
  | String c s' => String (asciiLower c) (toLowerAscii s')
  end.

Fixpoint all_chars (p : ascii -> bool) (s : string) : bool :=
  match s with
  | EmptyString => true
  | String c s' => p c && all_chars p s'
  end.

(** Length of the leading run of characters satisfying [p]. *)
Fixpoint span_len (p : ascii -> bool) (s : string) : nat :=
  match s with
  | String c s' => if p c then S (span_len p s') else 0
  | EmptyString => 0
  end.

(** [encodeURIComponent]: unreserved characters stay, every other code
    unit becomes the percent-escapes of its UTF-8 bytes. (The function
    throws a [URIError] on a lone surrogate, a code unit that the strings
    of this development do not have.) *)
Definition hexDigit (n : N) : ascii :=
  if (n <? 10)%N then ascii_of_N (48 + n) else ascii_of_N (55 + n).

Definition percentByte (b : N) : string :=
  String "%"%char (String (hexDigit (b / 16)) (String (hexDigit (b mod 16)) EmptyString)).

Definition uriUnreserved (c : ascii) : bool :=
  let n := N_of_ascii c in
  ((65 <=? n) && (n <=? 90) || (97 <=? n) && (n <=? 122)
   || (48 <=? n) && (n <=? 57)
   || (n =? 45) || (n =? 95) || (n =? 46) || (n =? 33) || (n =? 126)
   || (n =? 42) || (n =? 39) || (n =? 40) || (n =? 41))%N.

Fixpoint encodeURIComponent (s : string) : string :=
  match s with
  | EmptyString => EmptyString
  | String c s' =>
      let n := N_of_ascii c in
      (if uriUnreserved c then String c EmptyString
       else if (n <? 128)%N then percentByte n
            else percentByte (192 + n / 64) ++ percentByte (128 + n mod 64))
      ++ encodeURIComponent s'
  end.

(** The names every plain object inherits from [Object.prototype]: reading
    one of them on an object that has no own property of that name gives a
    function (or, for [__proto__], the prototype), not [undefined]. *)
Definition objectPrototypeMembers : list string :=
  ["constructor"; "toString"; "toLocaleString"; "valueOf";
   "hasOwnProperty"; "isPrototypeOf"; "propertyIsEnumerable";
   "__defineGetter__"; "__defineSetter__"; "__lookupGetter__";
   "__lookupSetter__"; "__proto__"].

Definition inherited (key : string) : bool :=
  existsb (String.eqb key) objectPrototypeMembers.

End JS.

(** ** src/env.js *)

Module Env.

(** The module-level flag [envLoaded] together with [process.env]: the
    variables of the process, by name. *)
Record ProcessState := mkProcess {
  envLoaded : bool;
  env : gmap string string
}.

(** What [existsSync]/[readFileSync] see at the two resolved paths:
    [None] when the file does not exist, its text otherwise (a file that
    exists is taken to be readable). *)
Record FileSystem := mkFS {
  dotenv_local : option string;   (* <root>/.env.local *)
  dotenv : option string          (* <root>/.env *)
}.

(** The candidate files in the order of the array [envFiles]. *)
Definition envFiles (fs : FileSystem) : list (option string) :=
  [dotenv_local fs; dotenv fs].

(** Removal of one pair of surrounding quotes (lines 30-33). *)
Definition stripQuotes (value : string) : string :=
  if (JS.startsWith value JS.dquote && JS.endsWith value JS.dquote)
     || (JS.startsWith value JS.squote && JS.endsWith value JS.squote)
  then JS.slice_1_m1 value
  else value.

(** Lines 23-33: the key and value a line contributes, if any. *)
Definition parseLine (line : string) : option (string * string) :=
  let trimmed := JS.trim line in
  if String.eqb trimmed "" || JS.startsWith trimmed "#" then None
  else match JS.indexOf trimmed "=" with
       | None => None
       | Some idx =>
           let key := JS.trim (JS.slice 0 idx trimmed) in
           let value := JS.trim (JS.slice_from (idx + 1) trimmed) in
           Some (key, stripQuotes value)
       end.

(** [!process.env[key]]. The read gives the variable when there is one;
    otherwise it falls through to [Object.prototype], whose members are
    truthy. *)
Definition unset (e : gmap string string) (key : string) : bool :=
  match e !! key with
  | Some v => String.eqb v EmptyString
  | None => negb (JS.inherited key)
  end.

(** [process.env[key] = value]: the process environment has no variable
    with the empty name, and drops the assignment to it. *)
Definition setVariable (e : gmap string string) (key value : string)
  : gmap string string :=
  if String.eqb key EmptyString then e else <[key := value]> e.

(** Lines 34-36: assign only when [process.env[key]] is falsy. *)
Definition assignIfUnset (e : gmap string string) (key value : string)
  : gmap string string :=
  if unset e key then setVariable e key value else e.

Definition applyLine (e : gmap string string) (line : string)
  : gmap string string :=
  match parseLine line with
  | Some (key, value) => assignIfUnset e key value
  | None => e
  end.

(** The inner loop over [content.split("\n")]. *)
Definition loadContent (e : gmap string string) (content : string)
  : gmap string string :=
  fold_left applyLine (JS.split "010"%char content) e.

(** One iteration of the outer loop: skip a file that does not exist. *)
Definition loadFile (e : gmap string string) (file : option string)
  : gmap string string :=
  match file with
  | Some content => loadContent e content
  | None => e
  end.

Definition loadEnv (fs : FileSystem) (st : ProcessState) : ProcessState :=
  if envLoaded st then st
  else {| envLoaded := true;
          env := fold_left loadFile (envFiles fs) (env st) |}.

End Env.


(** ** JSON values as JavaScript sees them *)

Module Json.

(** A JSON document after [JSON.parse], together with [undefined]. Numbers
    are the integers a JavaScript number holds exactly and prints in full
    (below 2^53 in magnitude), which is all the tool table constrains. *)
Inductive t :=
| Undefined
| Null
| Bool (b : bool)
| Num (z : Z)
| Str (s : string)
| Arr (items : list t)
| Obj (fields : list (string * t)).

(** The own properties of an object, in insertion order. *)
Definition Fields := list (string * t).

(** [o.k] on an object: the value of the own property, [undefined] when
    there is none. *)
Fixpoint lookup (k : string) (fs : Fields) : t :=
  match fs with
  | [] => Undefined
  | (k', v) :: fs' => if String.eqb k k' then v else lookup k fs'
  end.

Fixpoint has (k : string) (fs : Fields) : bool :=
  match fs with
  | [] => false
  | (k', _) :: fs' => String.eqb k k' || has k fs'
  end.

(** [o[k] = v]: overwrite in place, or append a new property. *)
Fixpoint set (k : string) (v : t) (fs : Fields) : Fields :=
  match fs with
  | [] => [(k, v)]
  | (k', v') :: fs' =>
      if String.eqb k k' then (k', v) :: fs' else (k', v') :: set k v fs'
  end.

(** [{...fs, ...extra}]. *)
Definition spread (fs extra : Fields) : Fields :=
  fold_left (fun acc kv => set (fst kv) (snd kv) acc) extra fs.

(** The decimal digits of an integer: what [String(n)] is for the numbers
    of this development (the engine rounds beyond 2^53 and prints an
    exponent from 10^21 on). *)
Definition decimal (z : Z) : string :=
  DecimalString.NilZero.string_of_int (Z.to_int z).

(** The index-keyed properties of an array or of the characters of a
    string. *)
Fixpoint indexed (i : nat) (items : list t) : Fields :=
  match items with
  | [] => []
  | x :: items' => (decimal (Z.of_nat i), x) :: indexed (S i) items'
  end.

Fixpoint chars (s : string) : list t :=
  match s with
  | EmptyString => []
  | String c s' => Str (String c EmptyString) :: chars s'
  end.

(** The own enumerable properties an object spread [...v] copies. *)
Definition spreadable (v : t) : Fields :=
  match v with
  | Obj fs => fs
  | Arr items => indexed 0 items
  | Str s => indexed 0 (chars s)
  | _ => []
  end.

Definition truthy (v : t) : bool :=
  match v with
  | Undefined | Null => false
  | Bool b => b
  | Num z => negb (z =? 0)%Z
  | Str s => negb (String.eqb s EmptyString)
  | Arr _ | Obj _ => true
  end.

(** [a || b]. *)
Definition or (a b : t) : t := if truthy a then a else b.

(** [String(v)], the conversion a template literal, [encodeURIComponent]
    and [Array.prototype.join] apply; [None] when it throws a [TypeError].
    An array joins the conversions of its elements ([null] gives the empty
    string). An object is converted by the [toString] it has: the one of
    [Object.prototype], unless a property of its own hides it; such a
    property of a parsed document is never a function, [valueOf] does not
    give a primitive either, and the conversion throws. *)
Fixpoint toString (v : t) : option string :=
  match v with
  | Undefined => Some "undefined"
  | Null => Some "null"
  | Bool true => Some "true"
  | Bool false => Some "false"
  | Num z => Some (decimal z)
  | Str s => Some s
  | Arr items =>
      (fix joinItems (l : list t) : option string :=
         match l with
         | [] => Some EmptyString
         | x :: l' =>
             let sx := match x with
                       | Undefined | Null => Some EmptyString
                       | _ => toString x
                       end in
             match l' with
             | [] => sx
             | _ => match sx, joinItems l' with
                    | Some a, Some b => Some (a ++ "," ++ b)
                    | _, _ => None
                    end
             end
         end) items
  | Obj fs => if has "toString" fs then None else Some "[object Object]"
  end.

(** [v?.k] for a property name [k] that no array, string, number or boolean
    has of its own or inherits ([elements], [userId], [courseId], [id]). *)
Definition optProp (k : string) (v : t) : t :=
  match v with
  | Obj fs => lookup k fs
  | _ => Undefined
  end.

(** [v?.[0]]. *)
Definition optFirst (v : t) : t :=
  match v with
  | Arr (x :: _) => x
  | Str (String c _) => Str (String c EmptyString)
  | Obj fs => lookup "0" fs
  | _ => Undefined
  end.

(** [SameValueZero] on values that came out of [JSON.parse]: primitives
    compare by value, two distinct arrays or objects are never the same. *)
Definition sameValueZero (a b : t) : bool :=
  match a, b with
  | Undefined, Undefined | Null, Null => true
  | Bool x, Bool y => Bool.eqb x y
  | Num x, Num y => (x =? y)%Z
  | Str x, Str y => String.eqb x y
  | _, _ => false
  end.

End Json.

(** ** A state-and-exception monad for the effectful code

    A computation runs on a state and ends with a value or a thrown error;
    the state changes made before a throw persist, as in JavaScript. *)

Module Eff.

(** A thrown [Error]: only its message is observed by the code. *)
Inductive JsError := Err (message : string).

Definition message (e : JsError) : string :=
  match e with Err m => m end.

Inductive Result (A : Type) :=
| Ok (a : A)
| Throw (e : JsError).
Arguments Ok {A} a.
Arguments Throw {A} e.

Definition M (S A : Type) : Type := S -> Result A * S.

Definition ret {S A} (a : A) : M S A := fun s => (Ok a, s).

Definition bind {S A B} (m : M S A) (f : A -> M S B) : M S B :=
  fun s => match m s with
           | (Ok a, s') => f a s'
           | (Throw e, s') => (Throw e, s')
           end.

Definition throw {S A} (e : JsError) : M S A := fun s => (Throw e, s).

(** [try { m } catch (e) { h e }]. *)
Definition tryCatch {S A} (m : M S A) (h : JsError -> M S A) : M S A :=
  fun s => match m s with
           | (Ok a, s') => (Ok a, s')
           | (Throw e, s') => h e s'
           end.

(** [try { m } finally { fin }]: [fin] always runs; when it throws, its
    error replaces the outcome of [m]. *)
Definition tryFinally {S A} (m : M S A) (fin : M S unit) : M S A :=
  fun s => match m s with
           | (res, s') =>
               match fin s' with
               | (Ok _, s'') => (res, s'')
               | (Throw e, s'') => (Throw e, s'')
               end
           end.

(** Settling an awaited promise: a value, or a rejection that throws. *)
Definition settle {S A} (r : Result A) : M S A := fun s => (r, s).

Definition get {S} : M S S := fun s => (Ok s, s).
Definition modify {S} (f : S -> S) : M S unit := fun s => (Ok tt, f s).

(** A computation that keeps an invariant of the state, however it ends. *)
Definition keeps {S A} (I : S -> Prop) (m : M S A) : Prop :=
forall s, I s -> I (snd (m s)).

Definition voidResult (o : option JsError) : Result unit :=
  match o with
  | None => Ok tt
  | Some e => Throw e
  end.

End Eff.

Declare Scope eff_scope.
Delimit Scope eff_scope with eff.
Notation "'let*' x ':=' m 'in' k" := (Eff.bind m (fun x => k))
  (at level 10, x name, m at level 100, k at level 200) : eff_scope.
Notation "m ;; k" := (Eff.bind m (fun _ => k))
  (at level 100, k at level 200, right associativity) : eff_scope.

(** ** src/coursera-server.js *)

Module Coursera.
Import Eff.
Local Open Scope eff_scope.

Definition DEFAULT_PER_PAGE : Z := 50.
Definition USER_AGENT : string :=
  "Mozilla/5.0 (Macintosh; Intel Mac OS X 10_15_7) AppleWebKit/537.36 (KHTML, like Gecko) Chrome/120.0.0.0 Safari/537.36".
Definition COURSERA_API_BASE : string := "https://www.coursera.org/api".

(** *** The tool table (lines 16-186) *)

Inductive PropType := TString | TInteger.

Record PropSchema := mkProp {
  p_type : PropType;
  p_minimum : option Z;
  p_maximum : option Z;
  p_description : string
}.

Record InputSchema := mkSchema {
  properties : list (string * PropSchema);
  required : list string;
  additionalProperties : bool
}.

Record Tool := mkTool {
  name : string;
  description : string;
  inputSchema : InputSchema
}.

Definition stringProp (d : string) : PropSchema := mkProp TString None None d.

Definition courseSlugOnly (d : string) : InputSchema :=
  mkSchema [("course_slug", stringProp d)] ["course_slug"] false.

Definition itemSchema (idDescr nameDescr : string) : InputSchema :=
  mkSchema
    [("course_slug", stringProp "The course slug.");
     ("item_id", stringProp idDescr);
     ("item_name", stringProp nameDescr)]
    ["course_slug"; "item_id"] false.

Definition tools : list Tool :=
  [ mkTool "list_enrollments"
      "List all courses the user is enrolled in on Coursera, including degree programs."
      (mkSchema
         [("limit", mkProp TInteger (Some 1%Z) (Some 100%Z)
                      "Maximum number of enrollments to return.")]
         [] false);
    mkTool "get_course"
      "Get details for a specific Coursera course by slug."
      (courseSlugOnly
         "The course slug (from URL, e.g., 'machine-learning' or 'online-social-media').");
    mkTool "list_course_materials"
      "List all modules and materials in a course (uses browser to access protected content)."
      (courseSlugOnly "The course slug.");
    mkTool "get_page_content"
      "Get the content of any Coursera page by URL (reading, lecture, assignment, etc). Uses browser to render protected content."
      (mkSchema
         [("url", stringProp
             "Full Coursera URL (e.g., https://www.coursera.org/learn/online-social-media/supplement/QcAx4/essential-readings-content-integrity)")]
         ["url"] false);
    mkTool "get_reading"
      "Get content of a reading/supplement material using browser rendering."
      (itemSchema "The reading item ID (e.g., 'QcAx4')."
         "The item name/slug for the URL (e.g., 'essential-readings-content-integrity').");
    mkTool "get_lecture"
      "Get lecture/video content and transcript."
      (itemSchema "The lecture/item ID." "The item name for the URL.");
    mkTool "list_assignments"
      "List all assignments/quizzes in a course."
      (courseSlugOnly "The course slug.");
    mkTool "get_assignment"
      "Get assignment or quiz content using browser rendering."
      (itemSchema "The assignment/quiz item ID." "The item name for the URL.");
    mkTool "get_progress"
      "Get user's progress in a course."
      (courseSlugOnly "The course slug.");
    mkTool "list_degree_programs"
      "List degree programs the user is enrolled in."
      (mkSchema [] [] false) ].


(** *** Configuration (lines 188-210) *)

Record Config := mkConfig {
  cookies : string;
  cauth : option string       (* [None] is [null] *)
}.

Definition missingCredentials : string :=
  "Missing COURSERA_COOKIES or COURSERA_CAUTH env var. "
  ++ "You need to extract your session cookies from your browser.".

Definition notSemicolon (c : ascii) : bool := negb (Ascii.eqb c ";"%char).

(** [cookies.match(/CAUTH=([^;]+)/)]: the first group of the leftmost
    match. *)
Fixpoint matchCauth (s : string) : option string :=
  let run := JS.span_len notSemicolon (JS.drop 6 s) in
  if String.prefix "CAUTH=" s && (0 <? run)%nat
  then Some (JS.take run (JS.drop 6 s))
  else match s with
       | EmptyString => None
       | String _ s' => matchCauth s'
       end.

Definition extractCauth (cookies : option string) : option string :=
  if negb (JS.truthy cookies) then None
  else match cookies with
       | Some c => matchCauth c
       | None => None
       end.

Definition getCourseraConfig (fs : Env.FileSystem)
  : M Env.ProcessState Config :=
  modify (Env.loadEnv fs) ;;
  let* st := get in
  let cookies := Env.env st !! "COURSERA_COOKIES" in
  let cauth := Env.env st !! "COURSERA_CAUTH" in
  if negb (JS.truthy cookies) && negb (JS.truthy cauth)
  then throw (Err missingCredentials)
  else ret (mkConfig
              (if JS.truthy cookies then JS.text cookies
               else "CAUTH=" ++ JS.text cauth)
              (if JS.truthy cauth then cauth else extractCauth cookies)).

(** *** The upstream world

    The upstream API and the headless browser are external. Every call to
    them is logged as an [Event]; what the call yields is read from a
    [World] at the time of the call (the number of events logged so far),
    so a world can answer the same call differently at different times. *)

Record Cookie := mkCookie {
  c_name : string;
  c_value : string;
  c_domain : string;
  c_path : string;
  c_httpOnly : option bool;
  c_secure : option bool
}.

Inductive Event :=
| EvFetch (url : string) (cookie : string)        (* fetch(url, ...) and its Cookie header *)
| EvLaunch                                        (* puppeteer.launch *)
| EvNewPage (page : nat)                          (* browser.newPage() gave [page] *)
| EvNewPageFailed                                 (* browser.newPage() rejected *)
| EvSetCookie (page : nat) (cs : list Cookie)
| EvSetUserAgent (page : nat) (ua : string)
| EvSetViewport (page : nat) (width height : nat)
| EvGoto (page : nat) (url : Json.t)
| EvWaitForSelector (page : nat) (selector : string)
| EvEvaluate (page : nat)
| EvTitle (page : nat)
| EvPageClose (page : nat)
| EvBrowserClose.

(** What the in-page function of [fetchPageContent] returns. *)
Record PageContent := mkContent {
  pc_html : string;
  pc_text : string;
  pc_selector : string
}.

Record FetchResponse := mkResponse {
  r_ok : bool;
  r_status : Z;
  r_text : string;                     (* response.text() *)
  r_contentType : option string;       (* headers.get("content-type") *)
  r_json : Result Json.t               (* response.json() *)
}.

Record World := mkWorld {
  w_fetch : nat -> Result FetchResponse;
  w_launch : nat -> Result unit;
  w_newPage : nat -> option JsError;
  w_setCookie : nat -> option JsError;
  w_setUserAgent : nat -> option JsError;
  w_setViewport : nat -> option JsError;
  w_goto : nat -> option JsError;
  w_waitForSelector : nat -> option JsError;
  w_evaluateContent : nat -> Result PageContent;
  w_evaluate : nat -> Result Json.t;
  w_title : nat -> Result string;
  w_pageUrl : nat -> string;
  w_pageClose : nat -> option JsError;
  w_browserClose : nat -> option JsError
}.

(** The state one [createCourseraServer()] closure holds: [browserPromise]
    ([None] is [null]; [Some p] is the promise [puppeteer.launch] returned
    and how it settles), the number of pages created so far, and the log
    of upstream calls, oldest first. *)
Record Registry := mkRegistry {
  browserPromise : option (Result unit);
  pages : nat;
  trace : list Event
}.

Definition freshRegistry : Registry := mkRegistry None 0 [].

Definition now : M Registry nat := fun r => (Ok (length (trace r)), r).

Definition emit (ev : Event) : M Registry unit :=
  modify (fun r => mkRegistry (browserPromise r) (pages r) (trace r ++ [ev])).

(** An awaited upstream call: logged, then settled by the world. *)
Definition call {A} (ev : Event) (answer : nat -> Result A) : M Registry A :=
  let* t := now in
  emit ev ;;
  settle (answer t).

Definition callVoid (ev : Event) (answer : nat -> option JsError)
  : M Registry unit :=
  call ev (fun t => voidResult (answer t)).

(** The [TypeError] of a conversion to a string that finds nothing it can
    call. *)
Definition conversionError : JsError :=
  Err "Cannot convert object to primitive value".

(** [`${v}`] as a step of a computation. A value converts the same way
    every time, so where the code converts one value twice the second
    conversion is not repeated. *)
Definition toText {S} (v : Json.t) : M S string :=
  match Json.toString v with
  | Some s => ret s
  | None => throw conversionError
  end.

Section Server.
Variable w : World.
Variable cfg : Config.

(** Lines 226-234. *)
Definition getBrowser : M Registry (Result unit) :=
  let* r := get in
  match browserPromise r with
  | Some p => ret p
  | None =>
      let* t := now in
      emit EvLaunch ;;
      let p := w_launch w t in
      modify (fun r => mkRegistry (Some p) (pages r) (trace r)) ;;
      ret p
  end.

Definition newPage : M Registry nat :=
  let* t := now in
  match w_newPage w t with
  | Some e => emit EvNewPageFailed ;; throw e
  | None =>
      let* r := get in
      let page := pages r in
      modify (fun r => mkRegistry (browserPromise r) (S (pages r)) (trace r)) ;;
      emit (EvNewPage page) ;;
      ret page
  end.

(** [`CAUTH=${cauth}`] with [cauth] a string or [null]. *)
Definition cauthPair : string :=
  "CAUTH=" ++ match cauth cfg with Some c => c | None => "null" end.

(** Lines 256-267: one cookie per [name=value] pair. *)
Definition parseCookiePair (pair : string) : list Cookie :=
  match JS.split "="%char (JS.trim pair) with
  | nm :: valueParts =>
      if negb (String.eqb nm EmptyString) && (0 <? length valueParts)%nat
      then [mkCookie (JS.trim nm) (JS.trim (JS.join "=" valueParts))
              ".coursera.org" "/" None None]
      else []
  | [] => []
  end.

Definition cookiesToSet : list Cookie :=
  (if JS.truthy (cauth cfg)
   then [mkCookie "CAUTH" (JS.text (cauth cfg)) ".coursera.org" "/"
           (Some true) (Some true)]
   else [])
  ++ (if negb (String.eqb (cookies cfg) EmptyString)
         && negb (String.eqb (cookies cfg) cauthPair)
      then flat_map parseCookiePair (JS.split ";"%char (cookies cfg))
      else []).

(** Lines 237-278. *)
Definition createAuthenticatedPage : M Registry nat :=
  let* promise := getBrowser in
  settle promise ;;
  let* page := newPage in
  (if (0 <? length cookiesToSet)%nat
   then callVoid (EvSetCookie page cookiesToSet) (w_setCookie w)
   else ret tt) ;;
  callVoid (EvSetUserAgent page USER_AGENT) (w_setUserAgent w) ;;
  callVoid (EvSetViewport page 1280 800) (w_setViewport w) ;;
  ret page.

Definition closePage (page : nat) : M Registry unit :=
  callVoid (EvPageClose page) (w_pageClose w).

(** *** Page fetching (lines 281-370) *)

Definition defaultWaitForSelector : string :=
  ".rc-CML, .rc-SupplementContent, [data-testid=" ++ JS.dquote
  ++ "content" ++ JS.dquote ++ "], main".

(** The object [fetchPageContent] returns, with [extractText] left at
    its default [true]. *)
Record PageResult := mkPageResult {
  pr_title : string;
  pr_url : string;
  pr_content : string;
  pr_html : string;
  pr_foundSelector : string
}.

Definition pageResultFields (res : PageResult) : Json.Fields :=
  [("title", Json.Str (pr_title res));
   ("url", Json.Str (pr_url res));
   ("content", Json.Str (pr_content res));
   ("html", Json.Str (pr_html res));
   ("foundSelector", Json.Str (pr_foundSelector res))].

(** Every call site passes the URL alone, so the options keep their
    defaults. The first step inside the [try] is the conversion of
    [console.log(`Fetching: ${url}`)]. *)
Definition fetchPageContent (url : Json.t) : M Registry PageResult :=
  let* page := createAuthenticatedPage in
  tryFinally
    (toText url ;;
     callVoid (EvGoto page url) (w_goto w) ;;
     tryCatch
       (callVoid (EvWaitForSelector page defaultWaitForSelector)
          (w_waitForSelector w))
       (fun _ => ret tt) ;;
     let* content := call (EvEvaluate page) (w_evaluateContent w) in
     let* title := call (EvTitle page) (w_title w) in
     let* t := now in
     let finalUrl := w_pageUrl w t in
     ret (mkPageResult title finalUrl (pc_text content) (pc_html content)
            (pc_selector content)))
    (closePage page).

(** *** API requests (lines 373-396) *)

Definition courseraFetch (url : string) : M Registry Json.t :=
  let* response := call (EvFetch url (cookies cfg)) (w_fetch w) in
  if negb (r_ok response)
  then throw (Err ("Coursera API error " ++ Json.decimal (r_status response)
                   ++ ": " ++ JS.take 500 (r_text response)))
  else if match r_contentType response with
          | Some ct => JS.includes ct "application/json"
          | None => false
          end
       then settle (r_json response)
       else ret (Json.Str (r_text response)).

(** [p.catch(() => null)]. *)
Definition catchNull (m : M Registry Json.t) : M Registry Json.t :=
  tryCatch m (fun _ => ret Json.Null).

Definition typeError {A} (what : string) : M Registry A :=
  throw (Err what).

(** [elements?.map(m => m.prop)] on a value that may be anything. *)
Definition optMapProp (prop : string) (elements : Json.t)
  : Result (option (list Json.t)) :=
  match elements with
  | Json.Undefined | Json.Null => Ok None
  | Json.Arr items =>
      if forallb (fun m => match m with
                           | Json.Undefined | Json.Null => false
                           | _ => true
                           end) items
      then Ok (Some (map (Json.optProp prop) items))
      else Throw (Err "Cannot read properties of null (reading 'courseId')")
  | _ => Throw (Err "memberships?.elements?.map is not a function")
  end.

(** [url.includes(sub)] on a value that may be anything: substring search
    on a string, membership in an array, a [TypeError] otherwise. *)
Definition valueIncludes (v : Json.t) (sub : string) : Result bool :=
  match v with
  | Json.Str s => Ok (JS.includes s sub)
  | Json.Arr items => Ok (existsb (Json.sameValueZero (Json.Str sub)) items)
  | Json.Undefined =>
      Throw (Err "Cannot read properties of undefined (reading 'includes')")
  | Json.Null =>
      Throw (Err "Cannot read properties of null (reading 'includes')")
  | _ => Throw (Err "url.includes is not a function")
  end.

(** *** Tool implementations (lines 399-747) *)

Definition listEnrollments (args : Json.Fields) : M Registry Json.t :=
  let limit := Json.or (Json.lookup "limit" args) (Json.Num DEFAULT_PER_PAGE) in
  tryCatch
    (let* limitText := toText limit in
     let membershipsUrl :=
       COURSERA_API_BASE ++ "/memberships.v1?q=me&includes=programs,courses&limit="
       ++ limitText in
     let* memberships := catchNull (courseraFetch membershipsUrl) in
     let elements := Json.optProp "elements" memberships in
     let userId := Json.optProp "userId" (Json.optFirst elements) in
     let* programs :=
       (if Json.truthy userId
        then
          let* userText := toText userId in
          catchNull (courseraFetch
            (COURSERA_API_BASE ++ "/programMemberships.v2?q=byUser&userId="
             ++ userText))
        else ret Json.Null) in
     let* mapped := settle (optMapProp "courseId" elements) in
     let courseIds :=
       match mapped with
       | Some ids => List.filter (fun v => Json.truthy v) ids
       | None => []
       end in
     let* courses :=
       (if (0 <? length courseIds)%nat
        then
          (* [courseIds.join(',')] is the conversion of the array *)
          let* idsText := toText (Json.Arr courseIds) in
          let* coursesResponse :=
            catchNull (courseraFetch
              (COURSERA_API_BASE ++ "/onDemandCourses.v1?ids="
               ++ idsText
               ++ "&fields=id,name,slug,description")) in
          ret (Json.or (Json.optProp "elements" coursesResponse) (Json.Arr []))
        else ret (Json.Arr [])) in
     ret (Json.Obj
            [("memberships", Json.or elements (Json.Arr []));
             ("programs", Json.or (Json.optProp "elements" programs) (Json.Arr []));
             ("courses", courses);
             ("user_id", userId)]))
    (fun error =>
       ret (Json.Obj
              [("error", Json.Str (message error));
               ("hint", Json.Str "Try refreshing your CAUTH cookie from the browser")])).

Definition getCourse (args : Json.Fields) : M Registry Json.t :=
  let course_slug := Json.lookup "course_slug" args in
  let* slugText := toText course_slug in
  let url :=
    COURSERA_API_BASE ++ "/onDemandCourses.v1?q=slug&slug="
    ++ JS.encodeURIComponent slugText
    ++ "&fields=id,name,slug,description,primaryLanguages,instructorIds,partnerIds,workload,photoUrl" in
  let* response := courseraFetch url in
  let course := Json.optFirst (Json.optProp "elements" response) in
  if negb (Json.truthy course)
  then throw (Err ("Course not found: " ++ slugText))
  else ret course.

(** The shape shared by the handlers that drive a page themselves:
    open a page, navigate, run [body], and close the page in [finally]. *)
Definition withPage {A} (url : string) (body : nat -> M Registry A)
  : M Registry A :=
  let* page := createAuthenticatedPage in
  tryFinally
    (callVoid (EvGoto page (Json.Str url)) (w_goto w) ;; body page)
    (closePage page).

(** [`https://www.coursera.org/learn/${course_slug}...`], from the text
    the slug converts to. *)
Definition learnUrl (slugText : string) (rest : string) : string :=
  "https://www.coursera.org/learn/" ++ slugText ++ rest.

Definition listCourseMaterials (args : Json.Fields) : M Registry Json.t :=
  let course_slug := Json.lookup "course_slug" args in
  let* slugText := toText course_slug in
  let url := learnUrl slugText "/home/week/1" in
  withPage url (fun page =>
    let* materials := call (EvEvaluate page) (w_evaluate w) in
    ret (Json.Obj [("course_slug", course_slug);
                   ("url", Json.Str url);
                   ("modules", materials)])).

Definition getPageContent (args : Json.Fields) : M Registry Json.t :=
  let url := Json.lookup "url" args in
  let* found := settle (valueIncludes url "coursera.org") in
  if negb found
  then throw (Err "URL must be a Coursera URL")
  else
    let* result := fetchPageContent url in
    ret (Json.Obj (pageResultFields result)).

(** [`https://www.coursera.org/learn/${course_slug}/<kind>/${item_id}/${slug}`],
    from the texts of the three values. *)
Definition itemUrl (kind : string) (slugText idText nameText : string)
  : string :=
  learnUrl slugText ("/" ++ kind ++ "/" ++ idText ++ "/" ++ nameText).

(** The conversions of a template literal that names the course, the item
    and its slug, in that order. *)
Definition itemTexts (course_slug item_id slug : Json.t)
  : M Registry (string * string * string) :=
  let* slugText := toText course_slug in
  let* idText := toText item_id in
  let* nameText := toText slug in
  ret (slugText, idText, nameText).

Definition getReading (args : Json.Fields) : M Registry Json.t :=
  let course_slug := Json.lookup "course_slug" args in
  let item_id := Json.lookup "item_id" args in
  let item_name := Json.lookup "item_name" args in
  let slug := Json.or item_name (Json.Str "reading") in
  let* texts := itemTexts course_slug item_id slug in
  let '(slugText, idText, nameText) := texts in
  let url := itemUrl "supplement" slugText idText nameText in
  let* result := fetchPageContent (Json.Str url) in
  ret (Json.Obj (Json.spread [("course_slug", course_slug); ("item_id", item_id)]
                   (pageResultFields result))).

Definition getLecture (args : Json.Fields) : M Registry Json.t :=
  let course_slug := Json.lookup "course_slug" args in
  let item_id := Json.lookup "item_id" args in
  let item_name := Json.lookup "item_name" args in
  let slug := Json.or item_name (Json.Str "lecture") in
  let* texts := itemTexts course_slug item_id slug in
  let '(slugText, idText, nameText) := texts in
  let url := itemUrl "lecture" slugText idText nameText in
  withPage url (fun page =>
    let* content := call (EvEvaluate page) (w_evaluate w) in
    let* pageTitle := call (EvTitle page) (w_title w) in
    ret (Json.Obj
           (Json.spread
              [("course_slug", course_slug);
               ("item_id", item_id);
               ("url", Json.Str url);
               ("page_title", Json.Str pageTitle)]
              (Json.spreadable content)))).

(** [[...new Map(assignments.map(a => [a.url, a])).values()]]. *)
Fixpoint mapSet (k v : Json.t) (m : list (Json.t * Json.t))
  : list (Json.t * Json.t) :=
  match m with
  | [] => [(k, v)]
  | (k', v') :: m' =>
      if Json.sameValueZero k k' then (k', v) :: m'
      else (k', v') :: mapSet k v m'
  end.

Definition dedupeByUrl (assignments : Json.t) : Result (list Json.t) :=
  match assignments with
  | Json.Arr items =>
      if forallb (fun a => match a with
                           | Json.Undefined | Json.Null => false
                           | _ => true
                           end) items
      then Ok (map snd
                 (fold_left (fun m a => mapSet (Json.optProp "url" a) a m)
                    items []))
      else Throw (Err "Cannot read properties of null (reading 'url')")
  | Json.Undefined =>
      Throw (Err "Cannot read properties of undefined (reading 'map')")
  | Json.Null =>
      Throw (Err "Cannot read properties of null (reading 'map')")
  | _ => Throw (Err "assignments.map is not a function")
  end.

Definition listAssignments (args : Json.Fields) : M Registry Json.t :=
  let course_slug := Json.lookup "course_slug" args in
  let* slugText := toText course_slug in
  let courseUrl :=
    COURSERA_API_BASE ++ "/onDemandCourses.v1?q=slug&slug="
    ++ JS.encodeURIComponent slugText ++ "&fields=id" in
  let* courseResponse := courseraFetch courseUrl in
  let courseId :=
    Json.optProp "id" (Json.optFirst (Json.optProp "elements" courseResponse)) in
  if negb (Json.truthy courseId)
  then throw (Err ("Course not found: " ++ slugText))
  else
    withPage (learnUrl slugText "/home/week/1") (fun page =>
      let* assignments := call (EvEvaluate page) (w_evaluate w) in
      let* deduped := settle (dedupeByUrl assignments) in
      ret (Json.Obj [("course_id", courseId);
                     ("course_slug", course_slug);
                     ("assignments", Json.Arr deduped)])).

(** The candidate URLs of [getAssignment], in the order of the array. *)
Definition assignmentUrls (slugText idText nameText : string) : list string :=
  [itemUrl "quiz" slugText idText nameText;
   itemUrl "exam" slugText idText nameText;
   itemUrl "assignment" slugText idText nameText].

Definition plausible (result : PageResult) : bool :=
  negb (String.eqb (pr_content result) EmptyString)
  && (100 <? String.length (pr_content result))%nat.

(** The loop of lines 666-679, then the throw of line 681. *)
Fixpoint probeAssignment (course_slug item_id : Json.t) (urls : list string)
  : M Registry Json.t :=
  match urls with
  | [] =>
      let* idText := toText item_id in
      let* slugText := toText course_slug in
      throw (Err ("Could not find assignment " ++ idText
                  ++ " in course " ++ slugText))
  | url :: rest =>
      let* found :=
        tryCatch
          (let* result := fetchPageContent (Json.Str url) in
           if plausible result
           then ret (Some (Json.Obj
                             (Json.spread [("course_slug", course_slug);
                                           ("item_id", item_id)]
                                (pageResultFields result))))
           else ret None)
          (fun _ => ret None) in
      match found with
      | Some answer => ret answer
      | None => probeAssignment course_slug item_id rest
      end
  end.

Definition getAssignment (args : Json.Fields) : M Registry Json.t :=
  let course_slug := Json.lookup "course_slug" args in
  let item_id := Json.lookup "item_id" args in
  let item_name := Json.lookup "item_name" args in
  let slug := Json.or item_name (Json.Str "quiz") in
  let* texts := itemTexts course_slug item_id slug in
  let '(slugText, idText, nameText) := texts in
  probeAssignment course_slug item_id
    (assignmentUrls slugText idText nameText).

Definition getProgress (args : Json.Fields) : M Registry Json.t :=
  let course_slug := Json.lookup "course_slug" args in
  let* slugText := toText course_slug in
  let url := learnUrl slugText "/home/welcome" in
  withPage url (fun page =>
    let* progress := call (EvEvaluate page) (w_evaluate w) in
    ret (Json.Obj (Json.spread [("course_slug", course_slug);
                                ("url", Json.Str url)]
                     (Json.spreadable progress)))).

Definition listDegreePrograms (args : Json.Fields) : M Registry Json.t :=
  tryCatch
    (let* memberships :=
       courseraFetch (COURSERA_API_BASE ++ "/memberships.v1?q=me&limit=100") in
     let userId :=
       Json.optProp "userId" (Json.optFirst (Json.optProp "elements" memberships)) in
     if negb (Json.truthy userId)
     then throw (Err "Could not get user ID")
     else
       let* userText := toText userId in
       let* programs :=
         courseraFetch (COURSERA_API_BASE
                        ++ "/programMemberships.v2?q=byUser&userId="
                        ++ userText) in
       ret (Json.Obj
              [("user_id", userId);
               ("programs", Json.or (Json.optProp "elements" programs)
                              (Json.Arr []))]))
    (fun error =>
       ret (Json.Obj
              [("error", Json.Str (message error));
               ("hint", Json.Str "Degree program access requires valid authentication")])).

(** *** Dispatch (lines 749-781) *)

Definition Handler : Type := Json.Fields -> M Registry Json.t.

(** The own properties of the object literal [toolHandlers]. *)
Definition ownHandlers : list (string * Handler) :=
  [("list_enrollments", listEnrollments);
   ("get_course", getCourse);
   ("list_course_materials", listCourseMaterials);
   ("get_page_content", getPageContent);
   ("get_reading", getReading);
   ("get_lecture", getLecture);
   ("list_assignments", listAssignments);
   ("get_assignment", getAssignment);
   ("get_progress", getProgress);
   ("list_degree_programs", listDegreePrograms)].

(** [toolHandlers] is a plain object, so [toolHandlers[name]] also finds
    what [Object.prototype] provides. Called as a bare function (no
    receiver), [constructor] returns its argument, [toString] describes
    the missing receiver and the other members throw a [TypeError] (of
    which only the kind is kept here, not the wording of the engine);
    none of them reaches the upstream. *)
Definition objectPrototypeMembers : list string :=
  JS.objectPrototypeMembers.

Definition inheritedMember (member : string) : Handler :=
  fun args =>
    if String.eqb member "constructor" then ret (Json.Obj args)
    else if String.eqb member "toString"
         then ret (Json.Str "[object Undefined]")
         else typeError ("TypeError calling Object.prototype." ++ member).

Definition toolHandlers (name : string) : option Handler :=
  match JS.assoc name ownHandlers with
  | Some h => Some h
  | None =>
      if existsb (String.eqb name) objectPrototypeMembers
      then Some (inheritedMember name)
      else None
  end.

(** [JSON.stringify(value, null, indent)], kept symbolic. *)
Inductive JsonText := JSON_stringify (value : Json.t) (indent : nat).

Record ContentItem := mkItem { ci_type : string; ci_text : JsonText }.
Record ToolResponse := mkToolResponse { tr_content : list ContentItem }.

Definition formatToolResponse (result : Json.t) : ToolResponse :=
  mkToolResponse [mkItem "text" (JSON_stringify result 2)].

(** The [CallToolRequestSchema] handler; [args] is
    [request.params.arguments], [None] when the request has none. *)
Definition callTool (name : string) (args : option Json.Fields)
  : M Registry ToolResponse :=
  match toolHandlers name with
  | None => throw (Err ("Unknown tool: " ++ name))
  | Some handler =>
      let* result := handler (match args with Some a => a | None => [] end) in
      ret (formatToolResponse result)
  end.

(** [server.onclose] (lines 784-789). *)
Definition onclose : M Registry unit :=
  let* r := get in
  match browserPromise r with
  | None => ret tt
  | Some promise =>
      settle promise ;;
      callVoid EvBrowserClose (w_browserClose w)
  end.

End Server.

Definition createCourseraServer (fs : Env.FileSystem)
  : M Env.ProcessState (Config * Registry) :=
  let* cfg := getCourseraConfig fs in
  ret (cfg, freshRegistry).

(** *** What the tool table asks of an argument object

    The JSON Schema keywords the table uses ([type], [minimum], [maximum],
    [required], [additionalProperties: false]), read as a validator. The
    server code has nothing that corresponds to this definition; it states
    what [fails the tool's declared schema] means. *)




(** *** Vocabulary for the properties of the handlers *)

(** The events that never occur inside a tool invocation except through
    [getBrowser] (the launch) or [server.onclose] (the browser's close). *)
Definition pageLevel (ev : Event) : Prop :=
ev <> EvLaunch /\ ev <> EvBrowserClose.

(** An invariant that page-level events, the page counter and the one lazy
    launch cannot break. *)
Record Stable (I : Registry -> Prop) : Prop := mkStable {
  stable_emit : forall r ev, pageLevel ev -> I r ->
                  I (mkRegistry (browserPromise r) (pages r) (trace r ++ [ev]));
  stable_pages : forall r n, I r -> I (mkRegistry (browserPromise r) n (trace r));
  stable_launch : forall r p, browserPromise r = None -> I r ->
                    I (mkRegistry (Some p) (pages r) (trace r ++ [EvLaunch]))
}.

(** How many times the browser was launched, and closed. *)
Definition isLaunch (ev : Event) : bool :=
match ev with EvLaunch => true | _ => false end.

Definition isBrowserClose (ev : Event) : bool :=
match ev with EvBrowserClose => true | _ => false end.

Definition launches (r : Registry) : nat := length (List.filter isLaunch (trace r)).
Definition browserCloses (r : Registry) : nat :=
length (List.filter isBrowserClose (trace r)).

(** The browser is launched at most once, and not at all while
    [browserPromise] is still [null]. *)
Definition launchedOnce (r : Registry) : Prop :=
(launches r <= 1)%nat /\ (browserPromise r = None -> launches r = 0%nat).

(** The URL [getCourse] requests for a [course_slug] that converts to the
    text [slugText]. *)
Definition getCourseUrl (slugText : string) : string :=
COURSERA_API_BASE ++ "/onDemandCourses.v1?q=slug&slug="
++ JS.encodeURIComponent slugText
++ "&fields=id,name,slug,description,primaryLanguages,instructorIds,partnerIds,workload,photoUrl".

(** [args || {}]. *)
Definition orEmpty (args : option Json.Fields) : Json.Fields :=
match args with Some a => a | None => [] end.

(** A handler's result wrapped by [formatToolResponse]. *)
Definition respond (h : Handler) (args : option Json.Fields)
  : M Registry ToolResponse :=
let* result := h (orEmpty args) in
ret (formatToolResponse result).

(** Whether [getAssignment] accepts the outcome of probing a candidate, and
    the answer it builds from an accepted one. *)
Definition accepted (o : Result PageResult) : bool :=
match o with
| Ok result => plausible result
| Throw _ => false
end.

Definition assignmentAnswer (course_slug item_id : Json.t)
    (o : Result PageResult) : Json.t :=
match o with
| Ok result =>
    Json.Obj (Json.spread [("course_slug", course_slug); ("item_id", item_id)]
                (pageResultFields result))
| Throw _ => Json.Undefined
end.

(** [s] contains [sub] somewhere. *)
Definition contains (s sub : string) : Prop :=
exists before after, s = before ++ sub ++ after.

(** A sequence of tool invocations on one registry. *)
Definition invoke (w : World) (cfg : Config) (r : Registry)
    (c : string * option Json.Fields) : Registry :=
snd (callTool w cfg (fst c) (snd c) r).

Definition invokeAll (w : World) (cfg : Config) (r : Registry)
    (calls : list (string * option Json.Fields)) : Registry :=
fold_left (invoke w cfg) calls r.

End Coursera.

(** ** The HTTP binding: session table, middleware, routes, SIGINT *)

Module Http.
Import Eff.
Local Open Scope eff_scope.

(** *** Configuration (lines 22-38) *)

Definition parseCsv (value : option string) : option (list string) :=
  if negb (JS.truthy value) then None
  else
    let items :=
      List.filter (fun item => negb (String.eqb item EmptyString))
        (map JS.trim (JS.split ","%char (JS.text value))) in
    if (0 <? length items)%nat then Some items else None.

Definition isDigit (c : ascii) : bool :=
  let n := N_of_ascii c in ((48 <=? n) && (n <=? 57))%N.

Fixpoint digitsValue (acc : Z) (s : string) : Z :=
  match s with
  | String c s' =>
      if isDigit c
      then digitsValue (10 * acc + Z.of_N (N_of_ascii c) - 48) s'
      else acc
  | EmptyString => acc
  end.

(** [Number.parseInt(s, 10)], [None] for [NaN]; exact while the value is
    below 2^53. *)
Definition parseInt10 (s : string) : option Z :=
  let t := JS.trimStart s in
  let '(sign, rest) :=
    match t with
    | String "-"%char r => ((-1)%Z, r)
    | String "+"%char r => (1%Z, r)
    | _ => (1%Z, t)
    end in
  if (0 <? JS.span_len isDigit rest)%nat
  then Some (sign * digitsValue 0 rest)%Z
  else None.

Record HttpConfig := mkHttpConfig {
  host : string;
  port : Z;
  apiKey : option string;
  allowedHosts : option (list string)
}.

Definition loadHttpConfig (e : gmap string string) : HttpConfig :=
  mkHttpConfig
    (match e !! "MCP_HTTP_HOST" with Some h => h | None => "127.0.0.1" end)
    (match parseInt10 (match e !! "MCP_HTTP_PORT" with
                       | Some p => p
                       | None => EmptyString
                       end) with
     | Some portValue => portValue
     | None => 3334%Z
     end)
    (e !! "MCP_API_KEY")
    (parseCsv (e !! "MCP_ALLOWED_HOSTS")).

(** *** Requests and responses *)

(** A header of [req.headers]: one string, or an array of strings. *)
Inductive HeaderValue :=
| One (v : string)
| Many (vs : list string).

Record Request := mkRequest {
  method : string;
  path : string;
  headers : list (string * HeaderValue);   (* lower-cased names *)
  body : Json.t                            (* [req.body], parsed *)
}.

Record Response := mkHttpResponse {
  status : Z;
  payload : Json.t
}.

Definition header (name : string) (req : Request) : option HeaderValue :=
  JS.assoc name (headers req).

(** Lines 46-49; [None] is [undefined]. *)
Definition getFirstHeaderValue (value : option HeaderValue) : option string :=
  match value with
  | Some (Many vs) => List.head vs
  | Some (One v) => Some v
  | None => None
  end.

Definition lastChar (s : string) : string :=
  JS.drop (String.length s - 1) s.

(** [authHeader.match(/^Bearer\s+(.+)$/i)]: the first group, if the
    header matches. After the keyword comes a run of white space; the
    group is the rest of the header when that is non-empty and free of
    line terminators, and the last white-space character when the run
    reaches the end of the header. *)
Definition matchBearer (s : string) : option string :=
  if String.eqb (JS.toLowerAscii (JS.take 6 s)) "bearer"
  then
    let rest := JS.drop 6 s in
    let k := JS.span_len JS.is_ws rest in
    let tail := JS.drop k rest in
    let noTerminator := JS.all_chars (fun c => negb (JS.is_line_terminator c)) in
    if (k =? 0)%nat then None
    else if negb (String.eqb tail EmptyString)
         then (if noTerminator tail then Some tail else None)
         else if (2 <=? k)%nat && noTerminator (lastChar rest)
              then Some (lastChar rest)
              else None
  else None.

(** Lines 51-62; [None] is [null]. *)
Definition extractApiKey (req : Request) : option string :=
  match getFirstHeaderValue (header "authorization" req) with
  | Some authHeader =>
      Some (JS.trim (match matchBearer authHeader with
                     | Some group => group
                     | None => authHeader
                     end))
  | None =>
      match getFirstHeaderValue (header "x-api-key" req) with
      | Some headerKey => Some (JS.trim headerKey)
      | None => None
      end
  end.

(** The document [respondJsonRpcError] sends (lines 64-73). *)
Definition jsonRpcError (status code : Z) (message : string) : Response :=
  mkHttpResponse status
    (Json.Obj [("jsonrpc", Json.Str "2.0");
               ("error", Json.Obj [("code", Json.Num code);
                                   ("message", Json.Str message)]);
               ("id", Json.Null)]).

Definition healthDocument : Response :=
  mkHttpResponse 200
    (Json.Obj [("status", Json.Str "ok"); ("service", Json.Str "coursera-mcp")]).

(** The middleware of lines 77-84, for a configured key [key]:
    [Some] is the response it sends, [None] is [next()]. *)
Definition apiKeyMiddleware (key : string) (req : Request) : option Response :=
  let provided := extractApiKey req in
  if negb (JS.truthy provided)
     || negb (String.eqb (JS.text provided) key)
  then Some (jsonRpcError 401 (-32000) "Unauthorized")
  else None.

(** *** The session table *)

(** A transport object: its identity, whether it is an instance of
    [StreamableHTTPServerTransport], and the server its constructor's
    [onsessioninitialized] closure captured. *)
Record Transport := mkTransport {
  t_id : nat;
  t_streamable : bool;
  t_server : nat
}.

Record Session := mkSession {
  transport : Transport;
  server : nat
}.

(** A JavaScript [Map] with string keys: entries in insertion order. *)
Definition SessionMap := list (string * Session).

Fixpoint mapGet (k : string) (m : SessionMap) : option Session :=
  match m with
  | [] => None
  | (k', v) :: m' => if String.eqb k k' then Some v else mapGet k m'
  end.

Fixpoint mapSet (k : string) (v : Session) (m : SessionMap) : SessionMap :=
  match m with
  | [] => [(k, v)]
  | (k', v') :: m' =>
      if String.eqb k k' then (k', v) :: m' else (k', v') :: mapSet k v m'
  end.

Definition mapDelete (k : string) (m : SessionMap) : SessionMap :=
  List.filter (fun kv => negb (String.eqb k (fst kv))) m.

Definition mapKeys (m : SessionMap) : list string := map fst m.

(** *** The SDK and the process around the code *)

Inductive Event :=
| EvCreateServer (s : nat)
| EvConnect (s t : nat)
| EvHandleRequest (t : nat)
| EvTransportClose (t : nat)
| EvServerClose (s : nat)
| EvConsole (line : string)
| EvHttpServerClose
| EvExit (code : Z)
| EvUnhandledRejection (e : JsError).   (* a rejected promise nobody handles *)

(** What [transport.handleRequest] does with the callbacks the code
    registered: answer; initialise the session (it generates the id with
    [sessionIdGenerator] and calls [onsessioninitialized]); close the
    transport (which calls [onclose]); or throw, with or without the
    response headers sent. *)
Inductive SdkAction :=
| SdkRespond (r : Response)
| SdkInitialize (sid : string) (r : Response)
| SdkClose (r : Response)
| SdkThrow (e : JsError) (sent : option Response).

Record CloseOutcome := mkClose {
  close_error : option JsError;    (* the rejection of [close()], if any *)
  close_fires_onclose : bool       (* whether [onclose] was called *)
}.

(** The SDK and the HTTP server, as oracles indexed by the time of the
    call. [sdk_serverOnclose] says whether the close call made at that time
    runs the [server.onclose] that [createCourseraServer] installed, and if
    so for which upstream and in which state the closure of that server is
    (what the tool calls dispatched to it have left). [sdk_httpClosed] says
    whether [httpServer.close] gets to call its callback. *)
Record Sdk := mkSdk {
  sdk_middleware : Request -> option Response;   (* of [createMcpExpressApp] *)
  sdk_isInitializeRequest : Json.t -> bool;
  sdk_connect : nat -> option JsError;
  sdk_handleRequest : nat -> Request -> SdkAction;
  sdk_transportClose : nat -> CloseOutcome;
  sdk_serverClose : nat -> option JsError;
  sdk_serverOnclose : nat -> option (Coursera.World * Coursera.Registry);
  sdk_httpClosed : nat -> bool
}.

(** The mutable state of the module: the [sessions] map, [process.env]
    with the loader flag, the next fresh object identity, the log of
    calls into the SDK and the process (oldest first), and the response
    object of the request being handled ([None] while nothing is sent). *)
Record State := mkState {
  sessions : SessionMap;
  proc : Env.ProcessState;
  nextId : nat;
  log : list Event;
  res : option Response
}.

Definition now : M State nat := fun s => (Ok (length (log s)), s).

Definition emit (ev : Event) : M State unit :=
  modify (fun s => mkState (sessions s) (proc s) (nextId s) (log s ++ [ev]) (res s)).

Definition setSessions (f : SessionMap -> SessionMap) : M State unit :=
  modify (fun s => mkState (f (sessions s)) (proc s) (nextId s) (log s) (res s)).

Definition send (r : Response) : M State unit :=
  modify (fun s => mkState (sessions s) (proc s) (nextId s) (log s) (Some r)).

Definition fresh : M State nat :=
  let* s := get in
  modify (fun s => mkState (sessions s) (proc s) (S (nextId s)) (log s) (res s)) ;;
  ret (nextId s).

Definition respondJsonRpcError (status code : Z) (message : string)
  : M State unit :=
  send (jsonRpcError status code message).

Section App.
Variable sdk : Sdk.
Variable fs : Env.FileSystem.

(** Lines 89-91. *)
Definition storeSession (sessionId : string) (t : Transport) (s : nat)
  : M State unit :=
  setSessions (mapSet sessionId (mkSession t s)).

(** The [server.onclose] of coursera-server.js (lines 784-789) as the SDK
    runs it inside the close call made at [time]: the SDK calls the
    function and drops the promise it returns, so no [try] of this module
    sees its rejection, which is left unhandled. *)
Definition serverOnclose (time : nat) : M State unit :=
  match sdk_serverOnclose sdk time with
  | Some (w, registry) =>
      match fst (Coursera.onclose w registry) with
      | Throw e => emit (EvUnhandledRejection e)
      | Ok _ => ret tt
      end
  | None => ret tt
  end.

(** Lines 93-103. *)
Definition cleanupSession (sessionId : string) : M State unit :=
  let* st := get in
  let session := mapGet sessionId (sessions st) in
  setSessions (mapDelete sessionId) ;;
  match session with
  | Some s =>
      tryCatch
        (let* t := now in
         emit (EvServerClose (server s)) ;;
         serverOnclose t ;;
         settle (voidResult (sdk_serverClose sdk t)))
        (fun _ => ret tt)
  | None => ret tt
  end.

(** The [transport.onclose] callback of lines 165-170, for a transport
    whose [sessionId] is [sid]: [cleanupSession(sid).catch(() => {})]. *)
Definition transportOnClose (sid : option string) : M State unit :=
  match sid with
  | Some id =>
      if negb (String.eqb id EmptyString)
      then tryCatch (cleanupSession id) (fun _ => ret tt)
      else ret tt
  | None => ret tt
  end.

(** [transport.close()] on the transport whose [sessionId] is [sid]. When
    the transport calls its [onclose], that is the callback of lines
    165-170 followed by the protocol layer's own, which is where the
    server's [onclose] runs. *)
Definition closeTransport (t : Transport) (sid : option string)
  : M State unit :=
  let* time := now in
  emit (EvTransportClose (t_id t)) ;;
  let outcome := sdk_transportClose sdk time in
  (if close_fires_onclose outcome
   then transportOnClose sid ;; serverOnclose time
   else ret tt) ;;
  settle (voidResult (close_error outcome)).

(** Lines 105-115. The transport stored under [sessionId] is the one the
    SDK initialised with that id, so that is its [sessionId]. *)
Definition shutdownSession (sessionId : string) : M State unit :=
  let* st := get in
  match mapGet sessionId (sessions st) with
  | Some s =>
      tryCatch (closeTransport (transport s) (Some sessionId))
        (fun _ => ret tt)
  | None => ret tt
  end ;;
  cleanupSession sessionId.

(** Lines 117-121. *)
Definition hasInitializeRequest (b : Json.t) : bool :=
  if negb (Json.truthy b) then false
  else if sdk_isInitializeRequest sdk b then true
       else match b with
            | Json.Arr entries => existsb (sdk_isInitializeRequest sdk) entries
            | _ => false
            end.

Definition liftProc {A} (m : M Env.ProcessState A) : M State A :=
  fun s =>
    match m (proc s) with
    | (r, p) => (r, mkState (sessions s) p (nextId s) (log s) (res s))
    end.

(** Lines 123-173; [None] is the [null] the rejections return. *)
Definition getStreamableTransport (req : Request)
  : M State (option Transport) :=
  let sessionId := getFirstHeaderValue (header "mcp-session-id" req) in
  if JS.truthy sessionId
  then
    let* st := get in
    match mapGet (JS.text sessionId) (sessions st) with
    | None =>
        respondJsonRpcError 400 (-32000)
          "Bad Request: No valid session ID provided" ;;
        ret None
    | Some session =>
        if negb (t_streamable (transport session))
        then
          respondJsonRpcError 400 (-32000)
            "Bad Request: Session exists but uses a different transport protocol" ;;
          ret None
        else ret (Some (transport session))
    end
  else if negb (String.eqb (method req) "POST")
          || negb (hasInitializeRequest (body req))
       then
         respondJsonRpcError 400 (-32000)
           "Bad Request: No valid session ID provided" ;;
         ret None
       else
         liftProc (Coursera.createCourseraServer fs) ;;
         let* s := fresh in
         emit (EvCreateServer s) ;;
         let* t := fresh in
         let transport := mkTransport t true s in
         let* time := now in
         emit (EvConnect s t) ;;
         settle (voidResult (sdk_connect sdk time)) ;;
         ret (Some transport).

(** [transport.handleRequest(req, res, req.body)] on the transport
    whose [sessionId] is [sid] when the call starts. *)
Definition handleRequest (t : Transport) (sid : option string) (req : Request)
  : M State unit :=
  let* time := now in
  emit (EvHandleRequest (t_id t)) ;;
  match sdk_handleRequest sdk time req with
  | SdkRespond r => send r
  | SdkInitialize newId r => storeSession newId t (t_server t) ;; send r
  | SdkClose r => send r ;; closeTransport t sid
  | SdkThrow e sent =>
      match sent with Some r => send r | None => ret tt end ;;
      throw e
  end.

(** Lines 176-187. *)
Definition mcpRoute (req : Request) : M State unit :=
  tryCatch
    (let* found := getStreamableTransport req in
     match found with
     | None => ret tt
     | Some t =>
         let sessionId := getFirstHeaderValue (header "mcp-session-id" req) in
         handleRequest t (if JS.truthy sessionId then sessionId else None) req
     end)
    (fun error =>
       emit (EvConsole ("Error handling /mcp request: " ++ message error)) ;;
       let* st := get in
       match res st with
       | None => respondJsonRpcError 500 (-32603) "Internal server error"
       | Some _ => ret tt
       end).

(** Lines 190-192. *)
Definition healthRoute : M State unit := send healthDocument.

Definition notFound : Response :=
  mkHttpResponse 404 Json.Undefined.

(** Whether a request path matches the path of a route: the router
    compares without regard to letter case and accepts one trailing
    slash. *)
Definition routeMatches (route p : string) : bool :=
  let q := JS.toLowerAscii p in
  String.eqb q route || String.eqb q (route ++ "/").

(** The application: the SDK's own middleware, then the API key
    middleware when a key is configured, then the routes in the order
    they are registered. *)
Definition app (cfg : HttpConfig) (req : Request) : M State unit :=
  match sdk_middleware sdk req with
  | Some r => send r
  | None =>
      match (if JS.truthy (apiKey cfg)
             then apiKeyMiddleware (JS.text (apiKey cfg)) req
             else None) with
      | Some r => send r
      | None =>
          if routeMatches "/mcp" (path req) then mcpRoute req
          else if (String.eqb (method req) "GET"
                   || String.eqb (method req) "HEAD")
                  && routeMatches "/health" (path req)
               then healthRoute
               else send notFound
      end
  end.

(** One request, from a clean response object to what was sent. *)
Definition serve (cfg : HttpConfig) (req : Request) (st : State)
  : option Response * State :=
  let st0 := mkState (sessions st) (proc st) (nextId st) (log st) None in
  let st1 := snd (app cfg req st0) in
  (res st1, st1).

Fixpoint forEach {A} (f : A -> M State unit) (l : list A) : M State unit :=
  match l with
  | [] => ret tt
  | x :: l' => f x ;; forEach f l'
  end.

(** Lines 212-221: [process.exit(0)] is the callback of
    [httpServer.close]. *)
Definition onSigint : M State unit :=
  emit (EvConsole "Shutting down...") ;;
  let* st := get in
  let sessionIds := mapKeys (sessions st) in
  forEach shutdownSession sessionIds ;;
  let* time := now in
  emit EvHttpServerClose ;;
  if sdk_httpClosed sdk time then emit (EvExit 0) else ret tt.

End App.

(** *** Vocabulary for the properties of the dispatcher *)

(** What the [server.onclose] run inside the close call made at [time]
    leaves in the log: its rejection, if it runs and rejects. *)
Definition rejection (sdk : Sdk) (time : nat) : list Event :=
match sdk_serverOnclose sdk time with
| Some (w, registry) =>
    match fst (Coursera.onclose w registry) with
    | Throw e => [EvUnhandledRejection e]
    | Ok _ => []
    end
| None => []
end.

(** What a teardown that starts at [time] appends to the log: the attempts
    to close the transport and the server of the entry, if there is one,
    and the rejections they leave unhandled. *)
Definition cleanupEvents (sdk : Sdk) (time : nat) (m : SessionMap)
    (sid : string) : list Event :=
match mapGet sid m with
| Some s => EvServerClose (server s) :: rejection sdk time
| None => []
end.

Definition shutdownEvents (sdk : Sdk) (time : nat) (m : SessionMap)
    (sid : string) : list Event :=
match mapGet sid m with
| Some s =>
    EvTransportClose (t_id (transport s))
    :: (if close_fires_onclose (sdk_transportClose sdk time)
        then
          if negb (String.eqb sid EmptyString)
          then cleanupEvents sdk (S time) m sid ++ rejection sdk time
          else rejection sdk time
               ++ cleanupEvents sdk (S time + length (rejection sdk time)) m sid
        else cleanupEvents sdk (S time) m sid)
| None => []
end.

(** The log of [shutdownSession] over a list of identifiers. *)
Fixpoint shutdownAllEvents (sdk : Sdk) (time : nat) (m : SessionMap)
    (ids : list string) : list Event :=
match ids with
| [] => []
| k :: ids' =>
    let evs := shutdownEvents sdk time m k in
    evs ++ shutdownAllEvents sdk (time + length evs) (mapDelete k m) ids'
end.

(** The session identifier a request carries: the first value of its
    [mcp-session-id] header when that is a non-empty string (the test
    [if (sessionId)] of line 125). *)
Definition carriesSession (req : Request) (sid : string) : Prop :=
getFirstHeaderValue (header "mcp-session-id" req) = Some sid
/\ sid <> EmptyString.

Definition carriesNoSession (req : Request) : Prop :=
JS.truthy (getFirstHeaderValue (header "mcp-session-id" req)) = false.

(** The requests the claims say are rejected, with the message of the
    rejection. *)
Inductive Rejected (sdk : Sdk) (st : State) (req : Request) : string -> Prop :=
| UnknownSession sid :
    carriesSession req sid ->
    mapGet sid (sessions st) = None ->
    Rejected sdk st req "Bad Request: No valid session ID provided"
| NoSessionNoInitialize :
    carriesNoSession req ->
    hasInitializeRequest sdk (body req) = false ->
    Rejected sdk st req "Bad Request: No valid session ID provided"
| TransportMismatch sid session :
    carriesSession req sid ->
    mapGet sid (sessions st) = Some session ->
    t_streamable (transport session) = false ->
    Rejected sdk st req
      "Bad Request: Session exists but uses a different transport protocol".

(** The answer of the API key middleware to a request it stops. *)
Definition unauthorized : Response := jsonRpcError 401 (-32000) "Unauthorized".

(** The state after a response [r] was sent and nothing else happened. *)
Definition answered (st : State) (r : Response) : State :=
mkState (sessions st) (proc st) (nextId st) (log st) (Some r).

(** What can happen to a running server: a request, or the teardown of a
    session by either of the two functions. *)
Inductive Action :=
| Serve (cfg : HttpConfig) (req : Request)
| Cleanup (sid : string)
| Shutdown (sid : string).

Definition step (sdk : Sdk) (fs : Env.FileSystem) (st : State) (a : Action)
  : State :=
match a with
| Serve cfg req => snd (serve sdk fs cfg req st)
| Cleanup sid => snd (cleanupSession sdk sid st)
| Shutdown sid => snd (shutdownSession sdk sid st)
end.

Definition run (sdk : Sdk) (fs : Env.FileSystem) (st : State)
    (actions : list Action) : State :=
fold_left (step sdk fs) actions st.

(** No session is stored under [sid]. *)
Definition unknownIn (sid : string) (st : State) : Prop :=
mapGet sid (sessions st) = None.

(** The two teardown functions under one name. *)
Definition teardown (sdk : Sdk) (viaShutdown : bool) (sid : string)
  : M State unit :=
if viaShutdown then shutdownSession sdk sid else cleanupSession sdk sid.

(** *** Start-up (lines 7-20 and 194-198) *)

Inductive Process :=
| Exited (code : Z)
| Listening (cfg : HttpConfig) (st : State).

Definition start (fs : Env.FileSystem) (p : Env.ProcessState)
    (listenError : option JsError) : Process :=
  match Coursera.getCourseraConfig fs p with
  | (Throw _, _) => Exited 1
  | (Ok _, p') =>
      match listenError with
      | Some _ => Exited 1
      | None => Listening (loadHttpConfig (Env.env p')) (mkState [] p' 0 [] None)
      end
  end.

End Http.

(** ** The standard-input/output binding *)

Module Stdio.
Import Eff.

Inductive Process :=
| Exited (code : Z)
| Serving (cfg : Coursera.Config) (registry : Coursera.Registry).

(** [main().catch(...)]: any failure of [main] ends the process with
    code 1. *)
Definition start (fs : Env.FileSystem) (p : Env.ProcessState)
    (connectError : option JsError) : Process :=
  match Coursera.createCourseraServer fs p with
  | (Throw _, _) => Exited 1
  | (Ok (cfg, registry), _) =>
      match connectError with
      | Some _ => Exited 1
      | None => Serving cfg registry
      end
  end.

End Stdio.

(** ** Sample inputs *)

Module Samples.
Import Eff.

(** An upstream in which every call succeeds and every page is short. *)
Definition calmWorld : Coursera.World :=
Coursera.mkWorld
  (fun _ => Ok (Coursera.mkResponse true 200 "{}" (Some "application/json")
                  (Ok (Json.Obj [("elements", Json.Arr [])]))))
  (fun _ => Ok tt) (fun _ => None) (fun _ => None) (fun _ => None)
  (fun _ => None) (fun _ => None) (fun _ => None)
  (fun _ => Ok (Coursera.mkContent "<p>x</p>" "x" "main"))
  (fun _ => Ok (Json.Obj [])) (fun _ => Ok "T") (fun _ => "u")
  (fun _ => None) (fun _ => None).

(** The same upstream, except that the browser refuses the cookies:
    [page.setCookie] rejects. *)
Definition setupFailsWorld : Coursera.World :=
Coursera.mkWorld
  (Coursera.w_fetch calmWorld) (Coursera.w_launch calmWorld)
  (Coursera.w_newPage calmWorld)
  (fun _ => Some (Err "Protocol error (Network.setCookies): Invalid cookie fields"))
  (Coursera.w_setUserAgent calmWorld)
  (Coursera.w_setViewport calmWorld) (Coursera.w_goto calmWorld)
  (Coursera.w_waitForSelector calmWorld) (Coursera.w_evaluateContent calmWorld)
  (Coursera.w_evaluate calmWorld) (Coursera.w_title calmWorld)
  (Coursera.w_pageUrl calmWorld) (Coursera.w_pageClose calmWorld)
  (Coursera.w_browserClose calmWorld).

(** The configuration [getCourseraConfig] builds from
    [COURSERA_COOKIES=CAUTH=abc; bad name=1]. *)
Definition oddCookieConfig : Coursera.Config :=
Coursera.mkConfig "CAUTH=abc; bad name=1" (Some "abc").

Definition tokenConfig : Coursera.Config :=
Coursera.mkConfig "CAUTH=abc" (Some "abc").

(** An SDK whose middleware lets every request through and whose calls all
    succeed. *)
Definition passSdk : Http.Sdk :=
Http.mkSdk (fun _ => None) (fun _ => false) (fun _ => None)
  (fun _ _ => Http.SdkRespond (Http.mkHttpResponse 200 Json.Null))
  (fun _ => Http.mkClose None true) (fun _ => None)
  (fun _ => None) (fun _ => true).

(** An SDK in which closing a transport or a server always fails. *)
Definition failingCloseSdk : Http.Sdk :=
Http.mkSdk (fun _ => None) (fun _ => false) (fun _ => None)
  (fun _ _ => Http.SdkRespond (Http.mkHttpResponse 200 Json.Null))
  (fun _ => Http.mkClose (Some (Err "close failed")) false)
  (fun _ => Some (Err "close failed"))
  (fun _ => None) (fun _ => true).

Definition noFiles : Env.FileSystem := Env.mkFS None None.

Definition emptyState : Http.State :=
Http.mkState [] (Env.mkProcess true ∅) 0 [] None.

(** Two live sessions. *)
Definition twoSessions : Http.State :=
Http.mkState
  [("s1", Http.mkSession (Http.mkTransport 1 true 0) 0);
   ("s2", Http.mkSession (Http.mkTransport 3 true 2) 2)]
  (Env.mkProcess true ∅) 4 [] None.

Definition keyedConfig : Http.HttpConfig :=
Http.mkHttpConfig "127.0.0.1" 3334 (Some "secret") None.

Definition openConfig : Http.HttpConfig :=
Http.mkHttpConfig "127.0.0.1" 3334 None None.

Definition healthCheck : Http.Request :=
Http.mkRequest "GET" "/health" [] Json.Undefined.

Definition requestFor (sid : string) : Http.Request :=
Http.mkRequest "POST" "/mcp" [("mcp-session-id", Http.One sid)] (Json.Obj []).

End Samples.

(** ** Further vocabulary *)

Module Notions.

(** Strings made of white space only, and strings with no white space at
    either end: what [trim] removes and what it leaves. *)
Definition blank (s : string) : bool := JS.all_chars JS.is_ws s.

Definition noLeadingSpace (s : string) : bool :=
match s with
| String c _ => negb (JS.is_ws c)
| EmptyString => true
end.

Definition tight (s : string) : bool :=
noLeadingSpace s && noLeadingSpace (String.rev s).

(** A string without the character [c]. *)
Definition free (c : ascii) (s : string) : bool :=
JS.all_chars (fun x => negb (Ascii.eqb x c)) s.

(** The lines [loadEnv] reads, in the order it reads them: those of
    [.env.local], then those of [.env]. *)
Definition fileLines (fs : Env.FileSystem) : list string :=
flat_map (fun file => match file with
                      | Some content => JS.split "010"%char content
                      | None => []
                      end) (Env.envFiles fs).

(** The values the lines assign to [key], in order. *)
Definition assignments (key : string) (lines : list string) : list string :=
flat_map (fun line => match Env.parseLine line with
                      | Some (k, v) => if String.eqb key k then [v] else []
                      | None => []
                      end) lines.

Definition nonEmpty (s : string) : bool := negb (String.eqb s EmptyString).

(** An invariant of a registry that the events satisfying [ok] cannot
    break, nor the page counter, nor the stored browser promise. *)
Record Closed (ok : Coursera.Event -> Prop) (I : Coursera.Registry -> Prop)
  : Prop := mkClosed {
  closed_emit : forall r ev, ok ev -> I r ->
    I (Coursera.mkRegistry (Coursera.browserPromise r) (Coursera.pages r)
         (Coursera.trace r ++ [ev]));
  closed_pages : forall r n, I r ->
    I (Coursera.mkRegistry (Coursera.browserPromise r) n (Coursera.trace r));
  closed_promise : forall r p, I r ->
    I (Coursera.mkRegistry p (Coursera.pages r) (Coursera.trace r))
}.

(** [r] has the events of [r0] followed by events that all satisfy [P]. *)
Definition extends (P : Coursera.Event -> Prop) (r0 r : Coursera.Registry)
  : Prop :=
exists evs, Coursera.trace r = (Coursera.trace r0 ++ evs)%list /\ Forall P evs.

(** An API request that carries the Cookie header [cookie]. *)
Definition requestWith (cookie : string) (ev : Coursera.Event) : Prop :=
exists url, ev = Coursera.EvFetch url cookie.

(** A navigation is confined when it goes to a URL under
    [https://www.coursera.org/learn/]; other events are not restricted. *)
Definition confined (ev : Coursera.Event) : Prop :=
match ev with
| Coursera.EvGoto _ url =>
    exists rest, url = Json.Str ("https://www.coursera.org/learn/" ++ rest)
| _ => True
end.

(** Pages opened and attempts to close a page. *)
Definition isNewPage (ev : Coursera.Event) : bool :=
match ev with Coursera.EvNewPage _ => true | _ => false end.

Definition isPageClose (ev : Coursera.Event) : bool :=
match ev with Coursera.EvPageClose _ => true | _ => false end.

Definition opens (r : Coursera.Registry) : nat :=
length (List.filter isNewPage (Coursera.trace r)).

Definition closes (r : Coursera.Registry) : nat :=
length (List.filter isPageClose (Coursera.trace r)).

(** The events that neither open nor close a page. *)
Definition neutral (ev : Coursera.Event) : Prop :=
isNewPage ev = false /\ isPageClose ev = false.

(** The set-up of a page ([setCookie], [setUserAgent], [setViewport])
    never rejects. *)
Definition setupNeverFails (w : Coursera.World) : Prop :=
(forall t, Coursera.w_setCookie w t = None)
/\ (forall t, Coursera.w_setUserAgent w t = None)
/\ (forall t, Coursera.w_setViewport w t = None).

(** The first request of [listEnrollments], for a limit that converts to
    the text [limitText], and the first request of [listDegreePrograms]. *)
Definition membershipsUrl (limitText : string) : string :=
Coursera.COURSERA_API_BASE
++ "/memberships.v1?q=me&includes=programs,courses&limit="
++ limitText.

(** [args.limit || DEFAULT_PER_PAGE]. *)
Definition limitOf (args : Json.Fields) : Json.t :=
Json.or (Json.lookup "limit" args) (Json.Num Coursera.DEFAULT_PER_PAGE).

(** The API request made in state [r] fails, whatever it asks for: the
    network fails, the upstream answers with an error status, or its JSON
    does not parse. *)
Definition requestFails (w : Coursera.World) (cfg : Coursera.Config)
    (r : Coursera.Registry) : Prop :=
forall url, exists e, fst (Coursera.courseraFetch w cfg url r) = Eff.Throw e.

(** What [listEnrollments] answers when it learnt nothing. *)
Definition emptyEnrollments : Json.t :=
Json.Obj [("memberships", Json.Arr []);
          ("programs", Json.Arr []);
          ("courses", Json.Arr []);
          ("user_id", Json.Undefined)].

Definition degreeMembershipsUrl : string :=
Coursera.COURSERA_API_BASE ++ "/memberships.v1?q=me&limit=100".

(** The characters [encodeURIComponent] can produce. *)
Definition uriSafe (c : ascii) : bool :=
JS.uriUnreserved c || Ascii.eqb c "%".

(** [opens r + a = closes r + b]: with [a] and [b] fixed, the number of
    pages open does not change. *)
Definition balance (a b : nat) (r : Coursera.Registry) : Prop :=
opens r + a = closes r + b.

(** A URL under [https://www.coursera.org/learn/]. *)
Definition courseUrl (url : string) : Prop :=
exists rest, url = "https://www.coursera.org/learn/" ++ rest.

(** [a.url] of an item of [list_assignments], and the relation between
    two items whose URLs the [Map] of the handler tells apart. *)
Definition urlOf (a : Json.t) : Json.t := Json.optProp "url" a.

Definition otherUrl (a b : Json.t) : Prop :=
Json.sameValueZero (urlOf a) (urlOf b) = false.

(** The entries of the [Map]: each key is the URL of its value, and no
    two keys are the same. *)
Definition keyed (m : list (Json.t * Json.t)) : Prop :=
Forall (fun kv => fst kv = urlOf (snd kv)) m.

Definition apart (k k' : Json.t) : Prop := Json.sameValueZero k k' = false.

(** Every item put into the [Map] is there, or an item with the same URL
    is. *)
Definition covered (m : list (Json.t * Json.t)) (a : Json.t) : Prop :=
exists kv, In kv m
           /\ (snd kv = a \/ Json.sameValueZero (urlOf a) (fst kv) = true).

(** The response of the catch-all of the protocol endpoint. *)
Definition internalError : Http.Response :=
Http.jsonRpcError 500 (-32603) "Internal server error".

Definition noValidSession : Http.Response :=
Http.jsonRpcError 400 (-32000) "Bad Request: No valid session ID provided".

(** A request that reaches the protocol endpoint: the middleware of the
    SDK and the API key check let it through, and its path is [/mcp]. *)
Definition reachesMcp (sdk : Http.Sdk) (cfg : Http.HttpConfig)
    (req : Http.Request) : Prop :=
Http.sdk_middleware sdk req = None
/\ (if JS.truthy (Http.apiKey cfg)
    then Http.apiKeyMiddleware (JS.text (Http.apiKey cfg)) req
    else None) = None
/\ Http.path req = "/mcp".

(** A request that asks for a new session: a POST without a session
    identifier whose body holds an initialization message. *)
Definition asksForSession (sdk : Http.Sdk) (req : Http.Request) : Prop :=
Http.carriesNoSession req
/\ Http.method req = "POST"
/\ Http.hasInitializeRequest sdk (Http.body req) = true.

(** The state in which a request starts: nothing has been sent yet. *)
Definition unanswered (st : Http.State) : Http.State :=
Http.mkState (Http.sessions st) (Http.proc st) (Http.nextId st) (Http.log st)
  None.

(** A string without line terminators: what the [.] of a regular
    expression can match. *)
Definition oneLine (s : string) : bool :=
JS.all_chars (fun c => negb (JS.is_line_terminator c)) s.

(** The ways a request can present the API key [key]: as a bearer token
    (the keyword in any letter case, then white space), as the whole
    [Authorization] header, or in the [x-api-key] header when there is no
    [Authorization] header; white space around the key does not count. *)
Inductive Presents (key : string) (req : Http.Request) : Prop :=
| AsBearer (kw sp b : string) :
    JS.toLowerAscii kw = "bearer" ->
    blank sp = true -> sp <> "" -> blank b = true -> oneLine (key ++ b) = true ->
    Http.getFirstHeaderValue (Http.header "authorization" req)
      = Some (kw ++ sp ++ key ++ b) ->
    Presents key req
| AsAuthorization (a b : string) :
    blank a = true -> blank b = true ->
    Http.matchBearer (a ++ key ++ b) = None ->
    Http.getFirstHeaderValue (Http.header "authorization" req)
      = Some (a ++ key ++ b) ->
    Presents key req
| AsHeader (a b : string) :
    blank a = true -> blank b = true ->
    Http.getFirstHeaderValue (Http.header "authorization" req) = None ->
    Http.getFirstHeaderValue (Http.header "x-api-key" req)
      = Some (a ++ key ++ b) ->
    Presents key req.

(** An entry of a comma-separated list as [parseCsv] returns it. *)
Definition csvEntry (x : string) : Prop :=
x <> "" /\ tight x = true /\ free "," x = true.

(** The world [w] with another oracle for [page.waitForSelector]. *)
Definition withSelectorOracle (w : Coursera.World)
    (answer : nat -> option Eff.JsError) : Coursera.World :=
Coursera.mkWorld (Coursera.w_fetch w) (Coursera.w_launch w)
  (Coursera.w_newPage w) (Coursera.w_setCookie w) (Coursera.w_setUserAgent w)
  (Coursera.w_setViewport w) (Coursera.w_goto w) answer
  (Coursera.w_evaluateContent w) (Coursera.w_evaluate w) (Coursera.w_title w)
  (Coursera.w_pageUrl w) (Coursera.w_pageClose w) (Coursera.w_browserClose w).

(** The addresses a trace navigates to, in order, and the events that
    navigate nowhere. *)
Definition visited (ev : Coursera.Event) : list Json.t :=
match ev with
| Coursera.EvGoto _ url => [url]
| _ => []
end.

Definition navigations (evs : list Coursera.Event) : list Json.t :=
flat_map visited evs.

Definition quiet (ev : Coursera.Event) : Prop := visited ev = [].

(** What C9 says of [get_assignment], for a course, an item and an item
    name that read [c], [i] and [n]: probe the quiz address, then the exam
    address, then the assignment address, each on the state the probe
    before it left; answer with the first accepted page and probe no
    further; fail with [Could not find assignment] when none is accepted. *)
Definition firstAccepted (w : Coursera.World) (cfg : Coursera.Config)
    (course_slug item_id : Json.t) (c i n : string) (r : Coursera.Registry)
  : Eff.Result Json.t * Coursera.Registry :=
let probe kind := Coursera.fetchPageContent w cfg
                    (Json.Str (Coursera.itemUrl kind c i n)) in
let quiz := probe "quiz" r in
let exam := probe "exam" (snd quiz) in
let assignment := probe "assignment" (snd exam) in
if Coursera.accepted (fst quiz)
then (Eff.Ok (Coursera.assignmentAnswer course_slug item_id (fst quiz)), snd quiz)
else if Coursera.accepted (fst exam)
     then (Eff.Ok (Coursera.assignmentAnswer course_slug item_id (fst exam)),
           snd exam)
     else if Coursera.accepted (fst assignment)
          then (Eff.Ok (Coursera.assignmentAnswer course_slug item_id
                          (fst assignment)),
                snd assignment)
          else (Eff.Throw
                  (Eff.Err ("Could not find assignment " ++ i
                            ++ " in course " ++ c)),
                snd assignment).

(** The addresses [get_assignment] navigates to, in order: that of each
    candidate it probes whose page could be set up. It probes the quiz
    address, and goes on to the next candidate as long as the probe is not
    accepted. *)
Definition reached (w : Coursera.World) (cfg : Coursera.Config)
    (c i n : string) (r : Coursera.Registry) : list Json.t :=
let probe kind := Coursera.fetchPageContent w cfg
                    (Json.Str (Coursera.itemUrl kind c i n)) in
let goes kind r0 :=
  match fst (Coursera.createAuthenticatedPage w cfg r0) with
  | Eff.Ok _ => [Json.Str (Coursera.itemUrl kind c i n)]
  | Eff.Throw _ => []
  end in
let quiz := probe "quiz" r in
let exam := probe "exam" (snd quiz) in
(goes "quiz" r
 ++ if Coursera.accepted (fst quiz) then []
    else goes "exam" (snd quiz)
         ++ if Coursera.accepted (fst exam) then []
            else goes "assignment" (snd exam))%list.

(** The [url] argument of [get_page_content] is a string that contains
    [sub]. *)
Definition urlContains (args : Json.Fields) (sub : string) : Prop :=
exists u, Json.lookup "url" args = Json.Str u /\ Coursera.contains u sub.

(** The names the server lists, and the names it has handlers for. *)
Definition listedNames : list string := map Coursera.name Coursera.tools.

Definition handledNames (w : Coursera.World) (cfg : Coursera.Config)
  : list string :=
map fst (Coursera.ownHandlers w cfg).

End Notions.

(** ** Further sample inputs *)

Module Scenarios.
Import Eff.

(** An upstream that refuses every API request with status 401. *)
Definition refusingWorld : Coursera.World :=
Coursera.mkWorld
  (fun _ => Ok (Coursera.mkResponse false 401 "Unauthorized" (Some "text/plain")
                  (Throw (Err "Unexpected token U in JSON"))))
  (Coursera.w_launch Samples.calmWorld) (Coursera.w_newPage Samples.calmWorld)
  (Coursera.w_setCookie Samples.calmWorld)
  (Coursera.w_setUserAgent Samples.calmWorld)
  (Coursera.w_setViewport Samples.calmWorld)
  (Coursera.w_goto Samples.calmWorld)
  (Coursera.w_waitForSelector Samples.calmWorld)
  (Coursera.w_evaluateContent Samples.calmWorld)
  (Coursera.w_evaluate Samples.calmWorld) (Coursera.w_title Samples.calmWorld)
  (Coursera.w_pageUrl Samples.calmWorld) (Coursera.w_pageClose Samples.calmWorld)
  (Coursera.w_browserClose Samples.calmWorld).

(** An SDK that takes every body for an initialization message and
    initialises a session under the identifier [sess-1]. *)
Definition initSdk : Http.Sdk :=
Http.mkSdk (fun _ => None) (fun _ => true) (fun _ => None)
  (fun _ _ => Http.SdkInitialize "sess-1" (Http.mkHttpResponse 200 Json.Null))
  (fun _ => Http.mkClose None true) (fun _ => None)
  (fun _ => None) (fun _ => true).

(** An SDK whose [handleRequest] throws before anything is sent. *)
Definition throwingSdk : Http.Sdk :=
Http.mkSdk (fun _ => None) (fun _ => false) (fun _ => None)
  (fun _ _ => Http.SdkThrow (Err "stream is not readable") None)
  (fun _ => Http.mkClose None true) (fun _ => None)
  (fun _ => None) (fun _ => true).

(** An SDK that answers every request by closing the transport. *)
Definition closingSdk : Http.Sdk :=
Http.mkSdk (fun _ => None) (fun _ => false) (fun _ => None)
  (fun _ _ => Http.SdkClose (Http.mkHttpResponse 200 Json.Null))
  (fun _ => Http.mkClose None true) (fun _ => None)
  (fun _ => None) (fun _ => true).

Definition initializeBody : Json.t :=
Json.Obj [("jsonrpc", Json.Str "2.0"); ("method", Json.Str "initialize")].

Definition initRequest : Http.Request :=
Http.mkRequest "POST" "/mcp" [] initializeBody.

Definition getRequest : Http.Request :=
Http.mkRequest "GET" "/mcp" [] initializeBody.

(** A server with the token configured and no session yet. *)
Definition readyState : Http.State :=
Http.mkState [] (Env.mkProcess true {[ "COURSERA_CAUTH" := "abc" ]}) 0 [] None.

(** An upstream in which the browser cannot be launched. *)
Definition noBrowserWorld : Coursera.World :=
Coursera.mkWorld
  (Coursera.w_fetch Samples.calmWorld)
  (fun _ => Throw (Err "Failed to launch the browser process"))
  (Coursera.w_newPage Samples.calmWorld)
  (Coursera.w_setCookie Samples.calmWorld)
  (Coursera.w_setUserAgent Samples.calmWorld)
  (Coursera.w_setViewport Samples.calmWorld)
  (Coursera.w_goto Samples.calmWorld)
  (Coursera.w_waitForSelector Samples.calmWorld)
  (Coursera.w_evaluateContent Samples.calmWorld)
  (Coursera.w_evaluate Samples.calmWorld) (Coursera.w_title Samples.calmWorld)
  (Coursera.w_pageUrl Samples.calmWorld) (Coursera.w_pageClose Samples.calmWorld)
  (Coursera.w_browserClose Samples.calmWorld).

(** The closure of a server after one tool call on that upstream:
    [browserPromise] holds the promise the failed launch rejected. *)
Definition strandedRegistry : Coursera.Registry :=
snd (Coursera.callTool noBrowserWorld Samples.tokenConfig "get_progress"
       (Some [("course_slug", Json.Str "ml")]) Coursera.freshRegistry).

(** An SDK whose close calls succeed and report through [onclose]; the
    first close call (at time 1, after the line written to the console)
    runs the [onclose] of a server in the state [strandedRegistry]. *)
Definition strandedSdk : Http.Sdk :=
Http.mkSdk (fun _ => None) (fun _ => false) (fun _ => None)
  (fun _ _ => Http.SdkRespond (Http.mkHttpResponse 200 Json.Null))
  (fun _ => Http.mkClose None true) (fun _ => None)
  (fun time => if Nat.eqb time 1
               then Some (noBrowserWorld, strandedRegistry) else None)
  (fun _ => true).

(** Arguments whose [course_slug] cannot be converted to a string. *)
Definition opaqueSlug : Json.Fields :=
[("course_slug", Json.Obj [("toString", Json.Num 0)]);
 ("item_id", Json.Str "q1")].

(** An upstream whose pages are long enough for [getAssignment], except
    that the first navigation (at time 5, after the launch and the set-up
    of the first page) fails. *)
Definition longPage : string :=
"Week 1 quiz. Question 1: which of these is a supervised learning task? Question 2: what does a cost function measure?".

Definition quizMissingWorld : Coursera.World :=
Coursera.mkWorld
  (Coursera.w_fetch Samples.calmWorld) (Coursera.w_launch Samples.calmWorld)
  (Coursera.w_newPage Samples.calmWorld)
  (Coursera.w_setCookie Samples.calmWorld)
  (Coursera.w_setUserAgent Samples.calmWorld)
  (Coursera.w_setViewport Samples.calmWorld)
  (fun time => if Nat.eqb time 5 then Some (Err "net::ERR_ABORTED") else None)
  (Coursera.w_waitForSelector Samples.calmWorld)
  (fun _ => Ok (Coursera.mkContent "<main>quiz</main>" longPage "main"))
  (Coursera.w_evaluate Samples.calmWorld) (Coursera.w_title Samples.calmWorld)
  (Coursera.w_pageUrl Samples.calmWorld) (Coursera.w_pageClose Samples.calmWorld)
  (Coursera.w_browserClose Samples.calmWorld).

End Scenarios.

(** * Properties *)

(** ** Invariants of effectful computations *)

Section Keeps.
Context {S : Type} (I : S -> Prop).

Lemma keeps_ret {A} (a : A) : Eff.keeps I (Eff.ret a).
Proof. intros s H. exact H. Qed.

Lemma keeps_throw {A} e : Eff.keeps I (@Eff.throw S A e).
Proof. intros s H. exact H. Qed.

Lemma keeps_settle {A} (x : Eff.Result A) : Eff.keeps I (Eff.settle x).
Proof. intros s H. exact H. Qed.

Lemma keeps_get : Eff.keeps I (@Eff.get S).
Proof. intros s H. exact H. Qed.

Lemma keeps_modify (f : S -> S) :
  (forall s, I s -> I (f s)) -> Eff.keeps I (Eff.modify f).
Proof. intros Hf s H. now apply Hf. Qed.

Lemma keeps_bind {A B} (m : Eff.M S A) (f : A -> Eff.M S B) :
  Eff.keeps I m -> (forall a, Eff.keeps I (f a)) -> Eff.keeps I (Eff.bind m f).
Proof.
  intros Hm Hf s H. specialize (Hm s H). unfold Eff.bind.
  destruct (m s) as [[a|e] s']; simpl in *; [now apply Hf | exact Hm].
Qed.

Lemma keeps_tryCatch {A} (m : Eff.M S A) h :
  Eff.keeps I m -> (forall e, Eff.keeps I (h e)) ->
  Eff.keeps I (Eff.tryCatch m h).
Proof.
  intros Hm Hh s H. specialize (Hm s H). unfold Eff.tryCatch.
  destruct (m s) as [[a|e] s']; simpl in *; [exact Hm | now apply Hh].
Qed.

Lemma keeps_tryFinally {A} (m : Eff.M S A) fin :
  Eff.keeps I m -> Eff.keeps I fin -> Eff.keeps I (Eff.tryFinally m fin).
Proof.
  intros Hm Hf s H. specialize (Hm s H). unfold Eff.tryFinally.
  destruct (m s) as [res s']. simpl in Hm. specialize (Hf s' Hm).
  destruct (fin s') as [[u|e] s'']; exact Hf.
Qed.

End Keeps.

Lemma keeps_toText {S} (I : S -> Prop) (v : Json.t) :
  Eff.keeps I (Coursera.toText v).
Proof.
  unfold Coursera.toText. destruct (Json.toString v);
    [apply keeps_ret | apply keeps_throw].
Qed.

Create HintDb keeps.
#[export] Hint Resolve keeps_ret keeps_throw keeps_settle keeps_get
  keeps_toText : keeps.

(** One step through the syntax of a computation: the combinators by their
    rules, a case distinction by cases, a leaf from the hints. *)
Ltac keeps_step :=
  match goal with
  | |- Eff.keeps _ (Eff.bind _ _) => apply keeps_bind; [|intros ?]
  | |- Eff.keeps _ (Eff.tryCatch _ _) => apply keeps_tryCatch; [|intros ?]
  | |- Eff.keeps _ (Eff.tryFinally _ _) => apply keeps_tryFinally
  | |- Eff.keeps _ (match ?x with _ => _ end) => destruct x
  | |- Eff.keeps _ _ => solve [auto with keeps]
  end.

Section EnvProperties.
Import Env.

Lemma assignIfUnset_keeps (e : gmap string string) k v key value :
  e !! k = Some v -> v <> EmptyString ->
  assignIfUnset e key value !! k = Some v.
Proof.
  intros Hk Hv. unfold assignIfUnset, unset, setVariable.
  destruct (decide (key = k)) as [->|Hne].
  - rewrite Hk. destruct (String.eqb_spec v EmptyString); [contradiction|exact Hk].
  - destruct (match e !! key with Some _ => _ | None => _ end); [|exact Hk].
    destruct (String.eqb key EmptyString); [exact Hk|].
    rewrite lookup_insert_ne; auto.
Qed.

Lemma applyLine_keeps (e : gmap string string) k v line :
  e !! k = Some v -> v <> EmptyString -> applyLine e line !! k = Some v.
Proof.
  intros Hk Hv. unfold applyLine.
  destruct (parseLine line) as [[key value]|]; [|exact Hk].
  now apply assignIfUnset_keeps.
Qed.

Lemma loadContent_keeps (e : gmap string string) k v content :
  e !! k = Some v -> v <> EmptyString -> loadContent e content !! k = Some v.
Proof.
  unfold loadContent. generalize (JS.split "010"%char content) as ls.
  intros ls. revert e. induction ls as [|l ls IH]; intros e Hk Hv; simpl.
  - exact Hk.
  - apply IH; [now apply applyLine_keeps|exact Hv].
Qed.

Lemma loadFile_keeps (e : gmap string string) k v file :
  e !! k = Some v -> v <> EmptyString -> loadFile e file !! k = Some v.
Proof.
  intros Hk Hv. destruct file as [c|]; simpl; [|exact Hk].
  now apply loadContent_keeps.
Qed.

Lemma loadEnv_keeps fs st k v :
  env st !! k = Some v -> v <> EmptyString -> env (loadEnv fs st) !! k = Some v.
Proof.
  intros Hk Hv. unfold loadEnv. destruct (envLoaded st); [exact Hk|].
  simpl. apply loadFile_keeps; [apply loadFile_keeps|]; assumption.
Qed.
End EnvProperties.


(** ** Quote stripping *)

Lemma endsWith_app (s p : string) : JS.endsWith (s ++ p) p = true.
Proof.
  induction s as [|c s IH]; simpl.
  - destruct p; simpl; rewrite ?Ascii.eqb_refl, ?String.eqb_refl; reflexivity.
  - rewrite IH. apply orb_true_r.
Qed.

Lemma take_app_length (a b : string) : JS.take (String.length a) (a ++ b) = a.
Proof. induction a as [|c a IH]; simpl; [destruct b; reflexivity|now rewrite IH]. Qed.

Lemma length_app_one (a : string) (q : ascii) :
  String.length (a ++ String q EmptyString) = S (String.length a).
Proof. induction a as [|c a IH]; simpl; [reflexivity|now rewrite IH]. Qed.

Lemma slice_1_m1_wrapped (q : ascii) (inner : string) :
  JS.slice_1_m1 (String q (inner ++ String q EmptyString)) = inner.
Proof.
  unfold JS.slice_1_m1, JS.slice. simpl.
  rewrite length_app_one. simpl.
  replace (String.length inner - 0) with (String.length inner) by lia.
  apply take_app_length.
Qed.

Lemma startsWith_head (q : ascii) (rest : string) :
  JS.startsWith (String q rest) (String q EmptyString) = true.
Proof.
  unfold JS.startsWith. simpl.
  destruct (ascii_dec q q) as [_|Hne]; [|now elim Hne].
  destruct rest; reflexivity.
Qed.

Lemma stripQuotes_wrapped (q : ascii) (inner : string) :
  q = ascii_of_nat 34 \/ q = ascii_of_nat 39 ->
  Env.stripQuotes (String q (inner ++ String q EmptyString)) = inner.
Proof.
  intros Hq. unfold Env.stripQuotes.
  assert (Hend : JS.endsWith (String q (inner ++ String q EmptyString))
                   (String q EmptyString) = true).
  { change (String q (inner ++ String q EmptyString))
      with (String q inner ++ String q EmptyString).
    apply endsWith_app. }
  pose proof (startsWith_head q (inner ++ String q EmptyString)) as Hstart.
  destruct Hq as [-> | ->]; unfold JS.dquote, JS.squote.
  - rewrite Hstart, Hend. simpl. apply slice_1_m1_wrapped.
  - rewrite Hstart, Hend. rewrite orb_true_r. apply slice_1_m1_wrapped.
Qed.

(** ** Claims about [src/env.js] *)

(** C8, as stated, fails: a value that is the empty string does not count as
    present. An empty value in the process environment is replaced by a file,
    and an empty value set by [.env.local] is replaced by [.env]. *)
Lemma C8_empty_value_is_overridden :
  let st := Env.mkProcess false {[ "FOO" := EmptyString ]} in
  let fs := Env.mkFS None (Some "FOO=bar") in
  let st' := Env.mkProcess false ∅ in
  let fs' := Env.mkFS (Some "KEY=") (Some "KEY=later") in
  (Env.env st !! "FOO" = Some EmptyString
   /\ Env.env (Env.loadEnv fs st) !! "FOO" = Some "bar")
  /\ (Env.loadFile (Env.env st') (Env.dotenv_local fs') !! "KEY" = Some EmptyString
      /\ Env.env (Env.loadEnv fs' st') !! "KEY" = Some "later").
Proof. vm_compute. repeat split; reflexivity. Qed.

(** ** Claims about the configuration check *)

Lemma getCourseraConfig_run (fs : Env.FileSystem) (p : Env.ProcessState) :
  Coursera.getCourseraConfig fs p =
  let p' := Env.loadEnv fs p in
  let cookies := Env.env p' !! "COURSERA_COOKIES" in
  let token := Env.env p' !! "COURSERA_CAUTH" in
  (if negb (JS.truthy cookies) && negb (JS.truthy token)
   then Eff.Throw (Eff.Err Coursera.missingCredentials)
   else Eff.Ok (Coursera.mkConfig
                  (if JS.truthy cookies then JS.text cookies
                   else "CAUTH=" ++ JS.text token)
                  (if JS.truthy token then token
                   else Coursera.extractCauth cookies)),
   p').
Proof.
  unfold Coursera.getCourseraConfig, Eff.bind, Eff.modify, Eff.get. simpl.
  destruct (negb _ && negb _); reflexivity.
Qed.

(** C7. Configuration loading fails fast. A credential is present when the
    environment, after the environment files are loaded, holds a non-empty
    string for it (the test the code makes, and what its error message
    calls missing). With neither present [getCourseraConfig] throws and
    both entry points exit with code 1 instead of serving; with at least
    one present it returns a cookie string: the cookies themselves, or
    [CAUTH=<token>] when only the token is there. *)
Theorem C7_config_fails_fast (fs : Env.FileSystem) (p : Env.ProcessState) :
  let e := Env.env (Env.loadEnv fs p) in
  let cookies := e !! "COURSERA_COOKIES" in
  let token := e !! "COURSERA_CAUTH" in
  (JS.truthy cookies = false -> JS.truthy token = false ->
     fst (Coursera.getCourseraConfig fs p)
       = Eff.Throw (Eff.Err Coursera.missingCredentials)
     /\ (forall listenError, Http.start fs p listenError = Http.Exited 1)
     /\ (forall connectError, Stdio.start fs p connectError = Stdio.Exited 1))
  /\ (JS.truthy cookies = true \/ JS.truthy token = true ->
      exists cfg,
        fst (Coursera.getCourseraConfig fs p) = Eff.Ok cfg
        /\ (JS.truthy cookies = true -> Some (Coursera.cookies cfg) = cookies)
        /\ (JS.truthy cookies = false ->
            forall t, token = Some t -> Coursera.cookies cfg = "CAUTH=" ++ t)).
Proof.
  intros e cookies token. split.
  - intros Hc Ht.
    assert (Hrun : Coursera.getCourseraConfig fs p
                   = (Eff.Throw (Eff.Err Coursera.missingCredentials),
                      Env.loadEnv fs p)).
    { rewrite getCourseraConfig_run. simpl. fold e. fold cookies. fold token.
      now rewrite Hc, Ht. }
    repeat split.
    + now rewrite Hrun.
    + intros le. unfold Http.start. now rewrite Hrun.
    + intros ce. unfold Stdio.start, Coursera.createCourseraServer, Eff.bind.
      now rewrite Hrun.
  - intros Hone. rewrite getCourseraConfig_run. simpl.
    fold e. fold cookies. fold token.
    assert (Hb : negb (JS.truthy cookies) && negb (JS.truthy token) = false).
    { destruct Hone as [-> | ->]; simpl; [reflexivity | apply andb_false_r]. }
    rewrite Hb. eexists. split; [reflexivity|]. simpl. split.
    + intros Hc. rewrite Hc. destruct cookies; [reflexivity|discriminate].
    + intros Hc t Ht. rewrite Hc, Ht. reflexivity.
Qed.

Lemma C7_witness :
  let fs := Env.mkFS (Some "COURSERA_CAUTH=tok") None in
  let p := Env.mkProcess false ∅ in
  (exists cfg, fst (Coursera.getCourseraConfig fs p) = Eff.Ok cfg
               /\ Coursera.cookies cfg = "CAUTH=tok")
  /\ Http.start (Env.mkFS None None) p None = Http.Exited 1.
Proof.
  intros fs p. split.
  - destruct (C7_config_fails_fast fs p) as [_ H].
    destruct H as (cfg & Hcfg & _ & Htok).
    + right. vm_compute. reflexivity.
    + exists cfg. split; [exact Hcfg|].
      apply Htok; vm_compute; reflexivity.
  - destruct (C7_config_fails_fast (Env.mkFS None None) p) as [H _].
    apply H; vm_compute; reflexivity.
Defined.

(** ** The session table *)

Section SessionMapFacts.
Import Http.

Lemma mapDelete_cons k k' v (m : SessionMap) :
  mapDelete k ((k', v) :: m) =
  if String.eqb k k' then mapDelete k m else (k', v) :: mapDelete k m.
Proof. unfold mapDelete. simpl. now destruct (String.eqb k k'). Qed.

Lemma mapGet_delete_eq k (m : SessionMap) : mapGet k (mapDelete k m) = None.
Proof.
  induction m as [|[k' v] m IH]; [reflexivity|].
  rewrite mapDelete_cons.
  destruct (String.eqb k k') eqn:E; simpl; [exact IH|].
  now rewrite E.
Qed.

Lemma mapGet_delete_ne k k' (m : SessionMap) :
  k <> k' -> mapGet k' (mapDelete k m) = mapGet k' m.
Proof.
  intros Hne. induction m as [|[k0 v] m IH]; [reflexivity|].
  rewrite mapDelete_cons.
  destruct (String.eqb k k0) eqn:E; simpl.
  - apply String.eqb_eq in E. subst k0.
    destruct (String.eqb k' k) eqn:E'; [|exact IH].
    apply String.eqb_eq in E'. congruence.
  - now rewrite IH.
Qed.

Lemma mapDelete_absent k (m : SessionMap) :
  mapGet k m = None -> mapDelete k m = m.
Proof.
  induction m as [|[k' v] m IH]; [reflexivity|].
  rewrite mapDelete_cons. simpl.
  destruct (String.eqb k k') eqn:E; [discriminate|].
  intros H. now rewrite IH.
Qed.

Lemma mapDelete_idem k (m : SessionMap) :
  mapDelete k (mapDelete k m) = mapDelete k m.
Proof. apply mapDelete_absent, mapGet_delete_eq. Qed.

Lemma mapGet_set_ne k k' v (m : SessionMap) :
  k <> k' -> mapGet k' (mapSet k v m) = mapGet k' m.
Proof.
  intros Hne. induction m as [|[k0 v0] m IH]; simpl.
  - destruct (String.eqb k' k) eqn:E; [|reflexivity].
    apply String.eqb_eq in E. congruence.
  - destruct (String.eqb k k0) eqn:E; simpl.
    + apply String.eqb_eq in E. subst k0.
      destruct (String.eqb k' k) eqn:E'; [|reflexivity].
      apply String.eqb_eq in E'. congruence.
    + now rewrite IH.
Qed.

Lemma mapGet_In k s (m : SessionMap) : mapGet k m = Some s -> In k (mapKeys m).
Proof.
  induction m as [|[k' v] m IH]; simpl; [discriminate|].
  destruct (String.eqb k k') eqn:E.
  - apply String.eqb_eq in E. now left.
  - intros H. right. now apply IH.
Qed.

Lemma fold_delete_In kv ids (m : SessionMap) :
  In kv (fold_left (fun acc k => mapDelete k acc) ids m) ->
  In kv m /\ ~ In (fst kv) ids.
Proof.
  revert m. induction ids as [|k ids IH]; intros m H; simpl in *.
  - tauto.
  - apply IH in H as [Hin Hnot].
    unfold mapDelete in Hin. apply filter_In in Hin as [Hin Hk].
    split; [exact Hin|].
    intros [->|Hin']; [|contradiction].
    now rewrite String.eqb_refl in Hk.
Qed.

Lemma fold_delete_all_keys (m : SessionMap) :
  fold_left (fun acc k => mapDelete k acc) (mapKeys m) m = [].
Proof.
  destruct (fold_left _ _ _) as [|kv rest] eqn:E; [reflexivity|].
  assert (Hin : In kv (fold_left (fun acc k => mapDelete k acc) (mapKeys m) m))
    by (rewrite E; now left).
  apply fold_delete_In in Hin as [Hin Hnot].
  elim Hnot. unfold mapKeys. now apply in_map.
Qed.
End SessionMapFacts.

(** ** Session teardown *)

Section Teardown.
Import Http.
Variable sdk : Sdk.

Lemma length_snoc {A} (l : list A) (x : A) : length (l ++ [x]) = S (length l).
Proof. rewrite length_app. simpl. lia. Qed.

Lemma serverOnclose_run time st :
  serverOnclose sdk time st =
  (Eff.Ok tt,
   mkState (sessions st) (proc st) (nextId st)
     (log st ++ rejection sdk time) (res st)).
Proof.
  unfold serverOnclose, rejection.
  destruct (sdk_serverOnclose sdk time) as [[w registry]|];
    [destruct (fst (Coursera.onclose w registry))|];
    unfold emit, Eff.modify, Eff.ret; rewrite ?app_nil_r;
    destruct st; reflexivity.
Qed.

Lemma cleanupSession_run sid st :
  cleanupSession sdk sid st =
  (Eff.Ok tt,
   mkState (mapDelete sid (sessions st)) (proc st) (nextId st)
     (log st ++ cleanupEvents sdk (length (log st)) (sessions st) sid) (res st)).
Proof.
  unfold cleanupSession, cleanupEvents.
  unfold Eff.bind at 1. unfold Eff.get at 1.
  unfold Eff.bind at 1. unfold setSessions, Eff.modify at 1.
  cbn [sessions proc nextId log res].
  destruct (mapGet sid (sessions st)) as [s|].
  - unfold Eff.tryCatch.
    unfold Eff.bind at 1. unfold now at 1. cbn [sessions proc nextId log res].
    unfold Eff.bind at 1. unfold emit at 1, Eff.modify at 1.
    cbn [sessions proc nextId log res].
    unfold Eff.bind at 1. rewrite serverOnclose_run.
    cbn [sessions proc nextId log res].
    unfold Eff.settle, Eff.voidResult, Eff.ret. rewrite <- app_assoc.
    destruct (sdk_serverClose sdk _); reflexivity.
  - unfold Eff.ret. now rewrite app_nil_r.
Qed.

Lemma cleanupEvents_gone time m sid :
  cleanupEvents sdk time (mapDelete sid m) sid = [].
Proof. unfold cleanupEvents. now rewrite mapGet_delete_eq. Qed.

(** The [try] around [transport.close()] in [shutdownSession]. *)
Lemma guarded_close_run t sid st :
  Eff.tryCatch (closeTransport sdk t (Some sid)) (fun _ => Eff.ret tt) st =
  let time := length (log st) in
  let fires := close_fires_onclose (sdk_transportClose sdk time) in
  let named := negb (String.eqb sid EmptyString) in
  (Eff.Ok tt,
   mkState (if fires && named then mapDelete sid (sessions st) else sessions st)
     (proc st) (nextId st)
     (log st ++ EvTransportClose (t_id t)
        :: (if fires
            then (if named then cleanupEvents sdk (S time) (sessions st) sid
                  else []) ++ rejection sdk time
            else []))
     (res st)).
Proof.
  unfold closeTransport, Eff.tryCatch.
  unfold Eff.bind at 1. unfold now at 1.
  unfold Eff.bind at 1. unfold emit at 1, Eff.modify at 1.
  cbn [sessions proc nextId log res].
  destruct (sdk_transportClose sdk (length (log st))) as [err fires].
  cbn [close_fires_onclose close_error].
  destruct fires.
  - unfold transportOnClose.
    destruct (String.eqb sid EmptyString); cbn [negb andb].
    + unfold Eff.bind at 1. unfold Eff.bind at 1. unfold Eff.ret at 1.
      rewrite serverOnclose_run. cbn [sessions proc nextId log res app].
      rewrite <- app_assoc.
      unfold Eff.settle, Eff.voidResult, Eff.ret. destruct err; reflexivity.
    + unfold Eff.bind at 1. unfold Eff.bind at 1. unfold Eff.tryCatch.
      rewrite cleanupSession_run. cbn [sessions proc nextId log res].
      rewrite serverOnclose_run. cbn [sessions proc nextId log res].
      rewrite length_snoc, <- !app_assoc. cbn [app].
      unfold Eff.settle, Eff.voidResult, Eff.ret. destruct err; reflexivity.
  - unfold Eff.bind, Eff.ret, Eff.settle, Eff.voidResult.
    destruct err; reflexivity.
Qed.

Lemma shutdownSession_run sid st :
  shutdownSession sdk sid st =
  (Eff.Ok tt,
   mkState (mapDelete sid (sessions st)) (proc st) (nextId st)
     (log st ++ shutdownEvents sdk (length (log st)) (sessions st) sid) (res st)).
Proof.
  unfold shutdownSession, shutdownEvents.
  unfold Eff.bind at 1. unfold Eff.get at 1.
  destruct (mapGet sid (sessions st)) as [s|] eqn:Hget.
  - unfold Eff.bind at 1. rewrite guarded_close_run. cbv beta iota zeta.
    rewrite cleanupSession_run. cbn [sessions proc nextId log res].
    destruct (close_fires_onclose (sdk_transportClose sdk (length (log st)))).
    + destruct (String.eqb sid EmptyString); cbn [negb andb].
      * rewrite !app_nil_l, length_app. cbn [length].
        replace (length (log st) + S (length (rejection sdk (length (log st)))))
          with (S (length (log st)) + length (rejection sdk (length (log st))))
          by lia.
        rewrite <- app_assoc. reflexivity.
      * rewrite mapDelete_idem, cleanupEvents_gone, app_nil_r. reflexivity.
    + cbn [andb]. rewrite length_snoc, <- app_assoc. reflexivity.
  - unfold Eff.bind, Eff.ret. rewrite cleanupSession_run.
    unfold cleanupEvents. now rewrite Hget.
Qed.
End Teardown.

(** ** Shutdown on SIGINT *)

Section Shutdown.
Import Http.
Variable sdk : Sdk.

Lemma forEach_shutdown_run ids st :
  forEach (shutdownSession sdk) ids st =
  (Eff.Ok tt,
   mkState (fold_left (fun acc k => mapDelete k acc) ids (sessions st))
     (proc st) (nextId st)
     (log st ++ shutdownAllEvents sdk (length (log st)) (sessions st) ids)
     (res st)).
Proof.
  revert st. induction ids as [|k ids IH]; intros st; simpl.
  - unfold Eff.ret. rewrite app_nil_r. now destruct st.
  - unfold Eff.bind. rewrite shutdownSession_run, IH. simpl.
    now rewrite length_app, app_assoc.
Qed.

Lemma shutdownEvents_covers time m sid s :
  mapGet sid m = Some s ->
  In (EvTransportClose (t_id (transport s))) (shutdownEvents sdk time m sid)
  /\ In (EvServerClose (server s)) (shutdownEvents sdk time m sid).
Proof.
  intros Hget. unfold shutdownEvents, cleanupEvents. rewrite Hget.
  split; [now left|]. right.
  destruct (close_fires_onclose _); [destruct (negb _)|];
    rewrite ?in_app_iff; simpl; auto.
Qed.

Lemma shutdownAllEvents_covers ids : forall time m sid s,
  In sid ids -> mapGet sid m = Some s ->
  In (EvTransportClose (t_id (transport s))) (shutdownAllEvents sdk time m ids)
  /\ In (EvServerClose (server s)) (shutdownAllEvents sdk time m ids).
Proof.
  induction ids as [|k ids IH]; intros time m sid s Hin Hget; [contradiction|].
  simpl. destruct (String.eqb_spec k sid) as [->|Hne].
  - destruct (shutdownEvents_covers time m sid s Hget) as [H1 H2].
    split; apply in_or_app; left; assumption.
  - destruct Hin as [->|Hin]; [contradiction|].
    assert (Hget' : mapGet sid (mapDelete k m) = Some s)
      by (rewrite mapGet_delete_ne; auto).
    destruct (IH (time + length (shutdownEvents sdk time m k)) _ _ _ Hin Hget')
      as [H1 H2].
    split; apply in_or_app; right; assumption.
Qed.

(** What the SIGINT handler does whatever the SDK answers to the close
    calls (a rejection of [transport.close()] or [server.close()] is caught
    inside [shutdownSession] and [cleanupSession]): it ends normally, the
    table is empty, the transport and the server of every session were
    asked to close, and the last thing it does is to close the HTTP server,
    whose callback exits with code 0. *)
Lemma sigint_shuts_down_every_session (st : State) :
  exists st',
    onSigint sdk st = (Eff.Ok tt, st')
    /\ sessions st' = []
    /\ (forall sid s, mapGet sid (sessions st) = Some s ->
          In (EvTransportClose (t_id (transport s))) (log st')
          /\ In (EvServerClose (server s)) (log st'))
    /\ (exists evs,
          log st' = (log st ++ evs ++ EvHttpServerClose
                     :: (if sdk_httpClosed sdk (length (log st ++ evs))
                         then [EvExit 0] else []))%list).
Proof.
  unfold onSigint.
  unfold Eff.bind at 1. unfold emit at 1, Eff.modify at 1.
  unfold Eff.bind at 1. unfold Eff.get at 1. cbn [sessions proc nextId log res].
  unfold Eff.bind at 1. rewrite forEach_shutdown_run.
  cbn [sessions proc nextId log res].
  unfold Eff.bind at 1. unfold now at 1. cbn [sessions proc nextId log res].
  unfold Eff.bind at 1. unfold emit at 1, Eff.modify at 1.
  cbn [sessions proc nextId log res].
  set (evs := shutdownAllEvents sdk _ (sessions st) (mapKeys (sessions st))).
  assert (Hcover : forall sid s, mapGet sid (sessions st) = Some s ->
            In (EvTransportClose (t_id (transport s))) evs
            /\ In (EvServerClose (server s)) evs).
  { intros sid s Hget. apply shutdownAllEvents_covers with sid; [|exact Hget].
    now apply mapGet_In with s. }
  assert (Hlen : ((log st ++ [EvConsole "Shutting down..."]) ++ evs
                  = log st ++ EvConsole "Shutting down..." :: evs)%list)
    by now rewrite <- app_assoc.
  destruct (sdk_httpClosed sdk _) eqn:Hclosed.
  - unfold emit, Eff.modify. cbn [sessions proc nextId log res].
    eexists. split; [reflexivity|]. cbn [sessions log].
    split; [apply fold_delete_all_keys|]. split.
    + intros sid s Hget. destruct (Hcover sid s Hget) as [H1 H2].
      split; rewrite !in_app_iff; tauto.
    + exists (EvConsole "Shutting down..." :: evs).
      rewrite <- Hlen, Hclosed, <- !app_assoc. reflexivity.
  - unfold Eff.ret.
    eexists. split; [reflexivity|]. cbn [sessions log].
    split; [apply fold_delete_all_keys|]. split.
    + intros sid s Hget. destruct (Hcover sid s Hget) as [H1 H2].
      split; rewrite !in_app_iff; tauto.
    + exists (EvConsole "Shutting down..." :: evs).
      rewrite <- Hlen, Hclosed, <- !app_assoc. reflexivity.
Qed.

End Shutdown.

(** C5, at the failing input: SIGINT arrives while two sessions are live,
    and the browser of the first one had failed to launch. The close calls
    themselves succeed, but the [server.onclose] the SDK runs inside the
    first of them rejects with the launch error, and no [try] of the module
    sees that promise: the rejection is left unhandled in the middle of the
    shutdown. (Node ends a process on an unhandled rejection, with a
    non-zero exit code; what follows the rejection in the log is what the
    handler would go on to do.) *)
Theorem C5_rejected_onclose_is_left_unhandled :
  Coursera.browserPromise Scenarios.strandedRegistry
    = Some (Eff.Throw (Eff.Err "Failed to launch the browser process"))
  /\ Http.log (snd (Http.onSigint Scenarios.strandedSdk Samples.twoSessions))
     = [Http.EvConsole "Shutting down...";
        Http.EvTransportClose 1; Http.EvServerClose 0;
        Http.EvUnhandledRejection
          (Eff.Err "Failed to launch the browser process");
        Http.EvTransportClose 3; Http.EvServerClose 2;
        Http.EvHttpServerClose; Http.EvExit 0].
Proof. split; reflexivity. Qed.

(** ** The dispatcher *)

Section Dispatcher.
Import Http.
Variable sdk : Sdk.
Variable fs : Env.FileSystem.

Lemma truthy_carried req sid :
  carriesSession req sid ->
  JS.truthy (getFirstHeaderValue (header "mcp-session-id" req)) = true
  /\ JS.text (getFirstHeaderValue (header "mcp-session-id" req)) = sid.
Proof.
  intros [Hh Hne]. rewrite Hh. simpl. split; [|reflexivity].
  destruct (String.eqb_spec sid EmptyString); [contradiction|reflexivity].
Qed.

Lemma mcpRoute_unknown_session sid req st :
  carriesSession req sid ->
  mapGet sid (sessions st) = None ->
  mcpRoute sdk fs req st =
  (Eff.Ok tt,
   answered st (jsonRpcError 400 (-32000) "Bad Request: No valid session ID provided")).
Proof.
  intros Hc Hnone. destruct (truthy_carried _ _ Hc) as [Ht Hs].
  unfold mcpRoute, getStreamableTransport, Eff.tryCatch.
  unfold Eff.bind at 1. rewrite Ht, Hs.
  unfold Eff.bind at 1. unfold Eff.get at 1. rewrite Hnone.
  reflexivity.
Qed.

(** C2. A request on the protocol endpoint that carries an unknown session
    identifier, or carries none and holds no initialization message, or
    carries the identifier of a session whose transport is not a streamable
    HTTP transport, is answered with a JSON-RPC error (status 400, code
    -32000) and changes nothing else: the session table, the log of SDK
    calls and the process state are those of before. *)
Theorem C2_rejected_request_changes_nothing (req : Request) (st : State)
    (message : string) :
  Rejected sdk st req message ->
  mcpRoute sdk fs req st =
  (Eff.Ok tt, answered st (jsonRpcError 400 (-32000) message)).
Proof.
  intros [sid Hc Hnone | Hno Hinit | sid session Hc Hsome Hkind].
  - now apply mcpRoute_unknown_session with sid.
  - unfold carriesNoSession in Hno.
    unfold mcpRoute, getStreamableTransport, Eff.tryCatch.
    unfold Eff.bind at 1. rewrite Hno, Hinit.
    rewrite orb_true_r. reflexivity.
  - destruct (truthy_carried _ _ Hc) as [Ht Hs].
    unfold mcpRoute, getStreamableTransport, Eff.tryCatch.
    unfold Eff.bind at 1. rewrite Ht, Hs.
    unfold Eff.bind at 1. unfold Eff.get at 1. rewrite Hsome, Hkind.
    reflexivity.
Qed.

End Dispatcher.

Lemma C2_witness :
  Http.mcpRoute Samples.passSdk Samples.noFiles (Samples.requestFor "gone")
    Samples.twoSessions
  = (Eff.Ok tt,
     Http.answered Samples.twoSessions
       (Http.jsonRpcError 400 (-32000) "Bad Request: No valid session ID provided")).
Proof.
  apply C2_rejected_request_changes_nothing.
  apply Http.UnknownSession with (sid := "gone").
  - split; [reflexivity | discriminate].
  - reflexivity.
Defined.

(** ** A torn-down session stays unknown *)

Section StaysUnknown.
Import Http.
Variable sdk : Sdk.
Variable fs : Env.FileSystem.
Variable sid : string.
Hypothesis never_reissued :
  forall t req r, sdk_handleRequest sdk t req <> SdkInitialize sid r.

Lemma unknown_same_sessions {A} (m : Eff.M State A) :
  (forall st, sessions (snd (m st)) = sessions st) ->
  Eff.keeps (unknownIn sid) m.
Proof. intros Hm st H. unfold unknownIn in *. now rewrite Hm. Qed.

Lemma unknown_now : Eff.keeps (unknownIn sid) now.
Proof. now apply unknown_same_sessions. Qed.

Lemma unknown_emit ev : Eff.keeps (unknownIn sid) (emit ev).
Proof. now apply unknown_same_sessions. Qed.

Lemma unknown_send r : Eff.keeps (unknownIn sid) (send r).
Proof. now apply unknown_same_sessions. Qed.

Lemma unknown_fresh : Eff.keeps (unknownIn sid) fresh.
Proof. now apply unknown_same_sessions. Qed.

Lemma unknown_liftProc {A} (m : Eff.M Env.ProcessState A) :
  Eff.keeps (unknownIn sid) (liftProc m).
Proof.
  apply unknown_same_sessions. intros st. unfold liftProc.
  now destruct (m (proc st)).
Qed.

Lemma unknown_cleanupSession k : Eff.keeps (unknownIn sid) (cleanupSession sdk k).
Proof.
  intros st H. rewrite cleanupSession_run. unfold unknownIn in *. simpl.
  destruct (String.eqb_spec k sid) as [->|Hne].
  - apply mapGet_delete_eq.
  - now rewrite mapGet_delete_ne.
Qed.

Lemma unknown_shutdownSession k :
  Eff.keeps (unknownIn sid) (shutdownSession sdk k).
Proof.
  intros st H. rewrite shutdownSession_run. unfold unknownIn in *. simpl.
  destruct (String.eqb_spec k sid) as [->|Hne].
  - apply mapGet_delete_eq.
  - now rewrite mapGet_delete_ne.
Qed.

Lemma unknown_serverOnclose time :
  Eff.keeps (unknownIn sid) (serverOnclose sdk time).
Proof.
  apply unknown_same_sessions. intros st. now rewrite serverOnclose_run.
Qed.

Lemma unknown_storeSession k t s :
  k <> sid -> Eff.keeps (unknownIn sid) (storeSession k t s).
Proof.
  intros Hne st H. unfold unknownIn in *. simpl. now rewrite mapGet_set_ne.
Qed.

(** The leaves of the dispatcher's computations, then the general step. *)
Ltac unknown_step :=
  match goal with
  | |- Eff.keeps _ now => apply unknown_now
  | |- Eff.keeps _ (emit _) => apply unknown_emit
  | |- Eff.keeps _ (send _) => apply unknown_send
  | |- Eff.keeps _ (respondJsonRpcError _ _ _) => apply unknown_send
  | |- Eff.keeps _ fresh => apply unknown_fresh
  | |- Eff.keeps _ (liftProc _) => apply unknown_liftProc
  | |- Eff.keeps _ (cleanupSession _ _) => apply unknown_cleanupSession
  | |- Eff.keeps _ (serverOnclose _ _) => apply unknown_serverOnclose
  | |- _ => keeps_step
  end.

Lemma unknown_transportOnClose k :
  Eff.keeps (unknownIn sid) (transportOnClose sdk k).
Proof. unfold transportOnClose. repeat unknown_step. Qed.

Lemma unknown_closeTransport t k :
  Eff.keeps (unknownIn sid) (closeTransport sdk t k).
Proof.
  unfold closeTransport. repeat unknown_step; apply unknown_transportOnClose.
Qed.

Lemma unknown_getStreamableTransport req :
  Eff.keeps (unknownIn sid) (getStreamableTransport sdk fs req).
Proof. unfold getStreamableTransport. repeat unknown_step. Qed.

Lemma unknown_handleRequest t k req :
  Eff.keeps (unknownIn sid) (handleRequest sdk t k req).
Proof.
  unfold handleRequest.
  apply keeps_bind; [apply unknown_now|intros time].
  apply keeps_bind; [apply unknown_emit|intros _].
  destruct (sdk_handleRequest sdk time req) as [r|newId r|r|e sent] eqn:Hact.
  - apply unknown_send.
  - apply keeps_bind; [|intros _; apply unknown_send].
    apply unknown_storeSession. intros ->. now apply (never_reissued time req r).
  - apply keeps_bind; [apply unknown_send|intros _]. apply unknown_closeTransport.
  - repeat unknown_step.
Qed.

Lemma unknown_mcpRoute req : Eff.keeps (unknownIn sid) (mcpRoute sdk fs req).
Proof.
  unfold mcpRoute.
  apply keeps_tryCatch.
  - apply keeps_bind; [apply unknown_getStreamableTransport|].
    intros [t|]; [apply unknown_handleRequest | apply keeps_ret].
  - intros e. repeat unknown_step.
Qed.

Lemma unknown_app cfg req : Eff.keeps (unknownIn sid) (app sdk fs cfg req).
Proof.
  unfold app, healthRoute.
  repeat unknown_step; apply unknown_mcpRoute.
Qed.

Lemma step_keeps_unknown st a :
  unknownIn sid st -> unknownIn sid (step sdk fs st a).
Proof.
  intros H. destruct a as [cfg req|k|k]; simpl.
  - apply (unknown_app cfg req). exact H.
  - now apply unknown_cleanupSession.
  - now apply unknown_shutdownSession.
Qed.

Lemma run_keeps_unknown actions : forall st,
  unknownIn sid st -> unknownIn sid (run sdk fs st actions).
Proof.
  induction actions as [|a actions IH]; intros st H; simpl; [exact H|].
  apply IH. now apply step_keeps_unknown.
Qed.

End StaysUnknown.

Section TornDown.
Import Http.
Variable sdk : Sdk.
Variable fs : Env.FileSystem.

Lemma teardown_run viaShutdown sid st :
  teardown sdk viaShutdown sid st =
  (Eff.Ok tt,
   mkState (mapDelete sid (sessions st)) (proc st) (nextId st)
     (log st ++ (if viaShutdown
                 then shutdownEvents sdk (length (log st)) (sessions st) sid
                 else cleanupEvents sdk (length (log st)) (sessions st) sid))
     (res st)).
Proof.
  destruct viaShutdown; simpl;
    [apply shutdownSession_run | apply cleanupSession_run].
Qed.

Lemma teardown_unknown_is_noop viaShutdown sid st :
  unknownIn sid st -> teardown sdk viaShutdown sid st = (Eff.Ok tt, st).
Proof.
  intros H. rewrite teardown_run. unfold unknownIn in H.
  unfold shutdownEvents, cleanupEvents. rewrite H, mapDelete_absent by exact H.
  destruct viaShutdown; rewrite app_nil_r; now destruct st.
Qed.

(** C4. Tearing a session down (by [cleanupSession] or by
    [shutdownSession]) never fails and leaves the entries of the other
    sessions as they were; a second teardown of the same identifier, by
    either function, is a no-op on the whole state; and from then on,
    whatever requests and teardowns come in between, a request that
    carries the identifier is rejected as an unknown session and changes
    nothing. Identifiers are non-empty, and the SDK does not issue the
    identifier again. *)
Theorem C4_torn_down_session_is_unknown (viaShutdown : bool) (sid : string)
    (st : State) :
  sid <> EmptyString ->
  (forall t req r, sdk_handleRequest sdk t req <> SdkInitialize sid r) ->
  let st1 := snd (teardown sdk viaShutdown sid st) in
  fst (teardown sdk viaShutdown sid st) = Eff.Ok tt
  /\ (forall k, k <> sid -> mapGet k (sessions st1) = mapGet k (sessions st))
  /\ (forall again, teardown sdk again sid st1 = (Eff.Ok tt, st1))
  /\ (forall actions req,
        getFirstHeaderValue (header "mcp-session-id" req) = Some sid ->
        let st2 := run sdk fs st1 actions in
        mcpRoute sdk fs req st2 =
        (Eff.Ok tt,
         answered st2 (jsonRpcError 400 (-32000)
                         "Bad Request: No valid session ID provided"))).
Proof.
  intros Hsid Hfresh st1.
  assert (Hgone : unknownIn sid st1).
  { unfold st1, unknownIn. rewrite teardown_run. simpl. apply mapGet_delete_eq. }
  repeat split.
  - now rewrite teardown_run.
  - intros k Hk. unfold st1. rewrite teardown_run. simpl.
    apply mapGet_delete_ne. congruence.
  - intros again. now apply teardown_unknown_is_noop.
  - intros actions req Hreq st2.
    apply mcpRoute_unknown_session with sid; [now split|].
    now apply run_keeps_unknown.
Qed.

End TornDown.

Lemma C4_witness :
  let st1 := snd (Http.teardown Samples.failingCloseSdk true "s1" Samples.twoSessions) in
  Http.mapGet "s2" (Http.sessions st1)
    = Http.mapGet "s2" (Http.sessions Samples.twoSessions)
  /\ Http.teardown Samples.failingCloseSdk true "s1" st1 = (Eff.Ok tt, st1)
  /\ Http.mcpRoute Samples.failingCloseSdk Samples.noFiles (Samples.requestFor "s1") st1
     = (Eff.Ok tt,
        Http.answered st1 (Http.jsonRpcError 400 (-32000)
                             "Bad Request: No valid session ID provided")).
Proof.
  intros st1.
  destruct (C4_torn_down_session_is_unknown Samples.failingCloseSdk
              Samples.noFiles true "s1" Samples.twoSessions)
    as (_ & Hother & Hagain & Hreq).
  - discriminate.
  - intros t req r. discriminate.
  - split; [apply Hother; discriminate|].
    split; [apply Hagain|].
    apply (Hreq [] (Samples.requestFor "s1")). reflexivity.
Defined.

(** ** The API key check and the health endpoint *)

Section ApiKey.
Import Http.
Variable sdk : Sdk.
Variable fs : Env.FileSystem.

Lemma apiKeyMiddleware_blocks key req :
  extractApiKey req <> Some key -> apiKeyMiddleware key req = Some unauthorized.
Proof.
  intros Hne. unfold apiKeyMiddleware.
  destruct (extractApiKey req) as [provided|]; simpl; [|reflexivity].
  destruct (String.eqb_spec provided key) as [->|_].
  - now elim Hne.
  - now rewrite orb_true_r.
Qed.

Lemma apiKeyMiddleware_passes key req :
  key <> EmptyString -> extractApiKey req = Some key ->
  apiKeyMiddleware key req = None.
Proof.
  intros Hkey Hreq. unfold apiKeyMiddleware. rewrite Hreq. simpl.
  rewrite String.eqb_refl.
  destruct (String.eqb_spec key EmptyString); [contradiction|reflexivity].
Qed.

(** C3, amended. The API key middleware is installed in front of every
    route. With a key configured, a request that does not present that key
    (none, or another one) gets 401 with the JSON-RPC error body whatever
    its path and method, the health-check path included, and no session is
    created. A GET on the health-check path is answered with the fixed
    status document exactly when the check lets it through: when no key is
    configured, or when the request presents the key. (Requests the SDK's
    own middleware answers never get this far.) *)
Theorem C3_api_key_guards_every_route (cfg : HttpConfig) (req : Request)
    (st : State) :
  sdk_middleware sdk req = None ->
  (forall key, apiKey cfg = Some key -> key <> EmptyString ->
     extractApiKey req <> Some key ->
     serve sdk fs cfg req st = (Some unauthorized, answered st unauthorized))
  /\ (method req = "GET" -> path req = "/health" ->
      JS.truthy (apiKey cfg) = false
      \/ (exists key, apiKey cfg = Some key /\ key <> EmptyString
                      /\ extractApiKey req = Some key) ->
      serve sdk fs cfg req st = (Some healthDocument, answered st healthDocument)).
Proof.
  intros Hsdk. split.
  - intros key Hkey Hne Hreq. unfold serve, app. rewrite Hsdk, Hkey. simpl.
    destruct (String.eqb_spec key EmptyString); [contradiction|]. simpl.
    now rewrite (apiKeyMiddleware_blocks key req Hreq).
  - intros Hm Hp Hpass. unfold serve, app. rewrite Hsdk, Hm, Hp.
    destruct Hpass as [Hnokey | (key & Hkey & Hne & Hreq)].
    + now rewrite Hnokey.
    + rewrite Hkey. simpl.
      destruct (String.eqb_spec key EmptyString); [contradiction|]. simpl.
      now rewrite (apiKeyMiddleware_passes key req Hne Hreq).
Qed.

End ApiKey.

(** C3, as stated, fails: with an API key configured, a health check that
    presents no key is answered 401, not with the status document. *)
Lemma C3_health_check_requires_the_key :
  ~ (forall sdk fs cfg req st,
       Http.sdk_middleware sdk req = None ->
       Http.method req = "GET" -> Http.path req = "/health" ->
       fst (Http.serve sdk fs cfg req st) = Some Http.healthDocument).
Proof.
  intros H.
  specialize (H Samples.passSdk Samples.noFiles Samples.keyedConfig
                Samples.healthCheck Samples.emptyState eq_refl eq_refl eq_refl).
  vm_compute in H. discriminate H.
Qed.

Lemma C3_witness :
  Http.serve Samples.passSdk Samples.noFiles Samples.keyedConfig
    Samples.healthCheck Samples.twoSessions
  = (Some Http.unauthorized, Http.answered Samples.twoSessions Http.unauthorized)
  /\ Http.serve Samples.passSdk Samples.noFiles Samples.openConfig
       Samples.healthCheck Samples.twoSessions
     = (Some Http.healthDocument,
        Http.answered Samples.twoSessions Http.healthDocument).
Proof.
  split.
  - destruct (C3_api_key_guards_every_route Samples.passSdk Samples.noFiles
                Samples.keyedConfig Samples.healthCheck Samples.twoSessions
                eq_refl) as [H _].
    apply (H "secret"); [reflexivity | discriminate | discriminate].
  - destruct (C3_api_key_guards_every_route Samples.passSdk Samples.noFiles
                Samples.openConfig Samples.healthCheck Samples.twoSessions
                eq_refl) as [_ H].
    apply H; [reflexivity | reflexivity | left; reflexivity].
Defined.

(** ** Invariants of a tool registry *)

Section Handlers.
Import Coursera.
Variable w : World.
Variable cfg : Config.
Variable I : Registry -> Prop.
Hypothesis I_stable : Stable I.

Lemma rkeeps_now : Eff.keeps I now.
Proof. intros r H. exact H. Qed.

Lemma rkeeps_emit ev : pageLevel ev -> Eff.keeps I (emit ev).
Proof. intros Hev r H. now apply (stable_emit I I_stable). Qed.

Lemma rkeeps_call {A} ev (answer : nat -> Eff.Result A) :
  pageLevel ev -> Eff.keeps I (call ev answer).
Proof.
  intros Hev. unfold call.
  apply keeps_bind; [apply rkeeps_now|intros t].
  apply keeps_bind; [now apply rkeeps_emit|intros _]. apply keeps_settle.
Qed.

Lemma rkeeps_callVoid ev answer :
  pageLevel ev -> Eff.keeps I (callVoid ev answer).
Proof. intros Hev. now apply rkeeps_call. Qed.

Lemma rkeeps_getBrowser : Eff.keeps I (getBrowser w).
Proof.
  intros r H. unfold getBrowser, Eff.bind, Eff.get.
  destruct (browserPromise r) as [p|] eqn:Hp; simpl; [exact H|].
  now apply (stable_launch I I_stable).
Qed.

Lemma rkeeps_newPage : Eff.keeps I (newPage w).
Proof.
  intros r H. unfold newPage, Eff.bind, now.
  destruct (w_newPage w (length (trace r))); simpl.
  - apply (stable_emit I I_stable); [split; discriminate | exact H].
  - apply (stable_emit I I_stable
             (mkRegistry (browserPromise r) (S (pages r)) (trace r)));
      [split; discriminate|].
    now apply (stable_pages I I_stable).
Qed.

(** The leaves of page set-up and extraction, then the general step. *)
Ltac page_step :=
  match goal with
  | |- Eff.keeps _ now => apply rkeeps_now
  | |- Eff.keeps _ (call _ _) => apply rkeeps_call; split; discriminate
  | |- Eff.keeps _ (callVoid _ _) => apply rkeeps_callVoid; split; discriminate
  | |- Eff.keeps _ (getBrowser _) => apply rkeeps_getBrowser
  | |- Eff.keeps _ (newPage _) => apply rkeeps_newPage
  | |- _ => keeps_step
  end.

Lemma rkeeps_createAuthenticatedPage :
  Eff.keeps I (createAuthenticatedPage w cfg).
Proof. unfold createAuthenticatedPage. repeat page_step. Qed.

Lemma rkeeps_closePage page : Eff.keeps I (closePage w page).
Proof. unfold closePage. page_step. Qed.

(** What [fetchPageContent] does with a page once it has navigated. *)
Lemma rkeeps_page_extraction page :
  Eff.keeps I
    (Eff.bind
       (Eff.tryCatch
          (callVoid (EvWaitForSelector page defaultWaitForSelector)
             (w_waitForSelector w))
          (fun _ => Eff.ret tt))
       (fun _ =>
          Eff.bind (call (EvEvaluate page) (w_evaluateContent w)) (fun content =>
          Eff.bind (call (EvTitle page) (w_title w)) (fun title =>
          Eff.bind now (fun t =>
          Eff.ret (mkPageResult title (w_pageUrl w t) (pc_text content)
                     (pc_html content) (pc_selector content))))))).
Proof. repeat page_step. Qed.

Lemma rkeeps_fetchPageContent url : Eff.keeps I (fetchPageContent w cfg url).
Proof.
  unfold fetchPageContent.
  apply keeps_bind; [apply rkeeps_createAuthenticatedPage|intros page].
  apply keeps_tryFinally; [|apply rkeeps_closePage].
  apply keeps_bind; [page_step|intros _].
  apply keeps_bind; [page_step|intros _].
  apply rkeeps_page_extraction.
Qed.

Lemma rkeeps_courseraFetch url : Eff.keeps I (courseraFetch w cfg url).
Proof. unfold courseraFetch. repeat page_step. Qed.

Lemma rkeeps_catchNull m : Eff.keeps I m -> Eff.keeps I (catchNull m).
Proof. intros H. unfold catchNull. apply keeps_tryCatch; auto with keeps. Qed.

Lemma rkeeps_withPage {A} url (body : nat -> Eff.M Registry A) :
  (forall page, Eff.keeps I (body page)) -> Eff.keeps I (withPage w cfg url body).
Proof.
  intros H. unfold withPage.
  apply keeps_bind; [apply rkeeps_createAuthenticatedPage|intros page].
  apply keeps_tryFinally; [|apply rkeeps_closePage].
  apply keeps_bind; [page_step|intros _]. apply H.
Qed.

(** The handlers are built from the pieces above. *)
Ltac handler_step :=
  match goal with
  | |- Eff.keeps _ (fetchPageContent _ _ _) => apply rkeeps_fetchPageContent
  | |- Eff.keeps _ (courseraFetch _ _ _) => apply rkeeps_courseraFetch
  | |- Eff.keeps _ (catchNull _) => apply rkeeps_catchNull
  | |- Eff.keeps _ (withPage _ _ _ _) => apply rkeeps_withPage; intros ?
  | |- _ => page_step
  end.

Lemma rkeeps_probeAssignment cs id urls :
  Eff.keeps I (probeAssignment w cfg cs id urls).
Proof.
  induction urls as [|url rest IH]; simpl; [repeat handler_step|].
  apply keeps_bind.
  - repeat handler_step.
  - intros [answer|]; [apply keeps_ret | exact IH].
Qed.

Lemma rkeeps_own_handlers name h args :
  JS.assoc name (ownHandlers w cfg) = Some h -> Eff.keeps I (h args).
Proof.
  unfold ownHandlers. simpl.
  repeat (destruct (String.eqb name _);
          [intros [= <-] | ]); try discriminate.
  - unfold listEnrollments. repeat handler_step.
  - unfold getCourse. repeat handler_step.
  - unfold listCourseMaterials. repeat handler_step.
  - unfold getPageContent. repeat handler_step.
  - unfold getReading, itemTexts. repeat handler_step.
  - unfold getLecture, itemTexts. repeat handler_step.
  - unfold listAssignments. repeat handler_step.
  - unfold getAssignment, itemTexts.
    repeat first [apply rkeeps_probeAssignment | handler_step].
  - unfold getProgress. repeat handler_step.
  - unfold listDegreePrograms. repeat handler_step.
Qed.

Lemma rkeeps_callTool name args : Eff.keeps I (callTool w cfg name args).
Proof.
  unfold callTool, toolHandlers.
  destruct (JS.assoc name (ownHandlers w cfg)) as [h|] eqn:Hown.
  - apply keeps_bind; [now apply rkeeps_own_handlers with name|].
    intros result. apply keeps_ret.
  - destruct (existsb _ _); [|apply keeps_throw].
    apply keeps_bind; [|intros result; apply keeps_ret].
    unfold inheritedMember, typeError. repeat keeps_step.
Qed.

Lemma invokeAll_keeps calls : forall r, I r -> I (invokeAll w cfg r calls).
Proof.
  induction calls as [|c calls IH]; intros r H; simpl; [exact H|].
  apply IH. unfold invoke. now apply rkeeps_callTool.
Qed.

End Handlers.

(** ** The shared browser and its pages *)

Section Browser.
Import Coursera.
Variable w : World.
Variable cfg : Config.

Lemma filter_snoc {A} (f : A -> bool) (l : list A) (x : A) :
  List.filter f (l ++ [x]) = (List.filter f l ++ if f x then [x] else [])%list.
Proof. rewrite List.filter_app. simpl. now destruct (f x). Qed.

Lemma pageLevel_not_launch ev : pageLevel ev -> isLaunch ev = false.
Proof. intros [H _]. destruct ev; try reflexivity. now elim H. Qed.

Lemma pageLevel_not_close ev : pageLevel ev -> isBrowserClose ev = false.
Proof. intros [_ H]. destruct ev; try reflexivity. now elim H. Qed.

Lemma launchedOnce_stable : Stable launchedOnce.
Proof.
  split; unfold launchedOnce, launches; simpl.
  - intros r ev Hev [H1 H2]. rewrite filter_snoc, pageLevel_not_launch by exact Hev.
    now rewrite app_nil_r.
  - intros r n H. exact H.
  - intros r p Hnone [H1 H2]. rewrite filter_snoc. simpl.
    rewrite length_app. simpl. rewrite (H2 Hnone). split; [lia | discriminate].
Qed.

Lemma neverClosed_stable n : Stable (fun r => browserCloses r = n).
Proof.
  split; unfold browserCloses; simpl.
  - intros r ev Hev H. rewrite filter_snoc, pageLevel_not_close by exact Hev.
    now rewrite app_nil_r.
  - intros r m H. exact H.
  - intros r p _ H. rewrite filter_snoc. simpl. now rewrite app_nil_r.
Qed.

(** X28. Whatever tools are invoked on a registry, in whatever order and with
    whatever outcome, the browser is launched at most once and no
    invocation closes it; [server.onclose] then closes it once if the
    launch had succeeded, and not at all if there is no browser. *)
Lemma browser_launched_once_closed_by_onclose calls :
  let r := invokeAll w cfg freshRegistry calls in
  launches r <= 1
  /\ browserCloses r = 0
  /\ browserCloses (snd (onclose w r))
     = match browserPromise r with Some (Eff.Ok _) => 1 | _ => 0 end.
Proof.
  intros r.
  assert (Hl : launchedOnce r).
  { apply (invokeAll_keeps w cfg _ launchedOnce_stable).
    split; [unfold launches; simpl; lia | reflexivity]. }
  assert (Hc : browserCloses r = 0).
  { now apply (invokeAll_keeps w cfg _ (neverClosed_stable 0)). }
  split; [apply Hl|]. split; [exact Hc|].
  unfold onclose, Eff.bind, Eff.get.
  destruct (browserPromise r) as [[u|e]|]; simpl; try exact Hc.
  unfold browserCloses in *. simpl. rewrite filter_snoc. simpl.
  rewrite length_app, Hc. reflexivity.
Qed.

(** A page whose set-up completed is closed whatever happens next: the
    last thing [fetchPageContent] and the [withPage] handlers do is to
    close it. *)
Lemma finally_closes_page {A} (m : Eff.M Registry A) page r :
  trace (snd (Eff.tryFinally m (closePage w page) r))
  = (trace (snd (m r)) ++ [EvPageClose page])%list.
Proof.
  unfold Eff.tryFinally. destruct (m r) as [res r'].
  unfold closePage, callVoid, call, Eff.bind, now, emit, Eff.modify,
    Eff.settle, Eff.voidResult. simpl.
  destruct (w_pageClose w (length (trace r'))); reflexivity.
Qed.

Lemma fetchPageContent_closes_page url r page r1 :
  createAuthenticatedPage w cfg r = (Eff.Ok page, r1) ->
  exists before,
    trace (snd (fetchPageContent w cfg url r)) = (before ++ [EvPageClose page])%list.
Proof.
  intros H. unfold fetchPageContent. unfold Eff.bind at 1. rewrite H.
  eexists. apply finally_closes_page.
Qed.

Lemma withPage_closes_page {A} url (body : nat -> Eff.M Registry A) r page r1 :
  createAuthenticatedPage w cfg r = (Eff.Ok page, r1) ->
  exists before,
    trace (snd (withPage w cfg url body r)) = (before ++ [EvPageClose page])%list.
Proof.
  intros H. unfold withPage. unfold Eff.bind at 1. rewrite H.
  eexists. apply finally_closes_page.
Qed.

(** But the set-up itself runs outside the [try]: when it throws, the
    handler ends there, with whatever the set-up had done. *)
Lemma fetchPageContent_stops_at_failed_setup url r e r' :
  createAuthenticatedPage w cfg r = (Eff.Throw e, r') ->
  fetchPageContent w cfg url r = (Eff.Throw e, r').
Proof. intros H. unfold fetchPageContent, Eff.bind. now rewrite H. Qed.

End Browser.

(** The general shape of the leak: with the browser running, a page that
    [browser.newPage()] opened and whose cookies the browser then refuses
    is left open; the handler ends with the error of [page.setCookie]. *)
Lemma refused_cookies_leave_the_page_open w cfg url r e :
  Coursera.browserPromise r = Some (Eff.Ok tt) ->
  Coursera.w_newPage w (length (Coursera.trace r)) = None ->
  Coursera.cookiesToSet cfg <> [] ->
  Coursera.w_setCookie w (S (length (Coursera.trace r))) = Some e ->
  Coursera.fetchPageContent w cfg url r
  = (Eff.Throw e,
     Coursera.mkRegistry (Coursera.browserPromise r) (S (Coursera.pages r))
       (Coursera.trace r
        ++ [Coursera.EvNewPage (Coursera.pages r);
            Coursera.EvSetCookie (Coursera.pages r) (Coursera.cookiesToSet cfg)])).
Proof.
  intros Hb Hn Hc Hs.
  apply fetchPageContent_stops_at_failed_setup.
  unfold Coursera.createAuthenticatedPage, Coursera.getBrowser,
    Coursera.newPage, Coursera.callVoid, Coursera.call, Eff.bind, Eff.get,
    Eff.ret, Eff.settle, Coursera.now, Coursera.emit, Eff.modify,
    Eff.voidResult, Eff.throw.
  rewrite Hb. cbn [fst snd Coursera.trace Coursera.pages Coursera.browserPromise].
  rewrite Hn. cbn [fst snd Coursera.trace Coursera.pages Coursera.browserPromise].
  destruct (Coursera.cookiesToSet cfg) as [|c cs] eqn:Hcs; [now elim Hc|].
  cbn [length Nat.ltb Nat.leb fst snd Coursera.trace Coursera.pages
         Coursera.browserPromise].
  rewrite length_app. simpl length. rewrite Nat.add_1_r, Hs.
  rewrite <- app_assoc. rewrite Hb. reflexivity.
Qed.

(** C6, at the failing input: the browser refuses the cookies after
    [browser.newPage()] has opened page 0. The invocation fails and its
    trace holds the opening of page 0 but no attempt to close it. *)
Lemma C6_page_stays_open_when_setup_fails :
  let run :=
    Coursera.callTool Samples.setupFailsWorld Samples.oddCookieConfig
      "get_page_content"
      (Some [("url", Json.Str "https://www.coursera.org/learn/ml")])
      Coursera.freshRegistry in
  (exists e, fst run = Eff.Throw e)
  /\ In (Coursera.EvNewPage 0) (Coursera.trace (snd run))
  /\ ~ In (Coursera.EvPageClose 0) (Coursera.trace (snd run)).
Proof.
  vm_compute. split; [eexists; reflexivity|]. split.
  - right. left. reflexivity.
  - intros H. repeat (destruct H as [H|H]; [discriminate H|]). exact H.
Qed.

(** ** Dispatch of tool calls *)

Section Dispatch.
Import Coursera.
Variable w : World.
Variable cfg : Config.


Lemma getCourse_trace args r slugText :
  Json.toString (Json.lookup "course_slug" args) = Some slugText ->
  trace (snd (getCourse w cfg args r))
  = (trace r ++ [EvFetch (getCourseUrl slugText) (cookies cfg)])%list.
Proof.
  intros Htext.
  unfold getCourse, toText, getCourseUrl, courseraFetch, call. rewrite Htext.
  unfold Eff.bind, now, emit, Eff.modify, Eff.settle. simpl.
  destruct (w_fetch w (length (trace r))) as [resp|e]; simpl; [|reflexivity].
  destruct (r_ok resp); simpl; [|reflexivity].
  destruct (match r_contentType resp with Some ct => _ | None => _ end); simpl.
  - destruct (r_json resp) as [v|e]; simpl; [|reflexivity].
    destruct (negb (Json.truthy _)); reflexivity.
  - reflexivity.
Qed.





End Dispatch.



(** ** Substring search *)

Lemma prefix_app (p rest : string) : String.prefix p (p ++ rest) = true.
Proof.
  induction p as [|c p IH]; simpl; [now destruct rest|].
  destruct (ascii_dec c c) as [_|Hne]; [exact IH|now elim Hne].
Qed.

Lemma prefix_split (p s : string) :
  String.prefix p s = true -> exists rest, s = p ++ rest.
Proof.
  revert s. induction p as [|c p IH]; intros s H.
  - now exists s.
  - destruct s as [|d s]; simpl in H; [discriminate|].
    destruct (ascii_dec c d) as [->|_]; [|discriminate].
    destruct (IH s H) as [rest ->]. now exists rest.
Qed.

Lemma indexOf_cons (c : ascii) (s sub : string) :
  JS.indexOf (String c s) sub
  = if String.prefix sub (String c s) then Some 0
    else option_map S (JS.indexOf s sub).
Proof. reflexivity. Qed.

Lemma includes_contains (s sub : string) :
  JS.includes s sub = true <-> Coursera.contains s sub.
Proof.
  unfold JS.includes, Coursera.contains. split.
  - induction s as [|c s IH].
    + destruct sub as [|d sub]; simpl; [|intros Hf; discriminate Hf].
      intros _. now exists EmptyString, EmptyString.
    + rewrite indexOf_cons.
      destruct (String.prefix sub (String c s)) eqn:Hp.
      * intros _. destruct (prefix_split _ _ Hp) as [rest Hrest].
        now exists EmptyString, rest.
      * destruct (JS.indexOf s sub) as [n|]; [|intros Hf; discriminate Hf].
        intros _. destruct (IH eq_refl) as (before & after & ->).
        now exists (String c before), after.
  - intros (before & after & ->).
    induction before as [|c before IH].
    + change (EmptyString ++ sub ++ after) with (sub ++ after).
      destruct (sub ++ after) as [|d rest] eqn:E.
      * destruct sub; [reflexivity|discriminate E].
      * rewrite indexOf_cons, <- E, prefix_app. reflexivity.
    + change (String c before ++ sub ++ after)
        with (String c (before ++ sub ++ after)).
      rewrite indexOf_cons.
      destruct (String.prefix sub (String c (before ++ sub ++ after)));
        [reflexivity|].
      destruct (JS.indexOf (before ++ sub ++ after) sub);
        [reflexivity|discriminate IH].
Qed.

(** ** The handlers of [get_page_content] and [get_assignment] *)

Section PageHandlers.
Import Coursera.
Variable w : World.
Variable cfg : Config.

Lemma goto_stays url page :
  Stable (fun r => In (EvGoto page url) (trace r)).
Proof.
  split; simpl.
  - intros r ev _ H. apply in_or_app. now left.
  - intros r n H. exact H.
  - intros r p _ H. apply in_or_app. now left.
Qed.

(** Once the page is set up, [fetchPageContent] navigates it to the URL,
    provided the URL can be written to the console. *)
Lemma fetchPageContent_navigates url r page r1 :
  Json.toString url <> None ->
  createAuthenticatedPage w cfg r = (Eff.Ok page, r1) ->
  In (EvGoto page url) (trace (snd (fetchPageContent w cfg url r))).
Proof.
  intros Hconv H. unfold fetchPageContent. unfold Eff.bind at 1. rewrite H.
  rewrite finally_closes_page. apply in_or_app. left.
  unfold Eff.bind at 1. unfold toText.
  destruct (Json.toString url) as [line|]; [|now elim Hconv].
  unfold Eff.ret at 1.
  unfold Eff.bind at 1. unfold callVoid, call.
  unfold Eff.bind at 1. unfold now at 1.
  unfold Eff.bind at 1. unfold emit at 1, Eff.modify at 1.
  unfold Eff.settle at 1, Eff.voidResult. cbn [fst snd trace].
  set (r2 := mkRegistry _ _ (trace r1 ++ [EvGoto page url])).
  assert (Hin : In (EvGoto page url) (trace r2))
    by (apply in_or_app; right; now left).
  destruct (w_goto w (length (trace r1))); [exact Hin|].
  now apply (rkeeps_page_extraction w _ (goto_stays url page) page r2).
Qed.

End PageHandlers.

Section Assignment.
Import Coursera.
Variable w : World.
Variable cfg : Config.

Lemma plausible_length (result : PageResult) :
  plausible result = true <-> 100 < String.length (pr_content result).
Proof.
  unfold plausible. split.
  - intros H. apply andb_true_iff in H as [_ H]. now apply Nat.ltb_lt in H.
  - intros H. apply andb_true_iff. split; [|now apply Nat.ltb_lt].
    destruct (pr_content result); [simpl in H; lia | reflexivity].
Qed.

(** One round of the loop: probe [url]; an accepted page is the answer,
    anything else (a thrown error, a short page) moves on to [rest]. *)
Lemma probeAssignment_cons cs id url rest r :
  probeAssignment w cfg cs id (url :: rest) r
  = let p := fetchPageContent w cfg (Json.Str url) r in
    if accepted (fst p)
    then (Eff.Ok (assignmentAnswer cs id (fst p)), snd p)
    else probeAssignment w cfg cs id rest (snd p).
Proof.
  cbn [probeAssignment]. unfold Eff.bind at 1. unfold Eff.tryCatch.
  unfold Eff.bind at 1.
  destruct (fetchPageContent w cfg (Json.Str url) r) as [[result|e] r'];
    cbn [fst snd accepted assignmentAnswer]; [|reflexivity].
  destruct (plausible result); reflexivity.
Qed.

End Assignment.

(** * Further properties of the code *)

(** ** Strings: reversal, trimming, splitting *)

Section StringFacts.
Import Notions.

Lemma append_nil (t : string) : "" ++ t = t.
Proof. reflexivity. Qed.

Lemma append_cons (c : ascii) (s t : string) :
  String c s ++ t = String c (s ++ t).
Proof. reflexivity. Qed.

Lemma append_empty_r (s : string) : s ++ "" = s.
Proof.
  induction s as [|c s IH]; [reflexivity|]. now rewrite append_cons, IH.
Qed.

Lemma string_app_assoc (a b c : string) : (a ++ b) ++ c = a ++ b ++ c.
Proof.
  induction a as [|x a IH]; [reflexivity|]. now rewrite !append_cons, IH.
Qed.

Lemma string_rev_app_spec (s acc : string) :
  String.rev_app s acc = String.rev s ++ acc.
Proof.
  revert acc. induction s as [|c s IH]; intros acc; [reflexivity|].
  unfold String.rev. simpl. rewrite (IH (String c acc)), (IH (String c "")).
  now rewrite string_app_assoc.
Qed.

Lemma string_rev_cons (c : ascii) (s : string) :
  String.rev (String c s) = String.rev s ++ String c "".
Proof. unfold String.rev at 1. simpl. apply string_rev_app_spec. Qed.

Lemma string_rev_append (a b : string) :
  String.rev (a ++ b) = String.rev b ++ String.rev a.
Proof.
  induction a as [|c a IH].
  - change (String.rev "") with "". now rewrite append_empty_r.
  - now rewrite append_cons, !string_rev_cons, IH, string_app_assoc.
Qed.

Lemma string_rev_involutive (s : string) : String.rev (String.rev s) = s.
Proof.
  induction s as [|c s IH]; [reflexivity|].
  now rewrite string_rev_cons, string_rev_append, IH.
Qed.

Lemma all_chars_app p (a b : string) :
  JS.all_chars p (a ++ b) = JS.all_chars p a && JS.all_chars p b.
Proof.
  induction a as [|c a IH]; [reflexivity|].
  rewrite append_cons. simpl. now rewrite IH, andb_assoc.
Qed.

Lemma all_chars_rev p (s : string) :
  JS.all_chars p (String.rev s) = JS.all_chars p s.
Proof.
  induction s as [|c s IH]; [reflexivity|].
  rewrite string_rev_cons, all_chars_app, IH. simpl.
  rewrite andb_true_r. apply andb_comm.
Qed.

Lemma trimStart_blank (a y : string) :
  blank a = true -> JS.trimStart (a ++ y) = JS.trimStart y.
Proof.
  unfold blank. induction a as [|c a IH]; [reflexivity|].
  rewrite append_cons. simpl.
  intros [Hc Ha]%andb_true_iff. rewrite Hc. now apply IH.
Qed.

Lemma trimStart_noLeading (s : string) :
  noLeadingSpace s = true -> JS.trimStart s = s.
Proof.
  destruct s as [|c s]; simpl; [reflexivity|].
  intros H%negb_true_iff. now rewrite H.
Qed.

Lemma noLeading_trimStart (s : string) : noLeadingSpace (JS.trimStart s) = true.
Proof.
  induction s as [|c s IH]; simpl; [reflexivity|].
  destruct (JS.is_ws c) eqn:Hc; [exact IH|]. simpl. now rewrite Hc.
Qed.

(** [trimStart] removes a blank prefix. *)
Lemma trimStart_suffix (s : string) :
  exists pre, blank pre = true /\ s = pre ++ JS.trimStart s.
Proof.
  induction s as [|c s (pre & Hpre & Hs)]; simpl.
  - exists "". split; reflexivity.
  - destruct (JS.is_ws c) eqn:Hc.
    + exists (String c pre). split; [unfold blank; simpl; now rewrite Hc|].
      now rewrite append_cons, <- Hs.
    + exists "". split; reflexivity.
Qed.

Lemma blank_trimStart (b : string) : blank b = true -> JS.trimStart b = "".
Proof.
  unfold blank. induction b as [|c b IH]; simpl; [reflexivity|].
  intros [Hc Hb]%andb_true_iff. rewrite Hc. now apply IH.
Qed.

Lemma noLeading_app (a b : string) :
  a <> "" -> noLeadingSpace (a ++ b) = noLeadingSpace a.
Proof. destruct a; [congruence | reflexivity]. Qed.

Lemma trimEnd_blank (y b : string) :
  blank b = true -> JS.trimEnd (y ++ b) = JS.trimEnd y.
Proof.
  intros Hb. unfold JS.trimEnd. rewrite string_rev_append, trimStart_blank; [reflexivity|].
  unfold blank. now rewrite all_chars_rev.
Qed.

Lemma trimEnd_noTrailing (s : string) :
  noLeadingSpace (String.rev s) = true -> JS.trimEnd s = s.
Proof.
  intros H. unfold JS.trimEnd. rewrite trimStart_noLeading by exact H.
  apply string_rev_involutive.
Qed.

(** White space around a tight string is what [trim] removes. *)
Lemma trim_pad (a x b : string) :
  blank a = true -> blank b = true -> tight x = true ->
  JS.trim (a ++ x ++ b) = x.
Proof.
  intros Ha Hb [Hl Hr]%andb_true_iff. unfold JS.trim.
  rewrite trimStart_blank by exact Ha.
  destruct x as [|c x].
  - rewrite append_nil, blank_trimStart by exact Hb. reflexivity.
  - rewrite trimStart_noLeading by exact Hl.
    rewrite trimEnd_blank by exact Hb. now apply trimEnd_noTrailing.
Qed.

Lemma trim_tight_id (x : string) : tight x = true -> JS.trim x = x.
Proof.
  intros H. rewrite <- (trim_pad "" x "") at 2 by (reflexivity || exact H).
  now rewrite append_nil, append_empty_r.
Qed.

(** What [trim] returns has no white space at either end. *)
Lemma tight_trim (s : string) : tight (JS.trim s) = true.
Proof.
  unfold tight, JS.trim, JS.trimEnd. rewrite string_rev_involutive.
  rewrite noLeading_trimStart, andb_true_r.
  set (y := JS.trimStart s).
  assert (Hy : noLeadingSpace y = true) by apply noLeading_trimStart.
  destruct (trimStart_suffix (String.rev y)) as (pre & Hpre & Heq).
  destruct (JS.trimStart (String.rev y)) as [|d t] eqn:Ht; [reflexivity|].
  rewrite <- (string_rev_involutive y), Heq, string_rev_append in Hy.
  rewrite noLeading_app in Hy; [exact Hy|].
  rewrite string_rev_cons. destruct (String.rev t); discriminate.
Qed.

Lemma trim_idempotent (s : string) : JS.trim (JS.trim s) = JS.trim s.
Proof. apply trim_tight_id, tight_trim. Qed.

End StringFacts.

Section SplitFacts.
Import Notions.

Lemma split_go_acc (sep : ascii) (cur s : string) :
  JS.split_go sep cur s
  = match JS.split sep s with
    | x :: l => (String.rev cur ++ x) :: l
    | [] => []
    end.
Proof.
  unfold JS.split. revert cur. induction s as [|c s IH]; intros cur; simpl.
  - change (String.rev "") with "". now rewrite append_empty_r.
  - destruct (Ascii.eqb c sep).
    + change (String.rev "") with "". now rewrite append_empty_r.
    + rewrite (IH (String c cur)), (IH (String c "")).
      destruct (JS.split_go sep "" s) as [|x l]; [reflexivity|].
      rewrite string_rev_cons.
      change (String.rev (String c "")) with (String c "").
      now rewrite string_app_assoc.
Qed.

Lemma split_nil (sep : ascii) : JS.split sep "" = [""].
Proof. reflexivity. Qed.

Lemma split_cons (sep c : ascii) (s : string) :
  JS.split sep (String c s)
  = if Ascii.eqb c sep then "" :: JS.split sep s
    else match JS.split sep s with
         | x :: l => String c x :: l
         | [] => []
         end.
Proof.
  unfold JS.split at 1. simpl. destruct (Ascii.eqb c sep); [reflexivity|].
  rewrite split_go_acc. now destruct (JS.split sep s).
Qed.

Lemma split_nonempty (sep : ascii) (s : string) : JS.split sep s <> [].
Proof.
  induction s as [|c s IH]; [discriminate|]. rewrite split_cons.
  destruct (Ascii.eqb c sep); [discriminate|].
  destruct (JS.split sep s); [congruence | discriminate].
Qed.

(** The first piece is a prefix of the string. *)
Lemma split_first_prefix (sep : ascii) (s x : string) (l : list string) :
  JS.split sep s = x :: l -> exists tail, s = x ++ tail.
Proof.
  revert x l. induction s as [|c s IH]; intros x l.
  - intros [= <- _]. now exists "".
  - rewrite split_cons. destruct (Ascii.eqb c sep).
    + intros [= <- _]. now exists (String c s).
    + destruct (JS.split sep s) as [|y l'] eqn:E; [discriminate|].
      intros [= <- _]. destruct (IH y l' eq_refl) as [tail ->].
      now exists tail.
Qed.

(** Splitting a joined list of separator-free pieces gives the pieces. *)
Lemma split_free (sep : ascii) (x : string) :
  free sep x = true -> JS.split sep x = [x].
Proof.
  unfold free. induction x as [|c x IH]; [reflexivity|]. simpl.
  intros [Hc Hx]%andb_true_iff. apply negb_true_iff in Hc.
  now rewrite split_cons, Hc, (IH Hx).
Qed.

Lemma split_free_app (sep : ascii) (x rest : string) :
  free sep x = true ->
  JS.split sep (x ++ String sep rest) = x :: JS.split sep rest.
Proof.
  unfold free. induction x as [|c x IH].
  - intros _. now rewrite append_nil, split_cons, Ascii.eqb_refl.
  - simpl. intros [Hc Hx]%andb_true_iff. apply negb_true_iff in Hc.
    now rewrite append_cons, split_cons, Hc, (IH Hx).
Qed.

Lemma split_join (sep : ascii) (items : list string) :
  items <> [] -> Forall (fun x => free sep x = true) items ->
  JS.split sep (JS.join (String sep "") items) = items.
Proof.
  induction items as [|x items IH]; [congruence|]. intros _ Hall.
  apply Forall_cons_iff in Hall as [Hx Hall].
  destruct items as [|y items]; [now apply split_free|].
  change (JS.join (String sep "") (x :: y :: items))
    with (x ++ String sep (JS.join (String sep "") (y :: items))).
  rewrite split_free_app by exact Hx. f_equal. now apply IH.
Qed.

End SplitFacts.

(** ** The environment files *)

Section EnvFiles.
Import Notions Env.

Lemma blank_free (c : ascii) (b : string) :
  JS.is_ws c = false -> blank b = true -> free c b = true.
Proof.
  intros Hc. unfold blank, free. induction b as [|x b IH]; simpl; [reflexivity|].
  intros [Hx Hb]%andb_true_iff. rewrite (IH Hb), andb_true_r.
  destruct (Ascii.eqb_spec x c) as [->|_]; [congruence | reflexivity].
Qed.

Lemma free_app (c : ascii) (a b : string) :
  free c (a ++ b) = free c a && free c b.
Proof. apply all_chars_app. Qed.

Lemma indexOf_free (c : ascii) (pre rest : string) :
  free c pre = true ->
  JS.indexOf (pre ++ String c rest) (String c "") = Some (String.length pre).
Proof.
  unfold free. induction pre as [|x pre IH]; intros H.
  - rewrite append_nil, indexOf_cons. simpl.
    destruct (ascii_dec c c) as [_|Hne]; [|now elim Hne].
    now destruct rest.
  - simpl in H. apply andb_true_iff in H as [Hx Hpre].
    rewrite append_cons, indexOf_cons, (IH Hpre). simpl.
    destruct (ascii_dec c x) as [->|_]; [|reflexivity].
    now rewrite Ascii.eqb_refl in Hx.
Qed.

Lemma prefix_nil (s : string) : String.prefix "" s = true.
Proof. now destruct s. Qed.

Lemma startsWith_char_app (c k0 : ascii) (key t : string) :
  JS.startsWith (String k0 key ++ t) (String c "")
  = JS.startsWith (String k0 key) (String c "").
Proof.
  unfold JS.startsWith. rewrite append_cons. simpl.
  destruct (ascii_dec c k0); [|reflexivity]. now rewrite !prefix_nil.
Qed.

Lemma drop_app_length (a b : string) : JS.drop (String.length a) (a ++ b) = b.
Proof.
  induction a as [|c a IH]; [now destruct b|]. now rewrite append_cons.
Qed.

Lemma length_append (a b : string) :
  String.length (a ++ b) = String.length a + String.length b.
Proof.
  induction a as [|c a IH]; [reflexivity|]. rewrite append_cons. simpl.
  now rewrite IH.
Qed.

Lemma tight_nonempty_app (x y : string) :
  x <> "" -> y <> "" -> noLeadingSpace x = true ->
  noLeadingSpace (String.rev y) = true -> tight (x ++ y) = true.
Proof.
  intros Hx Hy Hl Hr. unfold tight.
  rewrite noLeading_app, Hl by exact Hx. rewrite string_rev_append.
  rewrite noLeading_app, Hr; [reflexivity|].
  intros E. apply Hy. rewrite <- (string_rev_involutive y), E. reflexivity.
Qed.

(** The trimmed form of a line [key = value] with white space anywhere
    around the key and the value. *)
Lemma trim_assignment (a b c d key value : string) :
  blank a = true -> blank b = true -> blank c = true -> blank d = true ->
  tight key = true -> tight value = true -> key <> "" ->
  exists rest,
    JS.trim (a ++ key ++ b ++ "=" ++ c ++ value ++ d) = key ++ b ++ "=" ++ rest
    /\ JS.trim rest = value.
Proof.
  intros Ha Hb Hc Hd Hk Hv Hne.
  pose proof Hk as [Hkl _]%andb_true_iff.
  destruct value as [|v0 value].
  - exists "". split; [|reflexivity].
    replace (a ++ key ++ b ++ "=" ++ c ++ "" ++ d)
      with (a ++ ((key ++ b) ++ "=") ++ (c ++ d))
      by now rewrite append_nil, !string_app_assoc.
    rewrite trim_pad; [now rewrite !string_app_assoc | exact Ha | |].
    + unfold blank in *. now rewrite all_chars_app, Hc, Hd.
    + apply tight_nonempty_app; [|discriminate| |reflexivity].
      * destruct key; [congruence | discriminate].
      * now rewrite noLeading_app.
  - exists (c ++ String v0 value). split.
    + replace (a ++ key ++ b ++ "=" ++ c ++ String v0 value ++ d)
        with (a ++ (key ++ (b ++ "=" ++ c ++ String v0 value)) ++ d)
        by now rewrite !string_app_assoc.
      rewrite trim_pad; [reflexivity | exact Ha | exact Hd |].
      apply andb_true_iff in Hv as [_ Hvr].
      apply tight_nonempty_app; [exact Hne | | exact Hkl |].
      * destruct b; discriminate.
      * rewrite !string_rev_append, !string_app_assoc, noLeading_app;
          [exact Hvr|].
        rewrite string_rev_cons. destruct (String.rev value); discriminate.
    + rewrite <- (append_empty_r (String v0 value)) at 1.
      now apply trim_pad.
Qed.

(** X1. A line [key = value] of an environment file, with any white space
    (a carriage return included) before, after and around the [=], is
    read as that key and that value less one pair of surrounding quotes:
    the key ends at the first [=], so the value may hold more of them. *)
Theorem env_line_is_read_as_key_and_value (a b c d key value : string) :
  blank a = true -> blank b = true -> blank c = true -> blank d = true ->
  tight key = true -> tight value = true ->
  key <> "" -> free "=" key = true -> JS.startsWith key "#" = false ->
  parseLine (a ++ key ++ b ++ "=" ++ c ++ value ++ d)
  = Some (key, stripQuotes value).
Proof.
  intros Ha Hb Hc Hd Hk Hv Hne Hfree Hhash.
  destruct (trim_assignment a b c d key value) as (rest & Htrim & Hrest);
    try assumption.
  unfold parseLine. rewrite Htrim.
  destruct key as [|k0 key]; [congruence|].
  replace (String.eqb (String k0 key ++ b ++ "=" ++ rest) "") with false
    by reflexivity.
  rewrite startsWith_char_app.
  rewrite Hhash. cbn [orb].
  rewrite <- (string_app_assoc (String k0 key) b).
  change ("=" ++ rest) with (String "=" rest).
  rewrite indexOf_free.
  2:{ rewrite free_app, Hfree. now rewrite blank_free. }
  unfold JS.slice, JS.slice_from. rewrite Nat.sub_0_r.
  change (JS.drop 0 ?s) with s.
  rewrite take_app_length.
  replace (String.length (String k0 key ++ b) + 1)
    with (String.length ((String k0 key ++ b) ++ "="))
    by (rewrite length_append; reflexivity).
  replace ((String k0 key ++ b) ++ String "=" rest)
    with (((String k0 key ++ b) ++ "=") ++ rest)
    by now rewrite !string_app_assoc.
  rewrite drop_app_length, Hrest.
  rewrite <- (append_nil (String k0 key ++ b)).
  rewrite trim_pad by (reflexivity || assumption). reflexivity.
Qed.

Lemma env_line_is_read_as_key_and_value_witness :
  parseLine ("  " ++ "COURSERA_COOKIES" ++ " " ++ "=" ++ " "
             ++ "CAUTH=abc; csrf=1" ++ String "013" "")
  = Some ("COURSERA_COOKIES", "CAUTH=abc; csrf=1").
Proof.
  exact (env_line_is_read_as_key_and_value "  " " " " " (String "013" "")
           "COURSERA_COOKIES" "CAUTH=abc; csrf=1"
           eq_refl eq_refl eq_refl eq_refl eq_refl eq_refl
           ltac:(discriminate) eq_refl eq_refl).
Defined.

(** The two nested loops of [loadEnv] are one loop over [fileLines]. *)
Lemma loadEnv_lines fs st :
  envLoaded st = false ->
  env (loadEnv fs st) = fold_left applyLine (fileLines fs) (env st).
Proof.
  intros Hl. unfold loadEnv, fileLines. rewrite Hl.
  cbn [env]. generalize (envFiles fs) as files, (env st) as e.
  induction files as [|f fl IH]; intros e; [reflexivity|].
  cbn [fold_left flat_map]. rewrite fold_left_app, IH. now destruct f.
Qed.

Lemma assignIfUnset_other (e : gmap string string) key value k :
  key <> k -> assignIfUnset e key value !! k = e !! k.
Proof.
  intros Hne. unfold assignIfUnset, setVariable.
  destruct (unset e key); [|reflexivity].
  destruct (String.eqb key ""); [reflexivity|].
  now apply lookup_insert_ne.
Qed.

Lemma assignIfUnset_unset (e : gmap string string) k value :
  unset e k = true -> k <> "" -> assignIfUnset e k value !! k = Some value.
Proof.
  intros Hk Hne. unfold assignIfUnset, setVariable. rewrite Hk.
  destruct (String.eqb_spec k ""); [contradiction|]. apply lookup_insert_eq.
Qed.

Lemma applyLine_other (e : gmap string string) k line :
  (forall v, parseLine line <> Some (k, v)) -> applyLine e line !! k = e !! k.
Proof.
  intros H. unfold applyLine.
  destruct (parseLine line) as [[key value]|]; [|reflexivity].
  apply assignIfUnset_other. intros ->. now apply (H value).
Qed.

Lemma lines_keep (lines : list string) : forall (e : gmap string string) k v,
  e !! k = Some v -> v <> "" -> fold_left applyLine lines e !! k = Some v.
Proof.
  induction lines as [|l lines IH]; intros e k v Hk Hv; [exact Hk|].
  simpl. apply IH; [now apply applyLine_keeps | exact Hv].
Qed.

Lemma lines_first_non_empty (lines : list string) :
  forall (e : gmap string string) k v,
  unset e k = true -> k <> "" ->
  List.find nonEmpty (assignments k lines) = Some v ->
  fold_left applyLine lines e !! k = Some v.
Proof.
  induction lines as [|l lines IH]; intros e k v Hk Hne Hfind; [discriminate|].
  simpl in *. unfold applyLine at 2.
  destruct (parseLine l) as [[key value]|]; [|now apply IH].
  destruct (String.eqb_spec k key) as [<-|Hkey].
  - pose proof (assignIfUnset_unset e k value Hk Hne) as Hset.
    simpl in Hfind. destruct (nonEmpty value) eqn:Hv.
    + injection Hfind as <-. apply lines_keep; [exact Hset|].
      intros ->. discriminate.
    + apply IH; [|exact Hne|exact Hfind]. unfold unset. rewrite Hset.
      unfold nonEmpty in Hv. now destruct (String.eqb value "").
  - apply IH; [|exact Hne|exact Hfind].
    unfold unset in *. rewrite assignIfUnset_other by congruence. exact Hk.
Qed.

(** X2. A key that no line of either file assigns has the same value (or
    the same absence) after [loadEnv] as before. *)
Theorem loadEnv_leaves_other_keys_alone (fs : FileSystem) (st : ProcessState)
    (k : string) :
  (forall line v, In line (fileLines fs) -> parseLine line <> Some (k, v)) ->
  env (loadEnv fs st) !! k = env st !! k.
Proof.
  intros H. destruct (envLoaded st) eqn:Hl.
  - unfold loadEnv. now rewrite Hl.
  - rewrite loadEnv_lines by exact Hl.
    revert H. generalize (fileLines fs) as lines, (env st) as e.
    induction lines as [|l lines IH]; intros e H; [reflexivity|].
    simpl. rewrite IH.
    + apply applyLine_other. intros v. apply H. now left.
    + intros line v Hin. apply H. now right.
Qed.

Lemma loadEnv_leaves_other_keys_alone_witness :
  let nl := String "010" "" in
  let fs := mkFS (Some ("# COURSERA_CAUTH=old" ++ nl ++ "MCP_API_KEY = k"))
              (Some "PORT") in
  let st := mkProcess false {[ "COURSERA_CAUTH" := "" ]} in
  env (loadEnv fs st) !! "COURSERA_CAUTH" = Some "".
Proof.
  intros nl fs st.
  apply (loadEnv_leaves_other_keys_alone fs st "COURSERA_CAUTH").
  intros line v Hin. vm_compute in Hin.
  destruct Hin as [<-|[<-|[<-|[]]]]; vm_compute; discriminate.
Defined.

(** C8, amended: [loadEnv] does its work at most once (a later call changes
    nothing, whatever the files hold by then); a non-empty value already in
    the process environment, or set by the file loaded first, is the value
    after loading; a key that is unset (no variable of that name, or an
    empty one) gets the first non-empty value assigned to it, reading
    [.env.local] from top to bottom and then [.env], so that an empty value
    is replaced by the next assignment; and a value wrapped in one matching
    pair of quotes loses exactly that pair. (The empty name is never
    assigned, and a name that [Object.prototype] provides reads as set.) *)
Theorem C8_loadEnv_once_first_wins (fs fs' : FileSystem) (st : ProcessState) :
  (envLoaded (loadEnv fs st) = true
   /\ loadEnv fs' (loadEnv fs st) = loadEnv fs st)
  /\ (forall k v, env st !! k = Some v -> v <> EmptyString ->
                 env (loadEnv fs st) !! k = Some v)
  /\ (forall k v, envLoaded st = false ->
                 loadFile (env st) (dotenv_local fs) !! k = Some v ->
                 v <> EmptyString ->
                 env (loadEnv fs st) !! k = Some v)
  /\ (forall k v, envLoaded st = false ->
                 unset (env st) k = true -> k <> EmptyString ->
                 List.find nonEmpty (assignments k (fileLines fs)) = Some v ->
                 env (loadEnv fs st) !! k = Some v)
  /\ (forall q inner, q = ascii_of_nat 34 \/ q = ascii_of_nat 39 ->
                     stripQuotes (String q (inner ++ String q EmptyString)) = inner).
Proof.
  split; [split|split; [|split; [|split]]].
  - unfold loadEnv. now destruct (envLoaded st) eqn:E.
  - unfold loadEnv. destruct (envLoaded st) eqn:E; simpl; rewrite ?E; reflexivity.
  - intros k v. apply loadEnv_keeps.
  - intros k v Hl Hk Hv. unfold loadEnv. rewrite Hl. simpl.
    now apply loadFile_keeps.
  - intros k v Hl Hk Hne Hfind. rewrite loadEnv_lines by exact Hl.
    now apply lines_first_non_empty.
  - intros q inner. apply stripQuotes_wrapped.
Qed.

Lemma C8_witness :
  let nl := String "010" "" in
  let fs := mkFS (Some ("KEY=" ++ nl ++ "OTHER=1" ++ nl ++ "KEY='first'" ++ nl
                        ++ "KEY=second"))
              (Some "KEY=third") in
  let st := mkProcess false {[ "KEY" := "" ]} in
  env (loadEnv fs st) !! "KEY" = Some "first"
  /\ env (loadEnv fs st) !! "OTHER" = Some "1"
  /\ loadEnv (mkFS (Some "KEY=changed") None) (loadEnv fs st) = loadEnv fs st.
Proof.
  intros nl fs st.
  destruct (C8_loadEnv_once_first_wins fs (mkFS (Some "KEY=changed") None) st)
    as ((_ & Honce) & _ & _ & Hfirst & _).
  split; [|split].
  - apply Hfirst; [reflexivity | reflexivity | discriminate | reflexivity].
  - apply Hfirst; [reflexivity | reflexivity | discriminate | reflexivity].
  - exact Honce.
Defined.

End EnvFiles.

(** ** Credentials: the token and the cookies given to the browser *)

Section Credentials.
Import Notions Coursera.

Lemma span_take_all p (s : string) :
  JS.all_chars p (JS.take (JS.span_len p s) s) = true.
Proof.
  induction s as [|c s IH]; simpl; [reflexivity|].
  destruct (p c) eqn:Hc; simpl; [now rewrite Hc | reflexivity].
Qed.

Lemma take_drop (n : nat) (s : string) : JS.take n s ++ JS.drop n s = s.
Proof.
  revert s. induction n as [|n IH]; intros [|c s]; simpl; try reflexivity.
  now rewrite append_cons, IH.
Qed.

(** The run [span_len] measures ends at the end of the string or at a
    character that fails the test. *)
Lemma span_drop_stops p (s : string) :
  match JS.drop (JS.span_len p s) s with
  | String c _ => p c = false
  | EmptyString => True
  end.
Proof.
  induction s as [|c s IH]; simpl; [exact I|].
  destruct (p c) eqn:Hc; simpl; [exact IH | exact Hc].
Qed.

Lemma take_nonempty (n : nat) (s : string) :
  (0 <? n)%nat = true -> JS.take n s = "" -> s = "".
Proof. destruct n, s; simpl; try discriminate; reflexivity. Qed.

Lemma span_positive p (c : ascii) (s : string) :
  p c = true -> (0 <? JS.span_len p (String c s))%nat = true.
Proof. intros H. simpl. now rewrite H. Qed.

Lemma matchCauth_unfold (s : string) :
  matchCauth s
  = if String.prefix "CAUTH=" s
       && (0 <? JS.span_len notSemicolon (JS.drop 6 s))%nat
    then Some (JS.take (JS.span_len notSemicolon (JS.drop 6 s)) (JS.drop 6 s))
    else match s with
         | EmptyString => None
         | String _ s' => matchCauth s'
         end.
Proof. destruct s; reflexivity. Qed.

Lemma matchCauth_sound (s tok : string) :
  matchCauth s = Some tok ->
  tok <> "" /\ free ";" tok = true
  /\ exists pre post,
       s = pre ++ "CAUTH=" ++ tok ++ post
       /\ (post = "" \/ JS.startsWith post ";" = true).
Proof.
  induction s as [|c s IH].
  - simpl. discriminate.
  - rewrite matchCauth_unfold.
    set (rest := JS.drop 6 (String c s)).
    destruct (String.prefix "CAUTH=" (String c s)
              && (0 <? JS.span_len notSemicolon rest)%nat) eqn:Hhere.
    + intros [= <-]. apply andb_true_iff in Hhere as [Hp Hrun].
      destruct (prefix_split _ _ Hp) as [rest' Hrest'].
      assert (Hrest : rest = rest') by (unfold rest; now rewrite Hrest').
      split; [|split].
      * intros E. apply take_nonempty in E; [|exact Hrun].
        rewrite E in Hrun. discriminate.
      * apply span_take_all.
      * exists "", (JS.drop (JS.span_len notSemicolon rest) rest).
        split.
        -- rewrite append_nil, take_drop, Hrest. exact Hrest'.
        -- pose proof (span_drop_stops notSemicolon rest) as Hstop.
           destruct (JS.drop _ rest) as [|d t]; [now left|right].
           unfold notSemicolon in Hstop. apply negb_false_iff in Hstop.
           apply Ascii.eqb_eq in Hstop as ->. unfold JS.startsWith. simpl.
           apply prefix_nil.
    + intros H. destruct (IH H) as (Hne & Hfree & pre & post & -> & Hpost).
      split; [exact Hne|]. split; [exact Hfree|].
      exists (String c pre), post. split; [reflexivity | exact Hpost].
Qed.

Lemma matchCauth_complete (pre post : string) (c : ascii) :
  c <> ";"%char ->
  exists tok, matchCauth (pre ++ "CAUTH=" ++ String c post) = Some tok.
Proof.
  intros Hc. induction pre as [|x pre IH].
  - rewrite append_nil, matchCauth_unfold, prefix_app. eexists.
    change (JS.drop 6 ("CAUTH=" ++ String c post)) with (String c post).
    rewrite span_positive; [reflexivity|].
    unfold notSemicolon. apply negb_true_iff. now apply Ascii.eqb_neq.
  - rewrite append_cons, matchCauth_unfold.
    destruct (_ && _); [eexists; reflexivity | exact IH].
Qed.

(** X4. The token read out of a cookie string is a non-empty run of
    characters other than [;] that follows some [CAUTH=] in the string
    and stops at a [;] or at the end of the string; there is none exactly
    when no [CAUTH=] in the string is followed by a character other than
    [;]. *)
Theorem extractCauth_reads_the_CAUTH_pair (cookies : string) :
  (forall tok, extractCauth (Some cookies) = Some tok ->
     tok <> "" /\ free ";" tok = true
     /\ exists pre post,
          cookies = pre ++ "CAUTH=" ++ tok ++ post
          /\ (post = "" \/ JS.startsWith post ";" = true))
  /\ (extractCauth (Some cookies) = None <->
      ~ exists pre c post,
          cookies = pre ++ "CAUTH=" ++ String c post /\ c <> ";"%char).
Proof.
  assert (Hsound : forall tok, extractCauth (Some cookies) = Some tok ->
                     matchCauth cookies = Some tok).
  { intros tok. unfold extractCauth. now destruct (negb _). }
  split; [intros tok H; now apply matchCauth_sound, Hsound|].
  split.
  - intros Hnone (pre & c & post & -> & Hc).
    destruct (matchCauth_complete pre post c Hc) as [tok Htok].
    unfold extractCauth in Hnone.
    replace (JS.truthy (Some (pre ++ "CAUTH=" ++ String c post))) with true
      in Hnone by (now destruct pre).
    simpl in Hnone. congruence.
  - intros Hno. destruct (extractCauth (Some cookies)) as [tok|] eqn:E;
      [|reflexivity].
    exfalso. apply Hno.
    destruct (matchCauth_sound _ _ (Hsound tok eq_refl))
      as (Hne & Hfree & pre & post & -> & _).
    destruct tok as [|c tok]; [congruence|].
    exists pre, c, (tok ++ post). split; [reflexivity|].
    unfold free in Hfree. simpl in Hfree.
    apply andb_true_iff in Hfree as [Hc _].
    apply negb_true_iff in Hc. now apply Ascii.eqb_neq.
Qed.

Lemma trim_nonempty (s : string) :
  s <> "" -> noLeadingSpace s = true -> JS.trim s <> "".
Proof.
  intros Hne Hl E. unfold JS.trim in E.
  rewrite trimStart_noLeading in E by exact Hl. unfold JS.trimEnd in E.
  apply (f_equal String.rev) in E. rewrite string_rev_involutive in E.
  change (String.rev "") with "" in E.
  destruct (trimStart_suffix (String.rev s)) as (pre & Hpre & Hs).
  rewrite E, append_empty_r in Hs.
  destruct s as [|c s]; [congruence|]. simpl in Hl.
  unfold blank in Hpre. rewrite <- Hs, all_chars_rev in Hpre. simpl in Hpre.
  apply andb_true_iff in Hpre as [Hc _]. rewrite Hc in Hl. discriminate.
Qed.

Lemma parseCookiePair_scoped (pair : string) :
  Forall (fun c => c_domain c = ".coursera.org" /\ c_path c = "/"
                   /\ c_name c <> "")
    (parseCookiePair pair).
Proof.
  unfold parseCookiePair.
  destruct (JS.split "=" (JS.trim pair)) as [|nm valueParts] eqn:Hsplit;
    [constructor|].
  destruct (negb (String.eqb nm "") && _) eqn:Hguard; [|constructor].
  apply andb_true_iff in Hguard as [Hnm _].
  constructor; [|constructor]. repeat split. simpl.
  destruct (String.eqb_spec nm ""); [discriminate|].
  apply trim_nonempty; [assumption|].
  destruct (split_first_prefix _ _ _ _ Hsplit) as [tail Htail].
  pose proof (tight_trim pair) as [Hl _]%andb_true_iff.
  rewrite Htail, noLeading_app in Hl; assumption.
Qed.

(** X5. Every cookie the server hands to the browser is scoped to the
    domain [.coursera.org] and the path [/] and has a non-empty name,
    whatever the configured cookie string holds. *)
Theorem cookies_are_scoped_to_coursera (cfg : Config) :
  Forall (fun c => c_domain c = ".coursera.org" /\ c_path c = "/"
                   /\ c_name c <> "")
    (cookiesToSet cfg).
Proof.
  unfold cookiesToSet. apply Forall_app. split.
  - destruct (JS.truthy (cauth cfg)); repeat constructor. discriminate.
  - destruct (_ && _); [|constructor].
    apply Forall_flat_map, Forall_forall. intros pair _.
    apply parseCookiePair_scoped.
Qed.

(** X6. With the token alone configured ([COURSERA_CAUTH] non-empty and no
    [COURSERA_COOKIES]), the configuration is the cookie string
    [CAUTH=<token>] and the browser is given exactly one cookie: [CAUTH],
    holding the token, marked [httpOnly] and [secure]. *)
Theorem token_alone_gives_one_secure_cookie (fs : Env.FileSystem)
    (p : Env.ProcessState) (token : string) :
  let e := Env.env (Env.loadEnv fs p) in
  JS.truthy (e !! "COURSERA_COOKIES") = false ->
  e !! "COURSERA_CAUTH" = Some token ->
  token <> "" ->
  exists cfg,
    fst (getCourseraConfig fs p) = Eff.Ok cfg
    /\ cookies cfg = "CAUTH=" ++ token
    /\ cauth cfg = Some token
    /\ cookiesToSet cfg
       = [mkCookie "CAUTH" token ".coursera.org" "/" (Some true) (Some true)].
Proof.
  intros e Hc Ht Hne. rewrite getCourseraConfig_run. cbv zeta. fold e.
  assert (Htruthy : JS.truthy (Some token) = true).
  { simpl. now destruct (String.eqb_spec token ""). }
  rewrite Hc, Ht, Htruthy. simpl fst. eexists. split; [reflexivity|].
  repeat split. unfold cookiesToSet, cauthPair. simpl cauth. simpl cookies.
  rewrite Htruthy. simpl JS.text. now rewrite String.eqb_refl, andb_false_r.
Qed.

Lemma token_alone_gives_one_secure_cookie_witness :
  exists cfg,
    fst (getCourseraConfig Samples.noFiles
           (Env.mkProcess false {[ "COURSERA_CAUTH" := "abc" ]})) = Eff.Ok cfg
    /\ cookies cfg = "CAUTH=abc"
    /\ cauth cfg = Some "abc"
    /\ cookiesToSet cfg
       = [mkCookie "CAUTH" "abc" ".coursera.org" "/" (Some true) (Some true)].
Proof.
  apply (token_alone_gives_one_secure_cookie Samples.noFiles
           (Env.mkProcess false {[ "COURSERA_CAUTH" := "abc" ]}) "abc");
    [vm_compute; reflexivity | vm_compute; reflexivity | discriminate].
Defined.

End Credentials.

(** ** Invariants of the registry, by the events a computation may emit *)

Section ClosedInvariants.
Import Notions Coursera.
Variable w : World.
Variable cfg : Config.
Variable ok : Event -> Prop.
Variable I : Registry -> Prop.
Hypothesis I_closed : Closed ok I.

Lemma ckeeps_now : Eff.keeps I now.
Proof. intros r H. exact H. Qed.

Lemma ckeeps_emit ev : ok ev -> Eff.keeps I (emit ev).
Proof. intros Hev r H. now apply (closed_emit ok I I_closed). Qed.

Lemma ckeeps_call {A} ev (answer : nat -> Eff.Result A) :
  ok ev -> Eff.keeps I (call ev answer).
Proof.
  intros Hev. unfold call.
  apply keeps_bind; [apply ckeeps_now|intros t].
  apply keeps_bind; [now apply ckeeps_emit|intros _]. apply keeps_settle.
Qed.

Lemma ckeeps_callVoid ev answer : ok ev -> Eff.keeps I (callVoid ev answer).
Proof. intros Hev. now apply ckeeps_call. Qed.

Lemma ckeeps_getBrowser : ok EvLaunch -> Eff.keeps I (getBrowser w).
Proof.
  intros Hok r H. unfold getBrowser, Eff.bind, Eff.get.
  destruct (browserPromise r) as [p|] eqn:Hp; simpl; [exact H|].
  apply (closed_promise ok I I_closed
           (mkRegistry (browserPromise r) (pages r) (trace r ++ [EvLaunch]))).
  now apply (closed_emit ok I I_closed).
Qed.

Lemma ckeeps_newPage :
  ok EvNewPageFailed -> (forall page, ok (EvNewPage page)) ->
  Eff.keeps I (newPage w).
Proof.
  intros Hfail Hnew r H. unfold newPage, Eff.bind, now.
  destruct (w_newPage w (length (trace r))); simpl.
  - now apply (closed_emit ok I I_closed).
  - apply (closed_emit ok I I_closed
             (mkRegistry (browserPromise r) (S (pages r)) (trace r)));
      [apply Hnew|].
    now apply (closed_pages ok I I_closed).
Qed.

Lemma ckeeps_courseraFetch url :
  ok (EvFetch url (cookies cfg)) -> Eff.keeps I (courseraFetch w cfg url).
Proof.
  intros Hok. unfold courseraFetch.
  apply keeps_bind; [now apply ckeeps_call|intros response].
  repeat keeps_step.
Qed.

(** A tool call keeps what the handler of the named tool keeps: the
    dispatch itself, and what [Object.prototype] provides, touch nothing. *)
Lemma callTool_keeps (J : Registry -> Prop) name args :
  (forall h, JS.assoc name (ownHandlers w cfg) = Some h ->
             Eff.keeps J (h (orEmpty args))) ->
  Eff.keeps J (callTool w cfg name args).
Proof.
  intros H. unfold callTool, toolHandlers.
  destruct (JS.assoc name (ownHandlers w cfg)) as [h|] eqn:Hown.
  - apply keeps_bind; [now apply H|]. intros result. apply keeps_ret.
  - destruct (existsb _ _); [|apply keeps_throw].
    apply keeps_bind; [|intros result; apply keeps_ret].
    unfold inheritedMember, typeError. repeat keeps_step.
Qed.

End ClosedInvariants.

(** ** The tools that only use the API *)

Section ApiTools.
Import Notions Coursera.
Variable w : World.
Variable cfg : Config.

Lemma extends_closed P r0 : Closed P (extends P r0).
Proof.
  split; unfold extends; simpl.
  - intros r ev Hev (evs & -> & HP). exists (evs ++ [ev])%list.
    split; [now rewrite app_assoc|].
    apply Forall_app. split; [exact HP | now constructor].
  - intros r n H. exact H.
  - intros r p H. exact H.
Qed.

Lemma extends_refl P r : extends P r r.
Proof. exists []. split; [now rewrite app_nil_r | constructor]. Qed.

Ltac api_step :=
  match goal with
  | |- Eff.keeps _ (courseraFetch _ _ _) =>
      apply (ckeeps_courseraFetch w cfg (requestWith (cookies cfg)) _
               (extends_closed _ _));
      eexists; reflexivity
  | |- Eff.keeps _ (catchNull _) => unfold catchNull
  | |- _ => keeps_step
  end.

(** X7. The tools [list_enrollments], [get_course] and
    [list_degree_programs] never reach the browser: whatever the upstream
    answers, all they add to the log of upstream calls are API requests,
    each carrying the configured cookie string as its Cookie header. *)
Theorem api_tools_only_send_requests (name : string)
    (args : option Json.Fields) (r : Registry) :
  In name ["list_enrollments"; "get_course"; "list_degree_programs"] ->
  extends (requestWith (cookies cfg)) r (snd (callTool w cfg name args r)).
Proof.
  intros Hname.
  apply (callTool_keeps w cfg (extends (requestWith (cookies cfg)) r));
    [|apply extends_refl].
  intros h.
  destruct Hname as [<-|[<-|[<-|[]]]]; intros [= <-].
  - unfold listEnrollments. repeat api_step.
  - unfold getCourse. repeat api_step.
  - unfold listDegreePrograms. repeat api_step.
Qed.

Lemma tryCatch_ret_ok {S A} (m : Eff.M S A) (f : Eff.JsError -> A) (s : S) :
  exists v, fst (Eff.tryCatch m (fun e => Eff.ret (f e)) s) = Eff.Ok v.
Proof.
  unfold Eff.tryCatch. destruct (m s) as [[a|e] s']; eexists; reflexivity.
Qed.

Lemma listEnrollments_ok args r :
  exists v, fst (listEnrollments w cfg args r) = Eff.Ok v.
Proof. unfold listEnrollments. apply tryCatch_ret_ok. Qed.

Lemma listDegreePrograms_ok args r :
  exists v, fst (listDegreePrograms w cfg args r) = Eff.Ok v.
Proof. unfold listDegreePrograms. apply tryCatch_ret_ok. Qed.

Lemma respond_ok (h : Handler) args r :
  (exists v, fst (h (orEmpty args) r) = Eff.Ok v) ->
  exists v, fst (respond h args r) = Eff.Ok (formatToolResponse v).
Proof.
  intros [v Hv]. exists v. unfold respond, Eff.bind.
  destruct (h (orEmpty args) r) as [res r']. simpl in Hv. now rewrite Hv.
Qed.

(** X8. [list_enrollments] and [list_degree_programs] never fail: whatever
    the arguments and whatever the upstream does, the call returns a
    result (on a failure, an object that describes it). *)
Theorem listings_never_throw (args : option Json.Fields) (r : Registry) :
  (exists v, fst (callTool w cfg "list_enrollments" args r)
             = Eff.Ok (formatToolResponse v))
  /\ (exists v, fst (callTool w cfg "list_degree_programs" args r)
                = Eff.Ok (formatToolResponse v)).
Proof.
  split.
  - apply (respond_ok (listEnrollments w cfg)), listEnrollments_ok.
  - apply (respond_ok (listDegreePrograms w cfg)), listDegreePrograms_ok.
Qed.

Lemma courseraFetch_state url r :
  snd (courseraFetch w cfg url r)
  = mkRegistry (browserPromise r) (pages r)
      (trace r ++ [EvFetch url (cookies cfg)]).
Proof.
  unfold courseraFetch, call, Eff.bind, now, emit, Eff.modify, Eff.settle.
  simpl. destruct (w_fetch w (length (trace r))) as [response|e]; simpl;
    [|reflexivity].
  destruct (negb (r_ok response)); [reflexivity|].
  destruct (match r_contentType response with
            | Some ct => JS.includes ct "application/json"
            | None => false
            end); reflexivity.
Qed.

Lemma take_length_le (n : nat) (s : string) : String.length (JS.take n s) <= n.
Proof.
  revert s. induction n as [|n IH]; intros [|c s]; simpl; try lia.
  specialize (IH s). lia.
Qed.

Lemma prefix_take (n : nat) (s : string) : String.prefix (JS.take n s) s = true.
Proof.
  revert s. induction n as [|n IH]; intros [|c s]; simpl; try reflexivity.
  destruct (ascii_dec c c) as [_|Hne]; [apply IH | now elim Hne].
Qed.

Lemma limitOf_default args :
  Json.truthy (Json.lookup "limit" args) = false ->
  limitOf args = Json.Num DEFAULT_PER_PAGE.
Proof. intros H. unfold limitOf, Json.or. now rewrite H. Qed.

Lemma listEnrollments_failed_request args r limitText :
  requestFails w cfg r ->
  Json.toString (limitOf args) = Some limitText ->
  listEnrollments w cfg args r
  = (Eff.Ok emptyEnrollments,
     mkRegistry (browserPromise r) (pages r)
       (trace r ++ [EvFetch (membershipsUrl limitText) (cookies cfg)])).
Proof.
  intros Hfail Htext. rewrite <- courseraFetch_state.
  destruct (Hfail (membershipsUrl limitText)) as [e He].
  unfold listEnrollments, catchNull, toText.
  fold (limitOf args). rewrite Htext.
  unfold Eff.tryCatch at 1. unfold Eff.bind at 1. unfold Eff.ret at 1.
  unfold Eff.bind at 1. unfold Eff.tryCatch at 1.
  fold (membershipsUrl limitText).
  destruct (courseraFetch w cfg _ r) as [[v|e'] r1]; [discriminate He|].
  reflexivity.
Qed.

(** X9. When the memberships request fails (the network fails, the
    upstream answers with an error status, or its JSON does not parse),
    [list_enrollments] does not report it: with a limit that converts to a
    text it sends that one request and answers with empty lists and no
    user id (without a limit the request asks for 50); with a limit that
    cannot be converted it sends nothing and answers with the error
    object. *)
Theorem list_enrollments_hides_a_failed_request (args : Json.Fields)
    (r : Registry) :
  requestFails w cfg r ->
  (Json.toString (limitOf args) <> None ->
     exists url,
       listEnrollments w cfg args r
       = (Eff.Ok emptyEnrollments,
          mkRegistry (browserPromise r) (pages r)
            (trace r ++ [EvFetch url (cookies cfg)])))
  /\ (Json.truthy (Json.lookup "limit" args) = false ->
      listEnrollments w cfg args r
      = (Eff.Ok emptyEnrollments,
         mkRegistry (browserPromise r) (pages r)
           (trace r ++ [EvFetch (membershipsUrl "50") (cookies cfg)])))
  /\ (Json.toString (limitOf args) = None ->
      listEnrollments w cfg args r
      = (Eff.Ok (Json.Obj
                   [("error", Json.Str (Eff.message conversionError));
                    ("hint", Json.Str "Try refreshing your CAUTH cookie from the browser")]),
         r)).
Proof.
  intros Hfail. split; [|split].
  - intros Hconv.
    destruct (Json.toString (limitOf args)) as [limitText|] eqn:Htext;
      [|now elim Hconv].
    exists (membershipsUrl limitText).
    now apply listEnrollments_failed_request.
  - intros Hnone. apply listEnrollments_failed_request; [exact Hfail|].
    now rewrite limitOf_default.
  - intros Htext. unfold listEnrollments, toText.
    fold (limitOf args). rewrite Htext. reflexivity.
Qed.

(** X10. When the upstream answers the one request of
    [list_degree_programs] with an error status, the tool answers with an
    error object whose message names the status and quotes at most the
    first 500 characters of the response body. *)
Theorem list_degree_programs_reports_a_refused_request (args : Json.Fields)
    (r : Registry) (response : FetchResponse) :
  w_fetch w (length (trace r)) = Eff.Ok response ->
  r_ok response = false ->
  exists detail,
    listDegreePrograms w cfg args r
    = (Eff.Ok (Json.Obj
                 [("error", Json.Str ("Coursera API error "
                                      ++ Json.decimal (r_status response)
                                      ++ ": " ++ detail));
                  ("hint", Json.Str "Degree program access requires valid authentication")]),
       mkRegistry (browserPromise r) (pages r)
         (trace r ++ [EvFetch degreeMembershipsUrl (cookies cfg)]))
    /\ String.length detail <= 500
    /\ String.prefix detail (r_text response) = true.
Proof.
  intros Hfetch Hok. exists (JS.take 500 (r_text response)).
  split; [|split; [apply take_length_le | apply prefix_take]].
  unfold listDegreePrograms, courseraFetch, call, Eff.tryCatch, Eff.bind, now,
    emit, Eff.modify, Eff.settle. simpl.
  rewrite Hfetch, Hok. reflexivity.
Qed.

End ApiTools.

Lemma api_tools_only_send_requests_witness :
  Notions.extends (Notions.requestWith "CAUTH=abc") Coursera.freshRegistry
    (snd (Coursera.callTool Samples.calmWorld Samples.tokenConfig "get_course"
            (Some [("course_slug", Json.Str "machine learning")])
            Coursera.freshRegistry)).
Proof.
  apply (api_tools_only_send_requests Samples.calmWorld Samples.tokenConfig
           "get_course"). right. left. reflexivity.
Defined.

Lemma list_enrollments_hides_a_failed_request_witness :
  Coursera.listEnrollments Scenarios.refusingWorld Samples.tokenConfig []
    Coursera.freshRegistry
  = (Eff.Ok Notions.emptyEnrollments,
     Coursera.mkRegistry None 0
       [Coursera.EvFetch
          "https://www.coursera.org/api/memberships.v1?q=me&includes=programs,courses&limit=50"
          "CAUTH=abc"]).
Proof.
  destruct (list_enrollments_hides_a_failed_request Scenarios.refusingWorld
              Samples.tokenConfig [] Coursera.freshRegistry) as (_ & H & _).
  - intros url. eexists. reflexivity.
  - apply H. reflexivity.
Defined.

Lemma list_degree_programs_reports_a_refused_request_witness :
  exists detail,
    fst (Coursera.listDegreePrograms Scenarios.refusingWorld Samples.tokenConfig
           [] Coursera.freshRegistry)
    = Eff.Ok (Json.Obj
                [("error", Json.Str ("Coursera API error 401: " ++ detail));
                 ("hint", Json.Str "Degree program access requires valid authentication")])
    /\ String.length detail <= 500.
Proof.
  destruct (list_degree_programs_reports_a_refused_request
              Scenarios.refusingWorld Samples.tokenConfig []
              Coursera.freshRegistry
              (Coursera.mkResponse false 401 "Unauthorized" (Some "text/plain")
                 (Eff.Throw (Eff.Err "Unexpected token U in JSON")))
              eq_refl eq_refl) as (detail & Hrun & Hlen & _).
  exists detail. split; [now rewrite Hrun | exact Hlen].
Defined.

(** ** The course slug in the API request *)

Section Escaping.
Import Notions Coursera.

Lemma encodeURIComponent_cons (c : ascii) (s : string) :
  JS.encodeURIComponent (String c s)
  = JS.encodeURIComponent (String c "") ++ JS.encodeURIComponent s.
Proof. simpl. now rewrite append_empty_r. Qed.

Lemma encoded_char_safe (c : ascii) :
  JS.all_chars uriSafe (JS.encodeURIComponent (String c "")) = true.
Proof.
  destruct c as [b0 b1 b2 b3 b4 b5 b6 b7].
  destruct b0, b1, b2, b3, b4, b5, b6, b7; vm_compute; reflexivity.
Qed.

Lemma encodeURIComponent_safe (s : string) :
  JS.all_chars uriSafe (JS.encodeURIComponent s) = true.
Proof.
  induction s as [|c s IH]; [reflexivity|].
  now rewrite encodeURIComponent_cons, all_chars_app, encoded_char_safe, IH.
Qed.

Lemma all_chars_impl (p q : ascii -> bool) (s : string) :
  (forall c, p c = true -> q c = true) ->
  JS.all_chars p s = true -> JS.all_chars q s = true.
Proof.
  intros Hpq. induction s as [|c s IH]; simpl; [reflexivity|].
  intros [Hc Hs]%andb_true_iff. now rewrite (Hpq c Hc), IH.
Qed.

Lemma safe_is_free (d : ascii) (s : string) :
  uriSafe d = false -> JS.all_chars uriSafe s = true -> free d s = true.
Proof.
  intros Hd. apply all_chars_impl. intros c Hc.
  destruct (Ascii.eqb_spec c d) as [->|_]; [congruence | reflexivity].
Qed.

(** X11. For a [course_slug] that converts to a text (of characters below
    U+0100, the strings of this development), [get_course] sends one
    request, to the slug lookup of the API with the slug percent-encoded
    (for a string, the encoding of that string): the encoded slug consists
    of unreserved characters and [%] only, so it holds no [&], [=], [#],
    [?], [/] or space and cannot alter the query. *)
Theorem get_course_escapes_the_slug (w : World) (cfg : Config)
    (args : Json.Fields) (r : Registry) :
  Json.toString (Json.lookup "course_slug" args) <> None ->
  exists escaped,
    trace (snd (getCourse w cfg args r))
    = (trace r
       ++ [EvFetch (COURSERA_API_BASE ++ "/onDemandCourses.v1?q=slug&slug="
                    ++ escaped
                    ++ "&fields=id,name,slug,description,primaryLanguages,instructorIds,partnerIds,workload,photoUrl")
             (cookies cfg)])%list
    /\ (forall s, Json.lookup "course_slug" args = Json.Str s ->
                  escaped = JS.encodeURIComponent s)
    /\ JS.all_chars uriSafe escaped = true
    /\ Forall (fun d => free d escaped = true)
         ["&"; "="; "#"; "?"; "/"; " "]%char.
Proof.
  intros Hconv.
  destruct (Json.toString (Json.lookup "course_slug" args)) as [slugText|]
    eqn:Htext; [|now elim Hconv].
  exists (JS.encodeURIComponent slugText).
  split; [now apply getCourse_trace|].
  split; [intros s Hs; rewrite Hs in Htext; now injection Htext as <-|].
  split; [apply encodeURIComponent_safe|].
  repeat constructor; apply safe_is_free;
    (reflexivity || apply encodeURIComponent_safe).
Qed.

Lemma get_course_escapes_the_slug_witness :
  exists escaped,
    Coursera.trace
      (snd (getCourse Samples.calmWorld Samples.tokenConfig
              [("course_slug", Json.Str "a&b=c d")] freshRegistry))
    = [EvFetch (COURSERA_API_BASE ++ "/onDemandCourses.v1?q=slug&slug="
                ++ escaped
                ++ "&fields=id,name,slug,description,primaryLanguages,instructorIds,partnerIds,workload,photoUrl")
         "CAUTH=abc"]
    /\ escaped = "a%26b%3Dc%20d".
Proof.
  destruct (get_course_escapes_the_slug Samples.calmWorld Samples.tokenConfig
              [("course_slug", Json.Str "a&b=c d")] freshRegistry)
    as (escaped & Htrace & Hstring & _); [discriminate|].
  exists escaped. split; [exact Htrace|]. now rewrite (Hstring _ eq_refl).
Defined.

End Escaping.

(** ** Where the browser is sent *)

Section Navigation.
Import Notions Coursera.
Variable w : World.
Variable cfg : Config.
Variable r0 : Registry.

Ltac nav_step :=
  match goal with
  | |- Eff.keeps _ now => apply ckeeps_now
  | |- Eff.keeps _ (call _ _) =>
      eapply ckeeps_call; [apply (extends_closed confined r0) | exact I]
  | |- Eff.keeps _ (callVoid _ _) =>
      eapply ckeeps_callVoid;
      [apply (extends_closed confined r0)
      | first [exact I | eexists; reflexivity | simpl; auto]]
  | |- Eff.keeps _ (getBrowser _) =>
      eapply ckeeps_getBrowser; [apply (extends_closed confined r0) | exact I]
  | |- Eff.keeps _ (newPage _) =>
      eapply ckeeps_newPage;
      [apply (extends_closed confined r0) | exact I | intros; exact I]
  | |- Eff.keeps _ (courseraFetch _ _ _) =>
      eapply ckeeps_courseraFetch;
      [apply (extends_closed confined r0) | exact I]
  | |- Eff.keeps _ (catchNull _) => unfold catchNull
  | |- _ => keeps_step
  end.

Lemma nav_fetchPageContent url :
  courseUrl url ->
  Eff.keeps (extends confined r0) (fetchPageContent w cfg (Json.Str url)).
Proof.
  intros [rest ->].
  unfold fetchPageContent, createAuthenticatedPage, closePage.
  repeat nav_step.
Qed.

Lemma nav_withPage {A} url (body : nat -> Eff.M Registry A) :
  courseUrl url ->
  (forall page, Eff.keeps (extends confined r0) (body page)) ->
  Eff.keeps (extends confined r0) (withPage w cfg url body).
Proof.
  intros [rest ->] Hbody.
  unfold withPage, createAuthenticatedPage, closePage.
  repeat (apply Hbody || nav_step).
Qed.

Lemma courseUrl_learn slug rest : courseUrl (learnUrl slug rest).
Proof. unfold learnUrl. eexists. reflexivity. Qed.

Lemma courseUrl_item kind slug id name : courseUrl (itemUrl kind slug id name).
Proof. unfold itemUrl. apply courseUrl_learn. Qed.

Lemma nav_probeAssignment cs id urls :
  Forall courseUrl urls ->
  Eff.keeps (extends confined r0) (probeAssignment w cfg cs id urls).
Proof.
  induction urls as [|url rest IH]; intros Hall; simpl; [repeat nav_step|].
  apply Forall_cons_iff in Hall as [Hurl Hrest].
  apply keeps_bind.
  - apply keeps_tryCatch; [|intros e; apply keeps_ret].
    apply keeps_bind; [now apply nav_fetchPageContent|].
    intros result. destruct (plausible result); apply keeps_ret.
  - intros [answer|]; [apply keeps_ret | now apply IH].
Qed.

Ltac handler_nav_step :=
  match goal with
  | |- Eff.keeps _ (fetchPageContent _ _ _) =>
      apply nav_fetchPageContent;
      first [apply courseUrl_item | apply courseUrl_learn]
  | |- Eff.keeps _ (withPage _ _ _ _) =>
      apply nav_withPage;
      [first [apply courseUrl_item | apply courseUrl_learn] | intros ?]
  | |- _ => nav_step
  end.

Lemma nav_own_handlers name h args :
  name <> "get_page_content" ->
  JS.assoc name (ownHandlers w cfg) = Some h ->
  Eff.keeps (extends confined r0) (h args).
Proof.
  intros Hname. unfold ownHandlers. simpl.
  repeat match goal with
         | |- context [if String.eqb name ?x then _ else _] =>
             destruct (String.eqb_spec name x) as [->|?];
             [first [congruence | intros [= <-]] | ]
         end; try discriminate.
  - unfold listEnrollments. repeat handler_nav_step.
  - unfold getCourse. repeat handler_nav_step.
  - unfold listCourseMaterials. repeat handler_nav_step.
  - unfold getReading, itemTexts. repeat handler_nav_step.
  - unfold getLecture, itemTexts. repeat handler_nav_step.
  - unfold listAssignments. repeat handler_nav_step.
  - unfold getAssignment, itemTexts, assignmentUrls.
    repeat first [ apply nav_probeAssignment; repeat constructor;
                   apply courseUrl_item
                 | handler_nav_step ].
  - unfold getProgress. repeat handler_nav_step.
  - unfold listDegreePrograms. repeat handler_nav_step.
Qed.

End Navigation.

(** X12. Only [get_page_content] takes the address to visit from the
    caller: every navigation any other tool call makes, whatever its
    arguments, goes to a URL that starts with
    [https://www.coursera.org/learn/], so to the Coursera host. *)
Theorem tool_navigation_stays_on_the_coursera_host (w : Coursera.World)
    (cfg : Coursera.Config) (name : string) (args : option Json.Fields)
    (r : Coursera.Registry) :
  name <> "get_page_content" ->
  Notions.extends Notions.confined r (snd (Coursera.callTool w cfg name args r)).
Proof.
  intros Hname.
  apply (callTool_keeps w cfg (Notions.extends Notions.confined r));
    [|apply extends_refl].
  intros h Hh. now apply (nav_own_handlers w cfg r name).
Qed.

Lemma tool_navigation_stays_on_the_coursera_host_witness :
  Notions.extends Notions.confined Coursera.freshRegistry
    (snd (Coursera.callTool Samples.calmWorld Samples.tokenConfig "get_reading"
            (Some [("course_slug", Json.Str "ml"); ("item_id", Json.Str "QcAx4")])
            Coursera.freshRegistry)).
Proof.
  apply (tool_navigation_stays_on_the_coursera_host Samples.calmWorld
           Samples.tokenConfig "get_reading").
  discriminate.
Defined.

(** ** Pages opened and pages closed *)

Section Pages.
Import Notions Coursera.
Variable w : World.
Variable cfg : Config.
Hypothesis setup_ok : setupNeverFails w.

Lemma balance_closed a b : Closed neutral (balance a b).
Proof.
  split; unfold balance, opens, closes; simpl.
  - intros r ev [Hn Hc] H. rewrite !filter_snoc, Hn, Hc. now rewrite !app_nil_r.
  - intros r n H. exact H.
  - intros r p H. exact H.
Qed.

Lemma opens_snoc r ev :
  opens (mkRegistry (browserPromise r) (pages r) (trace r ++ [ev]))
  = opens r + if isNewPage ev then 1 else 0.
Proof.
  unfold opens. simpl. rewrite filter_snoc, length_app.
  now destruct (isNewPage ev).
Qed.

Ltac bal_step a b :=
  match goal with
  | |- Eff.keeps _ now => apply ckeeps_now
  | |- Eff.keeps _ (call _ _) =>
      eapply ckeeps_call; [apply (balance_closed a b) | split; reflexivity]
  | |- Eff.keeps _ (callVoid _ _) =>
      eapply ckeeps_callVoid; [apply (balance_closed a b) | split; reflexivity]
  | |- Eff.keeps _ (getBrowser _) =>
      eapply ckeeps_getBrowser; [apply (balance_closed a b) | split; reflexivity]
  | |- Eff.keeps _ (courseraFetch _ _ _) =>
      eapply ckeeps_courseraFetch;
      [apply (balance_closed a b) | split; reflexivity]
  | |- Eff.keeps _ (catchNull _) => unfold catchNull
  | |- _ => keeps_step
  end.

(** [browser.newPage()] opens one page, or fails and opens none. *)
Lemma newPage_outcome r :
  match newPage w r with
  | (Eff.Ok _, r1) => opens r1 = S (opens r) /\ closes r1 = closes r
  | (Eff.Throw _, r1) => opens r1 = opens r /\ closes r1 = closes r
  end.
Proof.
  unfold newPage, Eff.bind, now, emit, Eff.modify, Eff.get, Eff.throw, Eff.ret.
  destruct (w_newPage w (length (trace r))); simpl;
    unfold opens, closes; simpl; rewrite !filter_snoc; simpl;
    rewrite ?app_nil_r, ?length_app; simpl; split; lia.
Qed.

(** With a set-up that never fails, [createAuthenticatedPage] returns the
    one page it opened, or fails having opened none. *)
Lemma createAuthenticatedPage_outcome a b r :
  balance a b r ->
  match createAuthenticatedPage w cfg r with
  | (Eff.Ok _, r1) => balance a (S b) r1
  | (Eff.Throw _, r1) => balance a b r1
  end.
Proof.
  intros Hr. destruct setup_ok as (Hcookie & Hagent & Hview).
  unfold createAuthenticatedPage. unfold Eff.bind at 1.
  pose proof (ckeeps_getBrowser w neutral _ (balance_closed a b)
                ltac:(split; reflexivity) r Hr) as Hb.
  destruct (getBrowser w r) as [[promise|e] r1]; simpl in Hb; [|exact Hb].
  unfold Eff.bind at 1. unfold Eff.settle at 1.
  destruct promise as [u|e]; [|exact Hb].
  unfold Eff.bind at 1.
  pose proof (newPage_outcome r1) as Hn.
  destruct (newPage w r1) as [[page|e] r2].
  - destruct Hn as [Ho Hc].
    assert (H2 : balance a (S b) r2) by (unfold balance in *; lia).
    assert (Hrest : forall s, balance a (S b) s ->
              match (Eff.bind
                       (if (0 <? length (cookiesToSet cfg))%nat
                        then callVoid (EvSetCookie page (cookiesToSet cfg))
                               (w_setCookie w)
                        else Eff.ret tt)
                       (fun _ =>
                          Eff.bind (callVoid (EvSetUserAgent page USER_AGENT)
                                      (w_setUserAgent w))
                            (fun _ =>
                               Eff.bind (callVoid (EvSetViewport page 1280 800)
                                           (w_setViewport w))
                                 (fun _ => Eff.ret page)))) s with
              | (Eff.Ok _, s') => balance a (S b) s'
              | (Eff.Throw _, s') => balance a b s'
              end).
    { intros s Hs.
      unfold callVoid, call, Eff.bind, now, emit, Eff.modify, Eff.settle,
        Eff.ret, Eff.voidResult.
      destruct (0 <? length (cookiesToSet cfg))%nat; simpl;
        rewrite ?Hcookie, ?Hagent, ?Hview; simpl;
        unfold balance, opens, closes in *; simpl;
        rewrite !List.filter_app; simpl; rewrite !app_nil_r; exact Hs. }
    exact (Hrest r2 H2).
  - destruct Hn as [Ho Hc]. unfold balance in *. lia.
Qed.

(** The unit all page handlers are made of: open a page, run a body that
    opens and closes nothing, close the page whatever happened. *)
Lemma page_unit {A} (body : nat -> Eff.M Registry A) a b :
  (forall page a' b', Eff.keeps (balance a' b') (body page)) ->
  Eff.keeps (balance a b)
    (Eff.bind (createAuthenticatedPage w cfg)
       (fun page => Eff.tryFinally (body page) (closePage w page))).
Proof.
  intros Hbody r Hr. unfold Eff.bind.
  pose proof (createAuthenticatedPage_outcome a b r Hr) as Hout.
  destruct (createAuthenticatedPage w cfg r) as [[page|e] r1]; [|exact Hout].
  specialize (Hbody page a (S b) r1 Hout).
  unfold balance, opens, closes in *.
  rewrite finally_closes_page, !filter_snoc. simpl.
  rewrite app_nil_r, length_app. simpl. lia.
Qed.

Lemma bal_fetchPageContent url a b :
  Eff.keeps (balance a b) (fetchPageContent w cfg url).
Proof.
  unfold fetchPageContent. apply page_unit. intros page a' b'.
  repeat bal_step a' b'.
Qed.

Lemma bal_withPage {A} url (body : nat -> Eff.M Registry A) a b :
  (forall page a' b', Eff.keeps (balance a' b') (body page)) ->
  Eff.keeps (balance a b) (withPage w cfg url body).
Proof.
  intros Hbody. unfold withPage. apply page_unit. intros page a' b'.
  apply keeps_bind; [bal_step a' b' | intros _; apply Hbody].
Qed.

Ltac handler_bal_step a b :=
  match goal with
  | |- Eff.keeps _ (fetchPageContent _ _ _) => apply bal_fetchPageContent
  | |- Eff.keeps (balance ?x ?y) (withPage _ _ _ _) =>
      apply bal_withPage; let a' := fresh "a" in let b' := fresh "b" in
      intros ? a' b'; repeat bal_step a' b'
  | |- _ => bal_step a b
  end.

Lemma bal_probeAssignment cs id urls a b :
  Eff.keeps (balance a b) (probeAssignment w cfg cs id urls).
Proof.
  induction urls as [|url rest IH]; simpl; [repeat bal_step a b|].
  apply keeps_bind.
  - apply keeps_tryCatch; [|intros e; apply keeps_ret].
    apply keeps_bind; [apply bal_fetchPageContent|].
    intros result. destruct (plausible result); apply keeps_ret.
  - intros [answer|]; [apply keeps_ret | exact IH].
Qed.

Lemma bal_own_handlers name h args a b :
  JS.assoc name (ownHandlers w cfg) = Some h ->
  Eff.keeps (balance a b) (h args).
Proof.
  unfold ownHandlers. simpl.
  repeat (destruct (String.eqb name _);
          [intros [= <-] | ]); try discriminate.
  - unfold listEnrollments. repeat handler_bal_step a b.
  - unfold getCourse. repeat handler_bal_step a b.
  - unfold listCourseMaterials. repeat handler_bal_step a b.
  - unfold getPageContent. repeat handler_bal_step a b.
  - unfold getReading, itemTexts. repeat handler_bal_step a b.
  - unfold getLecture, itemTexts. repeat handler_bal_step a b.
  - unfold listAssignments. repeat handler_bal_step a b.
  - unfold getAssignment, itemTexts.
    repeat first [apply bal_probeAssignment | handler_bal_step a b].
  - unfold getProgress. repeat handler_bal_step a b.
  - unfold listDegreePrograms. repeat handler_bal_step a b.
Qed.

Lemma bal_invokeAll calls : forall r a b,
  balance a b r -> balance a b (invokeAll w cfg r calls).
Proof.
  induction calls as [|c calls IH]; intros r a b H; simpl; [exact H|].
  apply IH. unfold invoke. apply callTool_keeps; [|exact H].
  intros h. apply bal_own_handlers.
Qed.

(** X13. While the set-up of pages does not fail, no tool call leaves a
    page behind: after any sequence of tool calls on a fresh registry,
    with any arguments and outcomes (failed navigations and failing
    handlers included), every page that was opened has been closed. *)
Theorem every_opened_page_is_closed (calls : list (string * option Json.Fields)) :
  let r := invokeAll w cfg freshRegistry calls in
  opens r = closes r.
Proof.
  intros r.
  assert (H : balance 0 0 r) by (apply bal_invokeAll; reflexivity).
  unfold balance in H. lia.
Qed.

End Pages.

Lemma every_opened_page_is_closed_witness :
  let r := Coursera.invokeAll Samples.calmWorld Samples.oddCookieConfig
             Coursera.freshRegistry
             [("get_reading", Some [("course_slug", Json.Str "ml");
                                    ("item_id", Json.Str "QcAx4")]);
              ("get_assignment", None)] in
  Notions.opens r = Notions.closes r /\ Notions.opens r = 4.
Proof.
  intros r. split; [|vm_compute; reflexivity].
  apply (every_opened_page_is_closed Samples.calmWorld Samples.oddCookieConfig).
  repeat split.
Defined.

(** ** The address check of [get_page_content] *)

Section CheckedAddress.
Import Notions Coursera.
Variable w : World.
Variable cfg : Config.

Lemma navigations_snoc evs ev :
  navigations (evs ++ [ev]) = (navigations evs ++ visited ev)%list.
Proof. unfold navigations. rewrite flat_map_app. simpl. now rewrite app_nil_r. Qed.

Lemma navigations_closed l : Closed quiet (fun r => navigations (trace r) = l).
Proof.
  split; simpl.
  - intros r ev Hev H. rewrite navigations_snoc, Hev, app_nil_r. exact H.
  - intros r n H. exact H.
  - intros r p H. exact H.
Qed.

Ltac quiet_step l :=
  match goal with
  | |- Eff.keeps _ now => apply ckeeps_now
  | |- Eff.keeps _ (call _ _) =>
      eapply ckeeps_call; [apply (navigations_closed l) | reflexivity]
  | |- Eff.keeps _ (callVoid _ _) =>
      eapply ckeeps_callVoid; [apply (navigations_closed l) | reflexivity]
  | |- Eff.keeps _ (getBrowser _) =>
      eapply ckeeps_getBrowser; [apply (navigations_closed l) | reflexivity]
  | |- Eff.keeps _ (newPage _) =>
      eapply ckeeps_newPage;
      [apply (navigations_closed l) | reflexivity | intros; reflexivity]
  | |- _ => keeps_step
  end.

Lemma quiet_createAuthenticatedPage l :
  Eff.keeps (fun r => navigations (trace r) = l) (createAuthenticatedPage w cfg).
Proof. unfold createAuthenticatedPage. repeat quiet_step l. Qed.

Lemma quiet_page_extraction page l :
  Eff.keeps (fun r => navigations (trace r) = l)
    (Eff.bind
       (Eff.tryCatch
          (callVoid (EvWaitForSelector page defaultWaitForSelector)
             (w_waitForSelector w))
          (fun _ => Eff.ret tt))
       (fun _ =>
          Eff.bind (call (EvEvaluate page) (w_evaluateContent w)) (fun content =>
          Eff.bind (call (EvTitle page) (w_title w)) (fun title =>
          Eff.bind now (fun t =>
          Eff.ret (mkPageResult title (w_pageUrl w t) (pc_text content)
                     (pc_html content) (pc_selector content))))))).
Proof. repeat quiet_step l. Qed.

(** [fetchPageContent] navigates once, to the address it was given, when
    the page could be set up, and nowhere otherwise. *)
Lemma fetchPageContent_navigations url r :
  Json.toString url <> None ->
  navigations (trace (snd (fetchPageContent w cfg url r)))
  = (navigations (trace r)
     ++ match fst (createAuthenticatedPage w cfg r) with
        | Eff.Ok _ => [url]
        | Eff.Throw _ => []
        end)%list.
Proof.
  intros Hconv. unfold fetchPageContent. unfold Eff.bind at 1.
  pose proof (quiet_createAuthenticatedPage (navigations (trace r)) r eq_refl)
    as Hset.
  destruct (createAuthenticatedPage w cfg r) as [[page|e] r1];
    cbn [fst snd] in *; [|now rewrite app_nil_r].
  rewrite finally_closes_page, navigations_snoc. cbn [visited].
  rewrite app_nil_r.
  unfold Eff.bind at 1. unfold toText.
  destruct (Json.toString url) as [line|]; [|now elim Hconv].
  unfold Eff.ret at 1.
  unfold Eff.bind at 1. unfold callVoid, call.
  unfold Eff.bind at 1. unfold now at 1.
  unfold Eff.bind at 1. unfold emit at 1, Eff.modify at 1.
  unfold Eff.settle at 1, Eff.voidResult. cbn [fst snd trace].
  set (r2 := mkRegistry _ _ (trace r1 ++ [EvGoto page url])).
  assert (H2 : navigations (trace r2) = (navigations (trace r) ++ [url])%list).
  { unfold r2. cbn [trace]. now rewrite navigations_snoc, Hset. }
  destruct (w_goto w (length (trace r1))); [exact H2|].
  now apply (quiet_page_extraction page _ r2).
Qed.

Lemma member_spec (sub : string) (items : list Json.t) :
  existsb (Json.sameValueZero (Json.Str sub)) items = true
  <-> In (Json.Str sub) items.
Proof.
  rewrite existsb_exists. split.
  - intros (x & Hin & Hsame). destruct x; try discriminate Hsame.
    simpl in Hsame. apply String.eqb_eq in Hsame. now subst.
  - intros Hin. exists (Json.Str sub). split; [exact Hin|].
    simpl. apply String.eqb_refl.
Qed.

Lemma getPageContent_passes args r :
  valueIncludes (Json.lookup "url" args) "coursera.org" = Eff.Ok true ->
  getPageContent w cfg args r
  = Eff.bind (fetchPageContent w cfg (Json.lookup "url" args))
      (fun result => Eff.ret (Json.Obj (pageResultFields result))) r.
Proof.
  intros H. unfold getPageContent. unfold Eff.bind at 1. unfold Eff.settle.
  now rewrite H.
Qed.

Lemma getPageContent_refuses args r :
  valueIncludes (Json.lookup "url" args) "coursera.org" = Eff.Ok false ->
  getPageContent w cfg args r
  = (Eff.Throw (Eff.Err "URL must be a Coursera URL"), r).
Proof.
  intros H. unfold getPageContent. unfold Eff.bind at 1. unfold Eff.settle.
  now rewrite H.
Qed.

(** C10, amended. What [getPageContent] does depends on what [url] is.
    A string: it throws [URL must be a Coursera URL], before anything
    reaches the browser, exactly when the string does not contain
    [coursera.org]; a string that contains it anywhere passes, the handler
    becomes [fetchPageContent] of that URL, and the page, once set up, is
    navigated to it. An array: the test is whether [coursera.org] is one
    of its elements. Anything else (a missing [url], [null], a number, a
    boolean, an object): the test itself throws a [TypeError], not
    [URL must be a Coursera URL], and nothing reaches the browser. *)
Theorem C10_page_content_checks_the_url (args : Json.Fields) (r : Registry) :
  let url := Json.lookup "url" args in
  (forall u, url = Json.Str u ->
     (~ contains u "coursera.org" ->
        getPageContent w cfg args r
        = (Eff.Throw (Eff.Err "URL must be a Coursera URL"), r))
     /\ (contains u "coursera.org" ->
         getPageContent w cfg args r
         = Eff.bind (fetchPageContent w cfg url)
             (fun result => Eff.ret (Json.Obj (pageResultFields result))) r
         /\ forall page r1,
              createAuthenticatedPage w cfg r = (Eff.Ok page, r1) ->
              In (EvGoto page url)
                 (trace (snd (getPageContent w cfg args r)))))
  /\ (forall items, url = Json.Arr items ->
       (~ In (Json.Str "coursera.org") items ->
          getPageContent w cfg args r
          = (Eff.Throw (Eff.Err "URL must be a Coursera URL"), r))
       /\ (In (Json.Str "coursera.org") items ->
           getPageContent w cfg args r
           = Eff.bind (fetchPageContent w cfg url)
               (fun result => Eff.ret (Json.Obj (pageResultFields result))) r))
  /\ ((forall u, url <> Json.Str u) -> (forall items, url <> Json.Arr items) ->
      exists e, getPageContent w cfg args r = (Eff.Throw e, r)
                /\ e <> Eff.Err "URL must be a Coursera URL").
Proof.
  intros url. split; [|split].
  - intros u Hurl. split.
    + intros Hnot. apply getPageContent_refuses. fold url. rewrite Hurl. simpl.
      destruct (JS.includes u "coursera.org") eqn:Hinc; [|reflexivity].
      elim Hnot. now apply includes_contains.
    + intros Hin.
      assert (Hrun : getPageContent w cfg args r
                = Eff.bind (fetchPageContent w cfg url)
                    (fun result => Eff.ret (Json.Obj (pageResultFields result))) r).
      { apply getPageContent_passes. fold url. rewrite Hurl. simpl.
        apply includes_contains in Hin. now rewrite Hin. }
      split; [exact Hrun|].
      intros page r1 Hpage. rewrite Hrun. unfold Eff.bind.
      assert (Hconv : Json.toString url <> None) by (rewrite Hurl; discriminate).
      pose proof (fetchPageContent_navigates w cfg url r page r1 Hconv Hpage)
        as Hnav.
      destruct (fetchPageContent w cfg url r) as [[res|e] r']; exact Hnav.
  - intros items Hurl. split.
    + intros Hnot. apply getPageContent_refuses. fold url. rewrite Hurl. simpl.
      destruct (existsb _ items) eqn:Hex; [|reflexivity].
      elim Hnot. now apply member_spec.
    + intros Hin. apply getPageContent_passes. fold url. rewrite Hurl. simpl.
      apply member_spec in Hin. now rewrite Hin.
  - intros Hstr Harr. unfold getPageContent. fold url.
    unfold Eff.bind at 1. unfold Eff.settle.
    destruct url as [| |b|z|u|items|fields]; simpl;
      try (eexists; split; [reflexivity | discriminate]).
    + now elim (Hstr u).
    + now elim (Harr items).
Qed.

End CheckedAddress.

(** C10, as stated, fails: a call without [url] has no [url] that contains
    [coursera.org], and yet the error is not [URL must be a Coursera URL]:
    the test [url.includes] itself throws, on [undefined]. *)
Lemma C10_missing_url_is_a_type_error :
  ~ (forall w cfg args r,
       ~ Notions.urlContains args "coursera.org" ->
       fst (Coursera.getPageContent w cfg args r)
       = Eff.Throw (Eff.Err "URL must be a Coursera URL")).
Proof.
  intros H.
  specialize (H Samples.calmWorld Samples.tokenConfig [] Coursera.freshRegistry).
  assert (Hnone : ~ Notions.urlContains [] "coursera.org")
    by (intros (u & Hu & _); discriminate Hu).
  specialize (H Hnone). vm_compute in H. discriminate H.
Qed.

Lemma C10_witness :
  let elsewhere := Json.Str "https://elsewhere.example/coursera.org" in
  Coursera.getPageContent Samples.calmWorld Samples.tokenConfig
    [("url", Json.Str "https://example.org/learn")] Coursera.freshRegistry
  = (Eff.Throw (Eff.Err "URL must be a Coursera URL"), Coursera.freshRegistry)
  /\ In (Coursera.EvGoto 0 elsewhere)
       (Coursera.trace
          (snd (Coursera.getPageContent Samples.calmWorld Samples.tokenConfig
                  [("url", elsewhere)] Coursera.freshRegistry)))
  /\ (exists e,
        Coursera.getPageContent Samples.calmWorld Samples.tokenConfig
          [("url", Json.Num 7)] Coursera.freshRegistry
        = (Eff.Throw e, Coursera.freshRegistry)
        /\ e <> Eff.Err "URL must be a Coursera URL").
Proof.
  intros elsewhere. split; [|split].
  - destruct (C10_page_content_checks_the_url Samples.calmWorld
                Samples.tokenConfig
                [("url", Json.Str "https://example.org/learn")]
                Coursera.freshRegistry) as [H _].
    destruct (H "https://example.org/learn" eq_refl) as [Hthrow _].
    apply Hthrow. intros Hc. apply includes_contains in Hc. discriminate Hc.
  - destruct (C10_page_content_checks_the_url Samples.calmWorld
                Samples.tokenConfig [("url", elsewhere)]
                Coursera.freshRegistry) as [H _].
    destruct (H "https://elsewhere.example/coursera.org" eq_refl) as [_ Hpass].
    destruct Hpass as [_ Hnav].
    + apply includes_contains. reflexivity.
    + eapply Hnav. vm_compute. reflexivity.
  - destruct (C10_page_content_checks_the_url Samples.calmWorld
                Samples.tokenConfig [("url", Json.Num 7)]
                Coursera.freshRegistry) as (_ & _ & H).
    apply H; intros x; discriminate.
Defined.

(** ** The candidates of [get_assignment] *)

Section Candidates.
Import Notions Coursera.
Variable w : World.
Variable cfg : Config.

Lemma itemTexts_run cs id slug c i n (r : Registry) :
  Json.toString cs = Some c -> Json.toString id = Some i ->
  Json.toString slug = Some n ->
  itemTexts cs id slug r = (Eff.Ok (c, i, n), r).
Proof.
  intros Hc Hi Hn. unfold itemTexts, toText, Eff.bind, Eff.ret.
  now rewrite Hc, Hi, Hn.
Qed.

Lemma itemTexts_fails cs id slug (r : Registry) :
  Json.toString cs = None \/ Json.toString id = None
  \/ Json.toString slug = None ->
  itemTexts cs id slug r = (Eff.Throw conversionError, r).
Proof.
  intros H. unfold itemTexts, toText, Eff.bind, Eff.ret, Eff.throw.
  destruct (Json.toString cs); [|reflexivity].
  destruct (Json.toString id); [|reflexivity].
  destruct (Json.toString slug); [|reflexivity].
  destruct H as [H|[H|H]]; discriminate H.
Qed.

Lemma getAssignment_run args r c i n :
  Json.toString (Json.lookup "course_slug" args) = Some c ->
  Json.toString (Json.lookup "item_id" args) = Some i ->
  Json.toString (Json.or (Json.lookup "item_name" args) (Json.Str "quiz"))
    = Some n ->
  getAssignment w cfg args r
  = firstAccepted w cfg (Json.lookup "course_slug" args)
      (Json.lookup "item_id" args) c i n r.
Proof.
  intros Hc Hi Hn. unfold getAssignment, firstAccepted, assignmentUrls.
  unfold Eff.bind at 1. rewrite (itemTexts_run _ _ _ c i n r Hc Hi Hn).
  do 3 (rewrite probeAssignment_cons; cbv zeta).
  cbn [probeAssignment]. unfold toText. rewrite Hc, Hi.
  reflexivity.
Qed.

Lemma firstAccepted_navigations cs id c i n r :
  navigations (trace (snd (firstAccepted w cfg cs id c i n r)))
  = (navigations (trace r) ++ reached w cfg c i n r)%list.
Proof.
  assert (Hprobe : forall url r0,
            navigations (trace (snd (fetchPageContent w cfg (Json.Str url) r0)))
            = (navigations (trace r0)
               ++ match fst (createAuthenticatedPage w cfg r0) with
                  | Eff.Ok _ => [Json.Str url]
                  | Eff.Throw _ => []
                  end)%list)
    by (intros url r0; now apply fetchPageContent_navigations).
  unfold firstAccepted, reached. cbv zeta.
  destruct (accepted (fst (fetchPageContent w cfg
                             (Json.Str (itemUrl "quiz" c i n)) r))); cbn [snd].
  - now rewrite Hprobe, app_nil_r.
  - destruct (accepted (fst (fetchPageContent w cfg
                               (Json.Str (itemUrl "exam" c i n)) _))); cbn [snd].
    + now rewrite !Hprobe, app_nil_r, app_assoc.
    + destruct (accepted _); cbn [snd];
        rewrite !Hprobe, <- ?app_assoc; reflexivity.
Qed.

(** C9, amended. With a course, an item and an item name that are strings
    (or, more generally, convert to texts), [get_assignment] probes the
    quiz address, then the exam address, then the assignment address, each
    on the state the previous probe left. The first probe that returns a
    page whose content is longer than 100 characters is the result, and the
    later candidates are not probed; a probe that throws or returns a
    shorter page is skipped; when all three are skipped the invocation
    throws [Could not find assignment ...]. Each probe navigates once, to
    its candidate address, when its page could be set up, and nowhere
    otherwise, so that the addresses the invocation visits are those of
    the candidates it probed, in that order. When one of the three values
    cannot be converted to a string the invocation throws the [TypeError]
    of the conversion and probes nothing. *)
Theorem C9_assignment_first_plausible_candidate (args : Json.Fields)
    (r : Registry) :
  let cs := Json.lookup "course_slug" args in
  let id := Json.lookup "item_id" args in
  let slug := Json.or (Json.lookup "item_name" args) (Json.Str "quiz") in
  (forall c i n, cs = Json.Str c -> id = Json.Str i -> slug = Json.Str n ->
     getAssignment w cfg args r = firstAccepted w cfg cs id c i n r
     /\ navigations (trace (snd (getAssignment w cfg args r)))
        = (navigations (trace r) ++ reached w cfg c i n r)%list)
  /\ (Json.toString cs <> None -> Json.toString id <> None ->
      Json.toString slug <> None ->
      exists c i n, getAssignment w cfg args r = firstAccepted w cfg cs id c i n r)
  /\ (Json.toString cs = None \/ Json.toString id = None
      \/ Json.toString slug = None ->
      getAssignment w cfg args r = (Eff.Throw conversionError, r))
  /\ (forall o, accepted o = true <->
                exists result, o = Eff.Ok result
                               /\ 100 < String.length (pr_content result))
  /\ (forall url r0,
        navigations (trace (snd (fetchPageContent w cfg (Json.Str url) r0)))
        = (navigations (trace r0)
           ++ match fst (createAuthenticatedPage w cfg r0) with
              | Eff.Ok _ => [Json.Str url]
              | Eff.Throw _ => []
              end)%list).
Proof.
  intros cs id slug. split; [|split; [|split; [|split]]].
  - intros c i n Hc Hi Hn.
    assert (Hrun : getAssignment w cfg args r = firstAccepted w cfg cs id c i n r)
      by (apply getAssignment_run; fold cs id slug;
          [rewrite Hc | rewrite Hi | rewrite Hn]; reflexivity).
    split; [exact Hrun|]. rewrite Hrun. apply firstAccepted_navigations.
  - intros Hc Hi Hn.
    destruct (Json.toString cs) as [c|] eqn:Ec; [|now elim Hc].
    destruct (Json.toString id) as [i|] eqn:Ei; [|now elim Hi].
    destruct (Json.toString slug) as [n|] eqn:En; [|now elim Hn].
    exists c, i, n. now apply getAssignment_run.
  - intros Hfail. unfold getAssignment. unfold Eff.bind at 1.
    fold cs id slug. now rewrite (itemTexts_fails cs id slug r Hfail).
  - intros [result|e]; simpl; split.
    + intros H. exists result. split; [reflexivity|now apply plausible_length].
    + intros (result' & [= <-] & H). now apply plausible_length.
    + discriminate.
    + intros (result' & Hf & _). discriminate Hf.
  - intros url r0. now apply fetchPageContent_navigations.
Qed.

End Candidates.

(** C9, as stated, fails: with a [course_slug] that cannot be converted to
    a string no candidate yields content, and yet the invocation does not
    fail with [Could not find assignment]: it throws the [TypeError] of
    the conversion before it probes anything. *)
Lemma C9_unconvertible_slug_is_a_type_error :
  ~ (forall w cfg args r,
       (exists answer, fst (Coursera.getAssignment w cfg args r) = Eff.Ok answer)
       \/ (exists rest,
             fst (Coursera.getAssignment w cfg args r)
             = Eff.Throw (Eff.Err ("Could not find assignment " ++ rest))))
  /\ Coursera.getAssignment Samples.calmWorld Samples.tokenConfig
       Scenarios.opaqueSlug Coursera.freshRegistry
     = (Eff.Throw Coursera.conversionError, Coursera.freshRegistry).
Proof.
  split; [|reflexivity].
  intros H.
  destruct (H Samples.calmWorld Samples.tokenConfig Scenarios.opaqueSlug
              Coursera.freshRegistry) as [[answer Ha]|[rest Hr]].
  - vm_compute in Ha. discriminate Ha.
  - vm_compute in Hr. discriminate Hr.
Qed.

(** With the quiz address unreachable the exam address is the one that
    answers: two navigations, in that order, and the page of the second. *)
Lemma C9_witness :
  let args := [("course_slug", Json.Str "ml"); ("item_id", Json.Str "q1")] in
  let run := Coursera.getAssignment Scenarios.quizMissingWorld
               Samples.tokenConfig args Coursera.freshRegistry in
  run = Notions.firstAccepted Scenarios.quizMissingWorld Samples.tokenConfig
          (Json.Str "ml") (Json.Str "q1") "ml" "q1" "quiz"
          Coursera.freshRegistry
  /\ Notions.navigations (Coursera.trace (snd run))
     = [Json.Str "https://www.coursera.org/learn/ml/quiz/q1/quiz";
        Json.Str "https://www.coursera.org/learn/ml/exam/q1/quiz"]
  /\ (exists answer, fst run = Eff.Ok answer
                     /\ Json.lookup "url"
                          (match answer with Json.Obj fs => fs | _ => [] end)
                        = Json.Str "u").
Proof.
  intros args run.
  destruct (C9_assignment_first_plausible_candidate Scenarios.quizMissingWorld
              Samples.tokenConfig args Coursera.freshRegistry)
    as (Hstrings & _).
  destruct (Hstrings "ml" "q1" "quiz" eq_refl eq_refl eq_refl) as [Hrun Hnav].
  split; [|split].
  - exact Hrun.
  - fold run in Hnav. rewrite Hnav. vm_compute. reflexivity.
  - eexists. split; vm_compute; reflexivity.
Defined.

(** ** The list of assignments without duplicates *)

Section Dedupe.
Import Notions Coursera.

Lemma sameValueZero_eq (a b : Json.t) :
  Json.sameValueZero a b = true -> a = b.
Proof.
  destruct a, b; simpl; try discriminate; try reflexivity.
  - intros H. f_equal. now apply Bool.eqb_prop.
  - intros H. f_equal. now apply Z.eqb_eq.
  - intros H. f_equal. now apply String.eqb_eq.
Qed.

Lemma sameValueZero_sym (a b : Json.t) :
  Json.sameValueZero a b = Json.sameValueZero b a.
Proof.
  destruct a, b; simpl; try reflexivity.
  - now destruct b0, b.
  - apply Z.eqb_sym.
  - apply String.eqb_sym.
Qed.

Lemma ordPairs_snoc {A} (R : A -> A -> Prop) (l : list A) (x : A) :
  ForallOrdPairs R l -> Forall (fun y => R y x) l ->
  ForallOrdPairs R (l ++ [x]).
Proof.
  induction 1 as [|y l Hy Hl IH]; intros Hall; simpl.
  - repeat constructor.
  - apply Forall_cons_iff in Hall as [Hyx Hall]. constructor.
    + apply Forall_app. split; [exact Hy | now constructor].
    + now apply IH.
Qed.

(** [Map.prototype.set]: the keys stay as they are when the key is
    already there, and the new key goes to the end otherwise. *)
Lemma mapSet_keys (k v : Json.t) (m : list (Json.t * Json.t)) :
  (map fst (mapSet k v m) = map fst m
   /\ exists k', In k' (map fst m) /\ Json.sameValueZero k k' = true)
  \/ (map fst (mapSet k v m) = (map fst m ++ [k])%list
      /\ Forall (fun k' => apart k' k) (map fst m)).
Proof.
  induction m as [|[k' v'] m IH]; simpl.
  - right. split; [reflexivity | constructor].
  - destruct (Json.sameValueZero k k') eqn:Hk; simpl.
    + left. split; [reflexivity|]. exists k'. split; [now left | exact Hk].
    + destruct IH as [[Heq (k'' & Hin & Hk'')] | [Heq Hall]].
      * left. split; [now rewrite Heq|]. exists k''. split; [now right | exact Hk''].
      * right. split; [now rewrite Heq|]. constructor; [|exact Hall].
        unfold apart. now rewrite sameValueZero_sym.
Qed.

Lemma mapSet_keyed (k v : Json.t) (m : list (Json.t * Json.t)) :
  k = urlOf v -> keyed m -> keyed (mapSet k v m).
Proof.
  intros Hk. unfold keyed. induction m as [|[k' v'] m IH]; simpl; intros Hm.
  - repeat constructor. exact Hk.
  - apply Forall_cons_iff in Hm as [Hhead Hm].
    destruct (Json.sameValueZero k k') eqn:Hsame.
    + constructor; [|exact Hm]. simpl.
      apply sameValueZero_eq in Hsame. congruence.
    + constructor; [exact Hhead | now apply IH].
Qed.

Lemma mapSet_values (k v : Json.t) (m : list (Json.t * Json.t)) (x : Json.t) :
  In x (map snd (mapSet k v m)) -> x = v \/ In x (map snd m).
Proof.
  induction m as [|[k' v'] m IH]; simpl.
  - intros [<-|[]]. now left.
  - destruct (Json.sameValueZero k k'); simpl.
    + intros [<-|H]; [now left | right; now right].
    + intros [<-|H]; [right; now left|].
      destruct (IH H) as [->|Hin]; [now left | right; now right].
Qed.

Lemma mapSet_covers_new (v : Json.t) (m : list (Json.t * Json.t)) :
  covered (mapSet (urlOf v) v m) v.
Proof.
  induction m as [|[k' v'] m IH]; simpl.
  - exists (urlOf v, v). split; [now left | now left].
  - destruct (Json.sameValueZero (urlOf v) k') eqn:Hsame.
    + exists (k', v). split; [now left | now left].
    + destruct IH as (kv & Hin & H). exists kv. split; [now right | exact H].
Qed.

Lemma mapSet_covers_old (v a : Json.t) (m : list (Json.t * Json.t)) :
  keyed m -> covered m a -> covered (mapSet (urlOf v) v m) a.
Proof.
  unfold keyed. induction m as [|[k' v'] m IH]; intros Hm (kv & Hin & H).
  - destruct Hin.
  - apply Forall_cons_iff in Hm as [Hhead Hm]. simpl in Hhead. simpl.
    destruct (Json.sameValueZero (urlOf v) k') eqn:Hsame.
    + destruct Hin as [<-|Hin].
      * exists (k', v). split; [now left|]. right. simpl in *.
        destruct H as [<-|H]; [|exact H].
        rewrite <- Hhead.
        pose proof (sameValueZero_eq _ _ Hsame) as E.
        rewrite <- E at 1. exact Hsame.
      * exists kv. split; [now right | exact H].
    + destruct Hin as [<-|Hin].
      * exists (k', v'). split; [now left | exact H].
      * destruct (IH Hm (ex_intro _ kv (conj Hin H))) as (kv' & Hin' & H').
        exists kv'. split; [now right | exact H'].
Qed.

(** The loop that fills the [Map], with what it keeps true. *)
Lemma fill_map (items : list Json.t) : forall m,
  keyed m -> ForallOrdPairs apart (map fst m) ->
  let m' := fold_left (fun m a => mapSet (urlOf a) a m) items m in
  keyed m'
  /\ ForallOrdPairs apart (map fst m')
  /\ (forall x, In x (map snd m') -> In x items \/ In x (map snd m))
  /\ (forall a, In a items \/ covered m a -> covered m' a).
Proof.
  induction items as [|a items IH]; intros m Hk Hd; simpl.
  - repeat split; try assumption; [now right | now intros a [[]|H]].
  - assert (Hk' : keyed (mapSet (urlOf a) a m)) by now apply mapSet_keyed.
    assert (Hd' : ForallOrdPairs apart (map fst (mapSet (urlOf a) a m))).
    { destruct (mapSet_keys (urlOf a) a m) as [[-> _] | [-> Hall]];
        [exact Hd | now apply ordPairs_snoc]. }
    destruct (IH _ Hk' Hd') as (H1 & H2 & H3 & H4).
    repeat split; try assumption.
    + intros x Hx. destruct (H3 x Hx) as [Hin | Hin]; [left; now right|].
      destruct (mapSet_values _ _ _ _ Hin) as [->|Hold];
        [left; now left | now right].
    + intros b [[<-|Hin] | Hcov]; apply H4.
      * right. apply mapSet_covers_new.
      * now left.
      * right. now apply mapSet_covers_old.
Qed.

Lemma keyed_urls (m : list (Json.t * Json.t)) :
  keyed m -> map urlOf (map snd m) = map fst m.
Proof.
  unfold keyed. induction 1 as [|[k v] m Hkv Hm IH]; simpl; [reflexivity|].
  simpl in Hkv. now rewrite IH, Hkv.
Qed.

Lemma ordPairs_map {A B} (f : A -> B) (R : B -> B -> Prop) (l : list A) :
  ForallOrdPairs R (map f l) -> ForallOrdPairs (fun x y => R (f x) (f y)) l.
Proof.
  induction l as [|x l IH]; simpl; intros H; [constructor|].
  inversion H as [|? ? Hx Hl]; subst. constructor; [|now apply IH].
  apply List.Forall_forall. intros y Hy.
  rewrite List.Forall_forall in Hx. apply Hx. now apply in_map.
Qed.

(** X14. The assignments [list_assignments] returns hold no URL twice:
    of the items the page gave, the result keeps items of that list only,
    any two of them with different URLs, and for every item of the page
    either the item itself or one with the same URL. *)
Theorem assignments_are_listed_once_per_url (items out : list Json.t) :
  dedupeByUrl (Json.Arr items) = Eff.Ok out ->
  ForallOrdPairs otherUrl out
  /\ (forall x, In x out -> In x items)
  /\ (forall a, In a items ->
        exists b, In b out
                  /\ (b = a \/ Json.sameValueZero (urlOf a) (urlOf b) = true)).
Proof.
  unfold dedupeByUrl. destruct (forallb _ items); [|discriminate].
  intros [= <-].
  destruct (fill_map items [] ltac:(constructor) ltac:(constructor))
    as (Hk & Hd & Hin & Hcov).
  fold urlOf in *.
  set (m := fold_left (fun m a => mapSet (urlOf a) a m) items []) in *.
  split; [|split].
  - apply (ordPairs_map urlOf apart). now rewrite keyed_urls.
  - intros x Hx. destruct (Hin x Hx) as [H|[]]. exact H.
  - intros a Ha. destruct (Hcov a (or_introl Ha)) as ([k v] & Hkv & H).
    exists v. split; [apply in_map_iff; now exists (k, v)|].
    simpl in H. destruct H as [->|H]; [now left | right].
    unfold keyed in Hk. rewrite List.Forall_forall in Hk.
    pose proof (Hk _ Hkv) as E. simpl in E. now rewrite <- E.
Qed.

Lemma assignments_are_listed_once_per_url_witness :
  let quiz n u := Json.Obj [("name", Json.Str n); ("url", Json.Str u)] in
  ForallOrdPairs otherUrl [quiz "Quiz 1 again" "/quiz/1"; quiz "Exam" "/exam/2"].
Proof.
  intros quiz.
  apply (assignments_are_listed_once_per_url
           [quiz "Quiz 1" "/quiz/1"; quiz "Exam" "/exam/2";
            quiz "Quiz 1 again" "/quiz/1"]).
  reflexivity.
Defined.

End Dedupe.

(** ** The protocol endpoint, request by request *)

Section Endpoint.
Import Notions Http.
Variable sdk : Sdk.
Variable fs : Env.FileSystem.

Lemma closeTransport_res t sid st :
  res (snd (closeTransport sdk t sid st)) = res st.
Proof.
  unfold closeTransport.
  unfold Eff.bind at 1. unfold now at 1.
  unfold Eff.bind at 1. unfold emit at 1, Eff.modify at 1.
  cbn [sessions proc nextId log res].
  destruct (sdk_transportClose sdk (length (log st))) as [err fires].
  cbn [close_fires_onclose close_error].
  unfold Eff.bind at 1.
  assert (Hinner : forall s,
            fst (Eff.bind (transportOnClose sdk sid)
                   (fun _ => serverOnclose sdk (length (log st))) s) = Eff.Ok tt
            /\ res (snd (Eff.bind (transportOnClose sdk sid)
                           (fun _ => serverOnclose sdk (length (log st))) s))
               = res s).
  { intros s. unfold Eff.bind, transportOnClose.
    destruct sid as [id|]; [destruct (negb (String.eqb id ""))|];
      unfold Eff.tryCatch, Eff.ret;
      rewrite ?cleanupSession_run, serverOnclose_run; split; reflexivity. }
  destruct fires.
  - match goal with
    | |- context [Eff.bind (transportOnClose sdk sid) ?k ?s] =>
        destruct (Hinner s) as [Hok Hres];
        destruct (Eff.bind (transportOnClose sdk sid) k s) as [[u|e] s1]
    end; [|discriminate Hok].
    cbn [snd fst res] in *. unfold Eff.settle, Eff.voidResult.
    now destruct err.
  - unfold Eff.ret, Eff.settle, Eff.voidResult. now destruct err.
Qed.

Lemma mapGet_set_eq k v (m : SessionMap) : mapGet k (mapSet k v m) = Some v.
Proof.
  induction m as [|[k' v'] m IH]; simpl.
  - now rewrite String.eqb_refl.
  - destruct (String.eqb k k') eqn:E; simpl; rewrite E; [reflexivity | exact IH].
Qed.

Lemma app_mcp cfg req st :
  reachesMcp sdk cfg req -> app sdk fs cfg req st = mcpRoute sdk fs req st.
Proof.
  intros (Hm & Hk & Hp). unfold app. now rewrite Hm, Hk, Hp.
Qed.

Lemma serve_mcp cfg req st :
  reachesMcp sdk cfg req ->
  serve sdk fs cfg req st
  = (res (snd (mcpRoute sdk fs req (unanswered st))),
     snd (mcpRoute sdk fs req (unanswered st))).
Proof.
  intros H. unfold serve. fold (unanswered st). now rewrite (app_mcp _ _ _ H).
Qed.

Lemma getStreamableTransport_known req st sid session :
  carriesSession req sid ->
  mapGet sid (sessions st) = Some session ->
  t_streamable (transport session) = true ->
  getStreamableTransport sdk fs req st = (Eff.Ok (Some (transport session)), st).
Proof.
  intros Hc Hsome Hkind. destruct (truthy_carried _ _ Hc) as [Ht Hs].
  unfold getStreamableTransport. rewrite Ht, Hs.
  unfold Eff.bind, Eff.get. now rewrite Hsome, Hkind.
Qed.

Lemma getStreamableTransport_create req st c p' :
  asksForSession sdk req ->
  Coursera.getCourseraConfig fs (proc st) = (Eff.Ok c, p') ->
  getStreamableTransport sdk fs req st
  = (match sdk_connect sdk (S (length (log st))) with
     | None => Eff.Ok (Some (mkTransport (S (nextId st)) true (nextId st)))
     | Some e => Eff.Throw e
     end,
     mkState (sessions st) p' (S (S (nextId st)))
       (log st ++ [EvCreateServer (nextId st);
                   EvConnect (nextId st) (S (nextId st))])
       (res st)).
Proof.
  intros (Hno & Hpost & Hinit) Hcfg. unfold carriesNoSession in Hno.
  unfold getStreamableTransport. rewrite Hno, Hpost, Hinit. simpl.
  unfold liftProc, Coursera.createCourseraServer, fresh, emit, now,
    Eff.bind, Eff.get, Eff.modify, Eff.ret, Eff.settle, Eff.voidResult.
  rewrite Hcfg. simpl. rewrite length_app, Nat.add_1_r, <- app_assoc. simpl.
  destruct (sdk_connect sdk _); reflexivity.
Qed.

Lemma getStreamableTransport_no_config req st e p' :
  asksForSession sdk req ->
  Coursera.getCourseraConfig fs (proc st) = (Eff.Throw e, p') ->
  getStreamableTransport sdk fs req st
  = (Eff.Throw e,
     mkState (sessions st) p' (nextId st) (log st) (res st)).
Proof.
  intros (Hno & Hpost & Hinit) Hcfg. unfold carriesNoSession in Hno.
  unfold getStreamableTransport. rewrite Hno, Hpost, Hinit. simpl.
  unfold liftProc, Coursera.createCourseraServer, Eff.bind.
  now rewrite Hcfg.
Qed.

Lemma handleRequest_run t sid req st :
  handleRequest sdk t sid req st
  = let logged := (log st ++ [EvHandleRequest (t_id t)])%list in
    match sdk_handleRequest sdk (length (log st)) req with
    | SdkRespond r =>
        (Eff.Ok tt, mkState (sessions st) (proc st) (nextId st) logged (Some r))
    | SdkInitialize newId r =>
        (Eff.Ok tt,
         mkState (mapSet newId (mkSession t (t_server t)) (sessions st))
           (proc st) (nextId st) logged (Some r))
    | SdkClose r =>
        closeTransport sdk t sid
          (mkState (sessions st) (proc st) (nextId st) logged (Some r))
    | SdkThrow e sent =>
        (Eff.Throw e,
         mkState (sessions st) (proc st) (nextId st) logged
           (match sent with Some r => Some r | None => res st end))
    end.
Proof.
  unfold handleRequest, storeSession, setSessions, send, emit, now, Eff.bind,
    Eff.modify, Eff.throw, Eff.ret. cbn [fst snd log].
  destruct (sdk_handleRequest sdk (length (log st)) req) as [r|newId r|r|e sent];
    try reflexivity.
  now destruct sent.
Qed.

Lemma closeTransport_fires t sid st :
  sid <> "" ->
  close_fires_onclose (sdk_transportClose sdk (length (log st))) = true ->
  snd (closeTransport sdk t (Some sid) st)
  = mkState (mapDelete sid (sessions st)) (proc st) (nextId st)
      (log st ++ EvTransportClose (t_id t)
         :: cleanupEvents sdk (S (length (log st))) (sessions st) sid
            ++ rejection sdk (length (log st)))
      (res st).
Proof.
  intros Hne%String.eqb_neq Hfires.
  unfold closeTransport.
  unfold Eff.bind at 1. unfold now at 1.
  unfold Eff.bind at 1. unfold emit at 1, Eff.modify at 1.
  cbn [sessions proc nextId log res]. rewrite Hfires.
  unfold transportOnClose. rewrite Hne. cbn [negb].
  unfold Eff.bind at 1. unfold Eff.bind at 1. unfold Eff.tryCatch.
  rewrite cleanupSession_run. cbn [sessions proc nextId log res].
  rewrite serverOnclose_run. cbn [sessions proc nextId log res].
  rewrite length_snoc, <- !app_assoc. cbn [app].
  unfold Eff.settle. now destruct (Eff.voidResult _).
Qed.

Lemma carriesNoSession_sid req :
  carriesNoSession req ->
  (if JS.truthy (getFirstHeaderValue (header "mcp-session-id" req))
   then getFirstHeaderValue (header "mcp-session-id" req)
   else None) = None.
Proof. unfold carriesNoSession. now intros ->. Qed.

(** X16. A request that asks for a new session gets one when the
    configuration is there and the SDK connects and initialises: a fresh
    server and a fresh transport are created, the session is stored under
    the identifier the SDK chose, the SDK's response goes out, and from
    then on a request that carries the identifier is routed to that
    transport without any further change. *)
Theorem initialize_opens_a_routable_session (cfg : HttpConfig) (req : Request)
    (st : State) (c : Coursera.Config) (p' : Env.ProcessState)
    (sid : string) (r : Response) :
  reachesMcp sdk cfg req ->
  asksForSession sdk req ->
  Coursera.getCourseraConfig fs (proc st) = (Eff.Ok c, p') ->
  sdk_connect sdk (S (length (log st))) = None ->
  sdk_handleRequest sdk (S (S (length (log st)))) req = SdkInitialize sid r ->
  let n := nextId st in
  let session := mkSession (mkTransport (S n) true n) n in
  let st' := snd (serve sdk fs cfg req st) in
  fst (serve sdk fs cfg req st) = Some r
  /\ sessions st' = mapSet sid session (sessions st)
  /\ log st' = (log st ++ [EvCreateServer n; EvConnect n (S n);
                           EvHandleRequest (S n)])%list
  /\ forall req2, carriesSession req2 sid ->
       getStreamableTransport sdk fs req2 st'
       = (Eff.Ok (Some (transport session)), st').
Proof.
  intros Hreach Hasks Hcfg Hconnect Hinit n session st'.
  assert (Hrun : mcpRoute sdk fs req (unanswered st)
                 = (Eff.Ok tt,
                    mkState (mapSet sid session (sessions st)) p' (S (S n))
                      (log st ++ [EvCreateServer n; EvConnect n (S n);
                                  EvHandleRequest (S n)])
                      (Some r))).
  { unfold mcpRoute, Eff.tryCatch. unfold Eff.bind at 1.
    rewrite (getStreamableTransport_create req (unanswered st) c p' Hasks Hcfg).
    cbn [unanswered log nextId sessions res]. rewrite Hconnect.
    rewrite (carriesNoSession_sid req (proj1 Hasks)), handleRequest_run.
    cbn [log]. rewrite length_app. simpl length.
    replace (length (log st) + 2) with (S (S (length (log st)))) by lia.
    rewrite Hinit. cbn. rewrite <- app_assoc. reflexivity. }
  subst st'. rewrite (serve_mcp _ _ _ Hreach), Hrun. cbn [fst snd sessions log res].
  repeat split.
  intros req2 Hc. apply getStreamableTransport_known with sid;
    [exact Hc | apply mapGet_set_eq | reflexivity].
Qed.

(** X17. When a new session cannot be created (the configuration is
    missing by then, or the SDK fails to connect the new server to the
    new transport), the client is answered with status 500 and the error
    [-32603 Internal server error], and no session is stored. *)
Theorem failed_session_creation_is_an_internal_error (cfg : HttpConfig)
    (req : Request) (st : State) :
  reachesMcp sdk cfg req ->
  asksForSession sdk req ->
  (exists e, fst (Coursera.getCourseraConfig fs (proc st)) = Eff.Throw e)
  \/ (exists e, sdk_connect sdk (S (length (log st))) = Some e) ->
  fst (serve sdk fs cfg req st) = Some internalError
  /\ sessions (snd (serve sdk fs cfg req st)) = sessions st.
Proof.
  intros Hreach Hasks Hfail. rewrite (serve_mcp _ _ _ Hreach). cbn [fst snd].
  unfold mcpRoute, Eff.tryCatch, Eff.bind.
  destruct (Coursera.getCourseraConfig fs (proc st)) as [[c|e] p'] eqn:Hcfg.
  - destruct Hfail as [[e He] | [e He]]; [discriminate He|].
    rewrite (getStreamableTransport_create req (unanswered st) c p' Hasks Hcfg).
    cbn [unanswered log]. rewrite He. split; reflexivity.
  - rewrite (getStreamableTransport_no_config req (unanswered st) e p' Hasks Hcfg).
    split; reflexivity.
Qed.

(** X18. When the SDK fails while it handles a request of a live
    session, the failure is logged and the client is answered exactly
    once: with [-32603 Internal server error] (status 500) when nothing
    had been sent, and with what the SDK had already sent otherwise. The
    session stays in the table. *)
Theorem sdk_failure_is_answered_once (cfg : HttpConfig) (req : Request)
    (st : State) (sid : string) (session : Session) (e : Eff.JsError)
    (sent : option Response) :
  reachesMcp sdk cfg req ->
  carriesSession req sid ->
  mapGet sid (sessions st) = Some session ->
  t_streamable (transport session) = true ->
  sdk_handleRequest sdk (length (log st)) req = SdkThrow e sent ->
  let st' := snd (serve sdk fs cfg req st) in
  fst (serve sdk fs cfg req st)
  = Some (match sent with Some r => r | None => internalError end)
  /\ sessions st' = sessions st
  /\ log st' = (log st ++ [EvHandleRequest (t_id (transport session));
                           EvConsole ("Error handling /mcp request: "
                                      ++ Eff.message e)])%list.
Proof.
  intros Hreach Hc Hsome Hkind Hthrow st'. subst st'.
  rewrite (serve_mcp _ _ _ Hreach). cbn [fst snd].
  unfold mcpRoute, Eff.tryCatch, Eff.bind.
  rewrite (getStreamableTransport_known req (unanswered st) sid session
             Hc Hsome Hkind).
  rewrite handleRequest_run. cbn [log unanswered]. rewrite Hthrow.
  unfold emit, respondJsonRpcError, send, Eff.modify, Eff.get, Eff.ret.
  destruct sent as [r0|]; cbn; rewrite <- app_assoc; repeat split.
Qed.

(** X19. When the SDK closes the transport of a live session while it
    handles a request (the client ended the session) and reports it
    through [onclose], the session is forgotten: its entry leaves the
    table, its server is asked to close, the other sessions stay, and the
    SDK's response goes out even if closing fails. *)
Theorem closed_transport_forgets_the_session (cfg : HttpConfig) (req : Request)
    (st : State) (sid : string) (session : Session) (r : Response) :
  reachesMcp sdk cfg req ->
  carriesSession req sid ->
  mapGet sid (sessions st) = Some session ->
  t_streamable (transport session) = true ->
  sdk_handleRequest sdk (length (log st)) req = SdkClose r ->
  close_fires_onclose (sdk_transportClose sdk (S (length (log st)))) = true ->
  let st' := snd (serve sdk fs cfg req st) in
  fst (serve sdk fs cfg req st) = Some r
  /\ sessions st' = mapDelete sid (sessions st)
  /\ unknownIn sid st'
  /\ In (EvServerClose (server session)) (log st').
Proof.
  intros Hreach Hc Hsome Hkind Hclose Hfires st'. subst st'.
  destruct (truthy_carried _ _ Hc) as [Ht Hs]. pose proof Hc as [Hhead Hne].
  apply String.eqb_neq in Hne.
  rewrite (serve_mcp _ _ _ Hreach). cbn [fst snd].
  unfold mcpRoute, Eff.tryCatch, Eff.bind.
  rewrite (getStreamableTransport_known req (unanswered st) sid session
             Hc Hsome Hkind).
  rewrite Ht, Hhead, handleRequest_run. cbn [log unanswered]. rewrite Hclose.
  cbv zeta.
  match goal with
  | |- context [closeTransport sdk ?t (Some sid) ?s] =>
      pose proof (closeTransport_fires t sid s (proj2 Hc)) as Hrun;
      pose proof (closeTransport_res t (Some sid) s) as Hres;
      destruct (closeTransport sdk t (Some sid) s) as [[u|e] s1]
  end;
    cbn [snd log sessions res] in Hrun, Hres;
    rewrite length_snoc in Hrun; specialize (Hrun Hfires);
    subst s1; unfold emit, respondJsonRpcError, send, Eff.modify, Eff.get,
      Eff.ret, unknownIn, cleanupEvents;
    cbn [fst snd sessions log res proc nextId unanswered];
    rewrite Hsome, mapGet_delete_eq;
    repeat split; repeat (rewrite in_app_iff || simpl); tauto.
Qed.

(** X20. Only a POST opens a session: a request without a session
    identifier that is not a POST is rejected with status 400 and changes
    nothing, even when its body holds an initialization message. *)
Theorem only_a_post_opens_a_session (req : Request) (st : State) :
  carriesNoSession req ->
  method req <> "POST" ->
  mcpRoute sdk fs req st = (Eff.Ok tt, answered st noValidSession).
Proof.
  intros Hno Hmethod. unfold carriesNoSession in Hno.
  apply String.eqb_neq in Hmethod.
  unfold mcpRoute, getStreamableTransport, Eff.tryCatch.
  unfold Eff.bind at 1. rewrite Hno, Hmethod. reflexivity.
Qed.

End Endpoint.

Lemma initialize_opens_a_routable_session_witness :
  let run := Http.serve Scenarios.initSdk Samples.noFiles Samples.openConfig
               Scenarios.initRequest Scenarios.readyState in
  fst run = Some (Http.mkHttpResponse 200 Json.Null)
  /\ Http.getStreamableTransport Scenarios.initSdk Samples.noFiles
       (Samples.requestFor "sess-1") (snd run)
     = (Eff.Ok (Some (Http.mkTransport 1 true 0)), snd run).
Proof.
  intros run.
  destruct (initialize_opens_a_routable_session Scenarios.initSdk Samples.noFiles
              Samples.openConfig Scenarios.initRequest Scenarios.readyState
              Samples.tokenConfig
              (Env.mkProcess true {[ "COURSERA_CAUTH" := "abc" ]})
              "sess-1" (Http.mkHttpResponse 200 Json.Null))
    as (Hres & _ & _ & Hnext);
    try (vm_compute; reflexivity).
  - repeat split.
  - repeat split.
  - split; [exact Hres|].
    apply (Hnext (Samples.requestFor "sess-1")).
    split; [reflexivity | discriminate].
Defined.

Lemma failed_session_creation_is_an_internal_error_witness :
  fst (Http.serve Scenarios.initSdk Samples.noFiles Samples.openConfig
         Scenarios.initRequest Samples.emptyState)
  = Some Notions.internalError.
Proof.
  apply (failed_session_creation_is_an_internal_error Scenarios.initSdk
           Samples.noFiles Samples.openConfig Scenarios.initRequest
           Samples.emptyState).
  - repeat split.
  - repeat split.
  - left. eexists. vm_compute. reflexivity.
Defined.

Lemma sdk_failure_is_answered_once_witness :
  fst (Http.serve Scenarios.throwingSdk Samples.noFiles Samples.openConfig
         (Samples.requestFor "s1") Samples.twoSessions)
  = Some Notions.internalError.
Proof.
  apply (sdk_failure_is_answered_once Scenarios.throwingSdk Samples.noFiles
           Samples.openConfig (Samples.requestFor "s1") Samples.twoSessions "s1"
           (Http.mkSession (Http.mkTransport 1 true 0) 0)
           (Eff.Err "stream is not readable") None).
  - repeat split.
  - split; [reflexivity | discriminate].
  - reflexivity.
  - reflexivity.
  - reflexivity.
Defined.

Lemma closed_transport_forgets_the_session_witness :
  let st' := snd (Http.serve Scenarios.closingSdk Samples.noFiles
                    Samples.openConfig (Samples.requestFor "s1")
                    Samples.twoSessions) in
  Http.unknownIn "s1" st'
  /\ In (Http.EvServerClose 0) (Http.log st').
Proof.
  intros st'.
  destruct (closed_transport_forgets_the_session Scenarios.closingSdk
              Samples.noFiles Samples.openConfig (Samples.requestFor "s1")
              Samples.twoSessions "s1"
              (Http.mkSession (Http.mkTransport 1 true 0) 0)
              (Http.mkHttpResponse 200 Json.Null))
    as (_ & _ & Hgone & Hclosed); try reflexivity.
  - repeat split.
  - split; [reflexivity | discriminate].
  - split; [exact Hgone | exact Hclosed].
Defined.

Lemma only_a_post_opens_a_session_witness :
  Http.mcpRoute Scenarios.initSdk Samples.noFiles Scenarios.getRequest
    Scenarios.readyState
  = (Eff.Ok tt, Http.answered Scenarios.readyState Notions.noValidSession).
Proof.
  apply only_a_post_opens_a_session; [reflexivity | discriminate].
Defined.

(** ** The API key and the list of allowed hosts *)

Section KeysAndHosts.
Import Notions Http.

Lemma toLowerAscii_length (s : string) :
  String.length (JS.toLowerAscii s) = String.length s.
Proof. induction s as [|c s IH]; simpl; [reflexivity | now rewrite IH]. Qed.

Lemma span_blank (sp y : string) :
  blank sp = true -> noLeadingSpace y = true ->
  JS.span_len JS.is_ws (sp ++ y) = String.length sp.
Proof.
  unfold blank. induction sp as [|c sp IH]; intros Hsp Hy.
  - rewrite append_nil. destruct y as [|d y]; [reflexivity|]. simpl in *.
    apply negb_true_iff in Hy. now rewrite Hy.
  - simpl in Hsp. apply andb_true_iff in Hsp as [Hc Hsp].
    rewrite append_cons. simpl. now rewrite Hc, IH.
Qed.

Lemma matchBearer_token (kw sp key b : string) :
  JS.toLowerAscii kw = "bearer" ->
  blank sp = true -> sp <> "" ->
  key <> "" -> noLeadingSpace key = true -> oneLine (key ++ b) = true ->
  matchBearer (kw ++ sp ++ key ++ b) = Some (key ++ b).
Proof.
  intros Hkw Hsp Hne Hkey Hlead Hline.
  assert (Hlen : String.length kw = 6)
    by (rewrite <- toLowerAscii_length, Hkw; reflexivity).
  unfold matchBearer. rewrite <- Hlen, take_app_length, drop_app_length, Hkw.
  cbn [String.eqb Ascii.eqb Bool.eqb andb].
  rewrite span_blank; [|exact Hsp | now rewrite noLeading_app].
  rewrite drop_app_length.
  replace (String.length sp =? 0)%nat with false
    by (destruct sp; [congruence | reflexivity]).
  replace (String.eqb (key ++ b) "") with false
    by (destruct key; [congruence | reflexivity]).
  cbn [negb]. unfold oneLine in Hline. now rewrite Hline.
Qed.

(** X21. A request that presents the configured API key passes the key
    check: as a bearer token with the keyword in any letter case, as the
    bare value of the [Authorization] header, or in the [x-api-key]
    header; white space around the key is ignored. *)
Theorem presented_api_key_is_accepted (key : string) (req : Request) :
  key <> "" -> tight key = true ->
  Presents key req ->
  apiKeyMiddleware key req = None.
Proof.
  intros Hne Htight Hpresent.
  assert (Hpass : extractApiKey req = Some key ->
                  apiKeyMiddleware key req = None).
  { intros H. unfold apiKeyMiddleware. rewrite H. simpl.
    rewrite String.eqb_refl.
    now destruct (String.eqb_spec key ""). }
  apply Hpass. unfold extractApiKey.
  destruct Hpresent as [kw sp b Hkw Hsp Hspne Hb Hline Hh
                       | a b Ha Hb Hno Hh | a b Ha Hb Hnone Hh].
  - rewrite Hh, matchBearer_token; try assumption.
    + rewrite <- (append_nil (key ++ b)). now rewrite trim_pad.
    + now apply andb_true_iff in Htight as [Hl _].
  - rewrite Hh, Hno. now rewrite trim_pad.
  - rewrite Hnone, Hh. now rewrite trim_pad.
Qed.

(** X22. When a request has an [Authorization] header, the key check
    reads the key from it alone: the verdict is the one of the request
    stripped of every other header, so a valid [x-api-key] does not make
    up for an [Authorization] header that holds something else. *)
Theorem authorization_header_takes_precedence (key a : string) (req : Request) :
  getFirstHeaderValue (header "authorization" req) = Some a ->
  apiKeyMiddleware key req
  = apiKeyMiddleware key
      (mkRequest (method req) (path req) [("authorization", One a)] (body req)).
Proof.
  intros H. unfold apiKeyMiddleware, extractApiKey. rewrite H. reflexivity.
Qed.

Lemma all_chars_trimStart p (s : string) :
  JS.all_chars p s = true -> JS.all_chars p (JS.trimStart s) = true.
Proof.
  induction s as [|c s IH]; simpl; [reflexivity|].
  intros [Hc Hs]%andb_true_iff.
  destruct (JS.is_ws c); [now apply IH | simpl; now rewrite Hc, Hs].
Qed.

Lemma all_chars_trim p (s : string) :
  JS.all_chars p s = true -> JS.all_chars p (JS.trim s) = true.
Proof.
  intros H. unfold JS.trim, JS.trimEnd.
  rewrite all_chars_rev. apply all_chars_trimStart.
  rewrite all_chars_rev. now apply all_chars_trimStart.
Qed.

Lemma split_pieces_free (sep : ascii) (s : string) :
  Forall (fun x => free sep x = true) (JS.split sep s).
Proof.
  induction s as [|c s IH]; [repeat constructor|].
  rewrite split_cons. destruct (Ascii.eqb c sep) eqn:Hc.
  - constructor; [reflexivity | exact IH].
  - destruct (JS.split sep s) as [|x l]; [constructor|].
    apply Forall_cons_iff in IH as [Hx Hl]. constructor; [|exact Hl].
    unfold free in *. simpl. now rewrite Hc, Hx.
Qed.

Lemma join_nonempty (sep x : string) (l : list string) :
  x <> "" -> JS.join sep (x :: l) <> "".
Proof.
  intros Hx E. destruct x as [|c x]; [congruence|].
  destruct l; simpl in E; [discriminate E|].
  rewrite append_cons in E. discriminate E.
Qed.

(** X23. The list of allowed hosts: [parseCsv] returns the entries
    between the commas, trimmed, without the empty ones, and nothing at
    all when none is left; a list of entries written with commas between
    them is read back as it was. *)
Theorem parseCsv_reads_the_entries :
  (forall value l, parseCsv value = Some l -> l <> [] /\ Forall csvEntry l)
  /\ (forall items, items <> [] -> Forall csvEntry items ->
        parseCsv (Some (JS.join "," items)) = Some items).
Proof.
  split.
  - intros value l. unfold parseCsv. destruct (negb _); [discriminate|].
    set (pieces := JS.split "," (JS.text value)).
    assert (Hfree : Forall (fun x => free "," x = true) pieces)
      by apply split_pieces_free.
    destruct (0 <? length _)%nat eqn:Hlen; [|discriminate].
    intros [= <-]. split.
    + intros E. rewrite E in Hlen. discriminate.
    + apply List.Forall_forall. intros x Hx.
      apply filter_In in Hx as [Hin Hx]. apply in_map_iff in Hin as (y & <- & Hy).
      rewrite List.Forall_forall in Hfree.
      split; [|split].
      * intros E. rewrite E in Hx. discriminate.
      * apply tight_trim.
      * apply all_chars_trim, (Hfree y Hy).
  - intros items Hne Hall. unfold parseCsv.
    assert (Htruthy : JS.truthy (Some (JS.join "," items)) = true).
    { destruct items as [|x items]; [congruence|].
      apply Forall_cons_iff in Hall as [(Hx & _) _]. unfold JS.truthy.
      pose proof (join_nonempty "," x items Hx) as Hj.
      now destruct (String.eqb_spec (JS.join "," (x :: items)) ""). }
    rewrite Htruthy. cbn [negb JS.text].
    rewrite split_join; [|exact Hne|].
    2:{ eapply List.Forall_impl; [|exact Hall]. now intros x (_ & _ & H). }
    assert (Hmap : map JS.trim items = items).
    { clear Hne Htruthy. induction Hall as [|x l (_ & Ht & _) Hl IH];
        simpl; [reflexivity|]. now rewrite trim_tight_id, IH. }
    rewrite Hmap.
    assert (Hfilter : List.filter (fun item => negb (String.eqb item "")) items
                      = items).
    { clear Hne Htruthy Hmap. induction Hall as [|x l (Hx & _) Hl IH];
        simpl; [reflexivity|].
      destruct (String.eqb_spec x ""); [contradiction|]. simpl. now rewrite IH. }
    rewrite Hfilter. destruct items; [congruence | reflexivity].
Qed.

End KeysAndHosts.

Lemma presented_api_key_is_accepted_witness :
  Http.apiKeyMiddleware "secret"
    (Http.mkRequest "POST" "/mcp"
       [("authorization", Http.One ("bEARER" ++ "  " ++ "secret" ++ " "))]
       Json.Null)
  = None.
Proof.
  apply presented_api_key_is_accepted; [discriminate | reflexivity|].
  apply (Notions.AsBearer _ _ "bEARER" "  " " "); try reflexivity.
  discriminate.
Defined.

Lemma authorization_header_takes_precedence_witness :
  Http.apiKeyMiddleware "secret"
    (Http.mkRequest "POST" "/mcp"
       [("x-api-key", Http.One "secret");
        ("authorization", Http.Many ["Basic dXNlcg=="; "Bearer secret"])]
       Json.Null)
  = Some Http.unauthorized.
Proof.
  rewrite (authorization_header_takes_precedence "secret" "Basic dXNlcg==");
    reflexivity.
Defined.

(** ** The browser that does not start, and the selector that never shows *)

Section BrowserEdges.
Import Notions Coursera.
Variable w : World.
Variable cfg : Config.



Lemma bind_cong {S A B} (m m' : Eff.M S A) (f g : A -> Eff.M S B) (s : S) :
  (forall s, m s = m' s) -> (forall a s, f a s = g a s) ->
  Eff.bind m f s = Eff.bind m' g s.
Proof.
  intros Hm Hf. unfold Eff.bind. rewrite Hm.
  destruct (m' s) as [[a|e] s']; [apply Hf | reflexivity].
Qed.

Lemma tryFinally_cong {S A} (m m' : Eff.M S A) (fin fin' : Eff.M S unit) (s : S) :
  (forall s, m s = m' s) -> (forall s, fin s = fin' s) ->
  Eff.tryFinally m fin s = Eff.tryFinally m' fin' s.
Proof.
  intros Hm Hf. unfold Eff.tryFinally. rewrite Hm.
  destruct (m' s) as [res s']. now rewrite Hf.
Qed.

Lemma selector_wait_is_caught page (answer : nat -> option Eff.JsError) r :
  Eff.tryCatch (callVoid (EvWaitForSelector page defaultWaitForSelector) answer)
    (fun _ => Eff.ret tt) r
  = (Eff.Ok tt,
     mkRegistry (browserPromise r) (pages r)
       (trace r ++ [EvWaitForSelector page defaultWaitForSelector])).
Proof.
  unfold Eff.tryCatch, callVoid, call, now, emit, Eff.bind, Eff.modify,
    Eff.settle, Eff.voidResult, Eff.ret. simpl.
  now destruct (answer (length (trace r))).
Qed.

(** X25. Waiting for the content selector cannot fail a page fetch: with
    any other outcome of [page.waitForSelector] (a time-out included),
    [fetchPageContent] returns the same result and makes the same calls. *)
Theorem selector_timeout_changes_nothing (answer : nat -> option Eff.JsError)
    (url : Json.t) (r : Registry) :
  fetchPageContent (withSelectorOracle w answer) cfg url r
  = fetchPageContent w cfg url r.
Proof.
  unfold fetchPageContent.
  apply bind_cong; [reflexivity|]. intros page r1.
  apply tryFinally_cong; [|reflexivity]. intros r2.
  apply bind_cong; [reflexivity|]. intros _ r3.
  apply bind_cong; [reflexivity|]. intros _ r4.
  apply bind_cong; [|reflexivity]. intros r5.
  now rewrite !selector_wait_is_caught.
Qed.

End BrowserEdges.

(** ** The tool table and the handler table *)

Section ToolTable.
Import Notions Coursera.
Variable w : World.
Variable cfg : Config.

(** X26. The tools the server lists are the tools it has handlers for,
    name by name and in the same order, each once; so every listed tool
    can be called, and a name is turned away as unknown exactly when it is
    neither listed nor a member of [Object.prototype]. *)
Theorem listed_tools_are_the_handled_tools (name : string) :
  listedNames = handledNames w cfg
  /\ List.NoDup listedNames
  /\ (In name listedNames -> exists h, toolHandlers w cfg name = Some h)
  /\ (toolHandlers w cfg name = None <->
      ~ In name listedNames /\ ~ In name objectPrototypeMembers).
Proof.
  assert (Hown : forall (l : list (string * Handler)),
            JS.assoc name l = None <-> ~ In name (map fst l)).
  { induction l as [|[k h] l IH]; simpl; [tauto|].
    destruct (String.eqb_spec name k) as [->|Hne].
    - split; [discriminate | intros H; elim H; now left].
    - rewrite IH. split; [intros H [E|Hin]; [congruence | tauto] | tauto]. }
  assert (Hproto : existsb (String.eqb name) objectPrototypeMembers = false
                   <-> ~ In name objectPrototypeMembers).
  { generalize objectPrototypeMembers as l.
    induction l as [|k l IH]; simpl; [tauto|].
    destruct (String.eqb_spec name k) as [->|Hne]; simpl.
    - split; [discriminate | intros H; elim H; now left].
    - rewrite IH. split; [intros H [E|Hin]; [congruence | tauto] | tauto]. }
  assert (Heq : listedNames = handledNames w cfg) by reflexivity.
  split; [exact Heq|]. split.
  - unfold listedNames. simpl.
    repeat (constructor;
            [simpl; intros H;
             repeat (destruct H as [H|H]; [discriminate H|]); exact H|]).
    constructor.
  - split.
    + rewrite Heq. unfold handledNames, toolHandlers. intros Hin.
      destruct (JS.assoc name (ownHandlers w cfg)) as [h|] eqn:E;
        [now exists h|].
      apply Hown in E. contradiction.
    + rewrite Heq. unfold handledNames, toolHandlers.
      destruct (JS.assoc name (ownHandlers w cfg)) as [h|] eqn:E.
      * split; [discriminate|]. intros [Hnot _].
        assert (JS.assoc name (ownHandlers w cfg) = None) by now apply Hown.
        congruence.
      * apply Hown in E.
        destruct (existsb _ _).
        -- split; [discriminate|]. intros [_ Hnot].
           apply Hproto in Hnot. discriminate Hnot.
        -- split; [|reflexivity]. intros _.
           split; [exact E | now apply Hproto].
Qed.

End ToolTable.


(** ** An empty API key *)

(** X27. An [MCP_API_KEY] that is unset or set to the empty string
    installs no key check: the health check is answered whatever
    credentials the request carries, none included. *)
Theorem empty_api_key_installs_no_check (sdk : Http.Sdk) (fs : Env.FileSystem)
    (e : gmap string string) (req : Http.Request) (st : Http.State) :
  JS.truthy (e !! "MCP_API_KEY") = false ->
  Http.sdk_middleware sdk req = None ->
  Http.method req = "GET" -> Http.path req = "/health" ->
  fst (Http.serve sdk fs (Http.loadHttpConfig e) req st)
  = Some Http.healthDocument.
Proof.
  intros Hkey Hsdk Hmethod Hpath.
  unfold Http.serve, Http.app, Http.loadHttpConfig. cbn [Http.apiKey fst snd].
  now rewrite Hsdk, Hkey, Hmethod, Hpath.
Qed.

Lemma empty_api_key_installs_no_check_witness :
  fst (Http.serve Samples.passSdk Samples.noFiles
         (Http.loadHttpConfig {[ "MCP_API_KEY" := "" ]})
         Samples.healthCheck Samples.emptyState)
  = Some Http.healthDocument.
Proof.
  apply empty_api_key_installs_no_check; reflexivity.
Defined.
